(** * PyCABeM [benchapps.py]: path conventions, path preparation,
      the generic evaluator, the per-job result aggregation and the
      functions that execute the algorithms.

    Python 2 byte strings are lists of characters, indices are [Z] (Python
    accepts negative indices and clamps slices), exceptions are an explicit
    result type, and the file system, the two output streams and the
    execution pool form an explicit world that is threaded through the
    effectful functions. *)

From Stdlib Require Import ZArith Ascii String Lia DecimalString.
From stdpp Require Import gmap strings list.

Local Open Scope Z_scope.

(** ** Exceptions and results *)

Inductive exn : Type :=
  | ValueError | IndexError | NameError | AssertionError
  | OSError | IOError | AttributeError.

Inductive result (A : Type) : Type :=
  | Ok (a : A)
  | Raise (e : exn).
Arguments Ok {A} a.
Arguments Raise {A} e.

Definition rbind {A B} (r : result A) (k : A -> result B) : result B :=
  match r with Ok a => k a | Raise e => Raise e end.

(** ** Python byte strings *)

Abbreviation pystr := (list ascii).

(** A literal of the source. *)
Definition py (s : string) : pystr := list_ascii_of_string s.

Module PyStr.

Definition chr (n : nat) : ascii := ascii_of_nat n.
Definition dquote : pystr := [chr 34].
Definition tab : pystr := [chr 9].
Definition nl : pystr := [chr 10].

Definition len (s : pystr) : Z := Z.of_nat (length s).

(** Resolution of a slice bound: a negative bound counts from the end, and
    the result is clamped to [0, len s]. *)
Definition bound (s : pystr) (i : Z) : nat :=
  let j := if i <? 0 then i + len s else i in
  Z.to_nat (Z.min (Z.max j 0) (len s)).

(** [s[lo:hi]], [s[lo:]] and [s[:hi]]. *)
Definition slice (s : pystr) (lo hi : Z) : pystr :=
  take (bound s hi - bound s lo)%nat (drop (bound s lo) s).
Definition slice_from (s : pystr) (lo : Z) : pystr := drop (bound s lo) s.
Definition slice_to (s : pystr) (hi : Z) : pystr := take (bound s hi) s.

(** [s[i]]: raises IndexError out of range. *)
Definition getitem (s : pystr) (i : Z) : result ascii :=
  let j := if i <? 0 then i + len s else i in
  if (j <? 0) || (len s <=? j) then Raise IndexError
  else match s !! Z.to_nat j with
       | Some c => Ok c
       | None => Raise IndexError
       end.

(** [s.rfind(c)] for a one-character [c]: index of the last occurrence,
    or -1. *)
Fixpoint rfind_from (c : ascii) (s : pystr) (i acc : Z) : Z :=
  match s with
  | [] => acc
  | x :: s' => rfind_from c s' (i + 1) (if Ascii.eqb x c then i else acc)
  end.
Definition rfind (c : ascii) (s : pystr) : Z := rfind_from c s 0 (-1).

Fixpoint startswith (s p : pystr) {struct p} : bool :=
  match p, s with
  | [], _ => true
  | _ :: _, [] => false
  | a :: p', b :: s' => Ascii.eqb a b && startswith s' p'
  end.

Definition endswith (s p : pystr) : bool :=
  (length p <=? length s)%nat
  && bool_decide (drop (length s - length p)%nat s = p).

(** [s.find(sub)]: index of the first occurrence, or -1. *)
Fixpoint find_from (sub s : pystr) (i : Z) : Z :=
  if startswith s sub then i
  else match s with
       | [] => -1
       | _ :: s' => find_from sub s' (i + 1)
       end.
Definition find (s sub : pystr) : Z := find_from sub s 0.

(** [s.replace(old, new)] for a non-empty [old]: occurrences are replaced
    from the left, without overlap.  [skip] counts the characters of a
    matched occurrence that are still to be dropped. *)
Fixpoint replace_aux (old new s : pystr) (skip : nat) : pystr :=
  match s with
  | [] => []
  | c :: s' =>
      match skip with
      | S k => replace_aux old new s' k
      | O => if startswith s old then new ++ replace_aux old new s' (length old - 1)%nat
             else c :: replace_aux old new s' O
      end
  end.
Definition replace (s old new : pystr) : pystr := replace_aux old new s O.

(** [sep.join(parts)]. *)
Fixpoint join (sep : pystr) (parts : list pystr) : pystr :=
  match parts with
  | [] => []
  | [p] => p
  | p :: rest => p ++ sep ++ join sep rest
  end.

(** [s.rsplit(c, 1)]. *)
Definition rsplit1 (c : ascii) (s : pystr) : list pystr :=
  let i := rfind c s in
  if i <? 0 then [s] else [slice_to s i; slice_from s (i + 1)].

(** [s.rstrip(c)]. *)
Fixpoint lstrip (c : ascii) (s : pystr) : pystr :=
  match s with
  | x :: s' => if Ascii.eqb x c then lstrip c s' else s
  | [] => []
  end.
Definition rstrip (c : ascii) (s : pystr) : pystr := rev (lstrip c (rev s)).

Definition all_char (c : ascii) (s : pystr) : bool := forallb (fun x => Ascii.eqb x c) s.

(** *** The builtin [int(s)] on a byte string: surrounding white space,
    an optional sign, then one or more decimal digits.  Anything else
    raises ValueError. *)
Definition is_space (c : ascii) : bool :=
  let n := nat_of_ascii c in
  (n =? 32)%nat || ((9 <=? n)%nat && (n <=? 13)%nat).
Definition is_digit (c : ascii) : bool :=
  let n := nat_of_ascii c in (48 <=? n)%nat && (n <=? 57)%nat.

Fixpoint lstrip_ws (s : pystr) : pystr :=
  match s with
  | x :: s' => if is_space x then lstrip_ws s' else s
  | [] => []
  end.
Definition strip_ws (s : pystr) : pystr := rev (lstrip_ws (rev (lstrip_ws s))).

Fixpoint digits_value (s : pystr) (acc : Z) : option Z :=
  match s with
  | [] => Some acc
  | c :: s' => if is_digit c
               then digits_value s' (10 * acc + Z.of_nat (nat_of_ascii c - 48))
               else None
  end.

Definition py_int (s : pystr) : result Z :=
  let t := strip_ws s in
  let '(sign, body) :=
    match t with
    | c :: r => if Ascii.eqb c "-" then (-1, r)
                else if Ascii.eqb c "+" then (1, r) else (1, t)
    | [] => (1, t)
    end in
  match body with
  | [] => Raise ValueError
  | _ :: _ => match digits_value body 0 with
              | Some n => Ok (sign * n)
              | None => Raise ValueError
              end
  end.

Definition int_ok (s : pystr) : bool :=
  match py_int s with Ok _ => true | Raise _ => false end.

(** *** [template.format(args)] for templates whose only fields are the
    automatically numbered [{}]: a field beyond the supplied arguments
    raises IndexError, surplus arguments are ignored. *)
Fixpoint format (t : pystr) (args : list pystr) : result pystr :=
  match t with
  | [] => Ok []
  | c :: rest =>
      match rest with
      | d :: t' =>
          if Ascii.eqb c "{" && Ascii.eqb d "}" then
            match args with
            | a :: args' => rbind (format t' args') (fun r => Ok (a ++ r))
            | [] => Raise IndexError
            end
          else rbind (format rest args) (fun r => Ok (c :: r))
      | [] => Ok [c]
      end
  end.

End PyStr.

(** ** [os.path] (posixpath) *)

Module OsPath.
Import PyStr.

(** [os.path.split(p)]. *)
Definition split (p : pystr) : pystr * pystr :=
  let i := rfind "/" p + 1 in
  let head := slice_to p i in
  let tail := slice_from p i in
  let head := if negb (bool_decide (head = [])) && negb (all_char "/" head)
              then rstrip "/" head else head in
  (head, tail).

(** [os.path.splitext(p)]: the extension starts at the last dot of the last
    path component, unless only dots precede it in that component. *)
Definition splitext (p : pystr) : pystr * pystr :=
  let sepIndex := rfind "/" p in
  let dotIndex := rfind "." p in
  if (sepIndex <? dotIndex)
     && existsb (fun c => negb (Ascii.eqb c ".")) (slice p (sepIndex + 1) dotIndex)
  then (slice_to p dotIndex, slice_from p dotIndex)
  else (p, []).

End OsPath.

Import PyStr.

(** ** The world: file system, output streams, backups and the pool *)

(** A path names a directory or a regular file with its content.  Paths are
    the strings the program passes to [os]; a directory holds the paths
    that extend it by a slash and more. *)
Inductive node : Type :=
  | Dir
  | File (content : pystr).

#[global] Instance node_eq_dec : EqDecision node.
Proof. solve_decision. Defined.

(** State of the attribute [onjobdone] of a task object. *)
Inductive hook : Type := HookMissing | HookFalsy | HookSet.

Record task : Type := mkTask {
  task_name : pystr;
  task_onjobdone : hook
}.

(** The measure whose emitter built a job; it selects the completion
    callback [aggLevs] of that emitter. *)
Inductive measure_kind : Type := Mod | Nmi | NmiS.

Record job : Type := mkJob {
  job_name : pystr;
  job_task : option task;          (* None: a false task object *)
  job_workdir : pystr;
  job_args : list pystr;
  job_timeout : Z;
  job_ondone : measure_kind;
  job_taskoutp : pystr;            (* params['taskoutp'] *)
  job_jobsuff : pystr;             (* params['jobsuff'] *)
  job_stderr : pystr                (* the standard output is always the pipe *)
}.

Record world : Type := mkWorld {
  fs : gmap pystr node;
  stdout : list pystr;
  stderr : list pystr;
  backups : list (gmap pystr node);
  submitted : list job;
  forwarded : list (pystr * pystr)   (* (job name, value) given to onjobdone *)
}.

Definition set_fs (f : gmap pystr node) (w : world) : world :=
  mkWorld f (stdout w) (stderr w) (backups w) (submitted w) (forwarded w).

(** *** State and exception monad *)

Definition M (A : Type) : Type := world -> world * result A.

Definition ret {A} (a : A) : M A := fun w => (w, Ok a).
Definition raise {A} (e : exn) : M A := fun w => (w, Raise e).
Definition bind {A B} (c : M A) (k : A -> M B) : M B :=
  fun w => match c w with
           | (w', Ok a) => k a w'
           | (w', Raise e) => (w', Raise e)
           end.
Definition lift {A} (r : result A) : M A := fun w => (w, r).

Notation "x <- c ;; k" := (bind c (fun x => k))
  (at level 100, c at next level, right associativity).
Notation "c ;;; k" := (bind c (fun _ => k))
  (at level 100, right associativity).

Definition when (b : bool) (c : M unit) : M unit := if b then c else ret tt.

Definition print_out (msg : pystr) : M unit :=
  fun w => (mkWorld (fs w) (stdout w ++ [msg]) (stderr w) (backups w)
                    (submitted w) (forwarded w), Ok tt).
Definition print_err (msg : pystr) : M unit :=
  fun w => (mkWorld (fs w) (stdout w) (stderr w ++ [msg]) (backups w)
                    (submitted w) (forwarded w), Ok tt).

(** [print(template.format(args))]: the message is built first, so a
    failing [format] prints nothing. *)
Definition print_out_fmt (t : pystr) (args : list pystr) : M unit :=
  msg <- lift (format t args) ;; print_out msg.
Definition print_err_fmt (t : pystr) (args : list pystr) : M unit :=
  msg <- lift (format t args) ;; print_err msg.

Fixpoint forM {A} (l : list A) (body : A -> M unit) : M unit :=
  match l with
  | [] => ret tt
  | a :: l' => body a ;;; forM l' body
  end.

Fixpoint foldM {A S} (l : list A) (body : S -> A -> M S) (s : S) : M S :=
  match l with
  | [] => ret s
  | a :: l' => s' <- body s a ;; foldM l' body s'
  end.

(** *** File system operations *)

Module Fs.

Definition exists_ (f : gmap pystr node) (p : pystr) : bool :=
  match f !! p with Some _ => true | None => false end.

Definition isdir (f : gmap pystr node) (p : pystr) : bool :=
  match f !! p with Some Dir => true | _ => false end.

(** [k] lies strictly below the directory path [p]. *)
Definition below (p k : pystr) : bool := startswith k (p ++ py "/").

Definition has_prefix (p k : pystr) : bool := startswith k p.

(** Proper ancestors of a path: its non-empty prefixes that end just before
    a slash. *)
Fixpoint ancestors_aux (pre rest : pystr) : list pystr :=
  match rest with
  | [] => []
  | c :: r =>
      (if Ascii.eqb c "/" && negb (bool_decide (pre = [])) then [pre] else [])
      ++ ancestors_aux (pre ++ [c]) r
  end.
Definition ancestors (p : pystr) : list pystr := ancestors_aux [] p.

(** [os.makedirs(p)]: creates [p] and its missing ancestors; fails when [p]
    exists or an ancestor is a regular file. *)
Definition makedirs (p : pystr) : M unit := fun w =>
  if exists_ (fs w) p then (w, Raise OSError)
  else if existsb (fun a => match fs w !! a with Some (File _) => true | _ => false end)
                  (ancestors p)
  then (w, Raise OSError)
  else (set_fs (foldr (fun a f => <[a := Dir]> f) (fs w) (p :: ancestors p)) w, Ok tt).

(** [shutil.rmtree(p)]: removes the directory and all below it; fails on
    anything but a directory. *)
Definition rmtree (p : pystr) : M unit := fun w =>
  match fs w !! p with
  | Some Dir =>
      (set_fs (filter (fun kv => below p kv.1 = false) (delete p (fs w))) w, Ok tt)
  | _ => (w, Raise OSError)
  end.

(** [os.remove(p)]: removes a regular file. *)
Definition remove (p : pystr) : M unit := fun w =>
  match fs w !! p with
  | Some (File _) => (set_fs (delete p (fs w)) w, Ok tt)
  | _ => (w, Raise OSError)
  end.

(** [open(p, 'a')]: creates an empty file when [p] is absent and its
    directory exists (a path without directory part lives in the working
    directory); fails on a directory or a missing directory. *)
Definition open_append (p : pystr) : M unit := fun w =>
  match fs w !! p with
  | Some (File _) => (w, Ok tt)
  | Some Dir => (w, Raise IOError)
  | None =>
      let parent := fst (OsPath.split p) in
      if bool_decide (parent = []) || isdir (fs w) parent
      then (set_fs (<[p := File []]> (fs w)) w, Ok tt)
      else (w, Raise IOError)
  end.

(** [os.path.getsize(p)] of a regular file. *)
Definition getsize (p : pystr) : M Z := fun w =>
  match fs w !! p with
  | Some (File c) => (w, Ok (len c))
  | _ => (w, Raise OSError)
  end.

(** [f.write(s)] on a file opened for appending. *)
Definition write (p s : pystr) : M unit := fun w =>
  match fs w !! p with
  | Some (File c) => (set_fs (<[p := File (c ++ s)]> (fs w)) w, Ok tt)
  | _ => (w, Raise IOError)
  end.

(** The paths [dir ++ name] present in the file system, for the names of
    one component that satisfy [sel]; [dir] ends with its slash.  This is
    what [glob.iglob] enumerates, in no particular order. *)
Definition listing (f : gmap pystr node) (dir : pystr) (sel : pystr -> bool) : list pystr :=
  List.filter
    (fun k => startswith k dir
              && (let name := drop (length dir) k in
                  negb (bool_decide (name = []))
                  && negb (bool_decide ("/"%char ∈ name))
                  && sel name))
    (map fst (map_to_list f)).

End Fs.

Definition gets {A} (f : world -> A) : M A := fun w => (w, Ok (f w)).

Definition assert (b : bool) : M unit :=
  if b then ret tt else raise AssertionError.

(** Truth value of a string: it is not empty. *)
Definition truthy (s : pystr) : bool := negb (bool_decide (s = [])).

(** ** Constants of [benchapps.py] *)

Definition _ALGSDIR : pystr := py "algorithms/".
Definition _RESDIR : pystr := py "results/".
Definition _CLSDIR : pystr := py "clusters/".
Definition _MODDIR : pystr := py "mod/".
Definition _NMIDIR : pystr := py "nmi/".
Definition _EXTERR : pystr := py ".err".
Definition _EXTEXECTIME : pystr := py ".rcp".
Definition _SEPINST : ascii := "^"%char.
Definition _SEPPARS : ascii := "!"%char.
Definition _SEPPATHID : ascii := "#"%char.
Definition _PATHID_FILE : ascii := "f"%char.

(** ** Helpers of [benchutils], which is not part of the sources at hand *)

(** Modelled from the spec: [dirempty] is missing; an existing empty
    directory is "nothing to preserve", any other existing path is not
    empty. *)
Definition dirempty (f : gmap pystr node) (p : pystr) : bool :=
  Fs.isdir f p
  && bool_decide (filter (fun kv => Fs.below p kv.1 = true) f = ∅).

(** Modelled from the spec: [backupPath] is missing; it moves the path
    aside to a backup of its own, never overwriting an earlier one, and
    leaves nothing behind.  With the expansion flag every path that starts
    with the base is moved, the sibling variants of the base included;
    without it the path and what lies below it.  When nothing is there, no
    backup is made. *)
Definition backupPath (basepath : pystr) (expand : bool) : M unit := fun w =>
  let covered k := if expand then Fs.has_prefix basepath k
                   else bool_decide (k = basepath) || Fs.below basepath k in
  let moved := filter (fun kv => covered kv.1 = true) (fs w) in
  if bool_decide (moved = ∅) then (w, Ok tt)
  else (mkWorld (filter (fun kv => covered kv.1 = false) (fs w))
                (stdout w) (stderr w) (backups w ++ [moved])
                (submitted w) (forwarded w), Ok tt).

(** ** [preparePath] *)

(** [min(l)]: ValueError on an empty list. *)
Definition py_min (l : list Z) : result Z :=
  match l with
  | [] => Raise ValueError
  | x :: r => Ok (foldr Z.min x r)
  end.

(** [l[i]] on a list, for a non-negative index. *)
Definition list_getitem {A} (l : list A) (i : nat) : result A :=
  match l !! i with Some a => Ok a | None => Raise IndexError end.

(** Lines 66-75: the task path with the suffix of its name cut at the
    separator of instances or parameters, the extension skipped. *)
Definition coalesced_name (taskpath : pystr) : result pystr :=
  let '(mainpath, name) := OsPath.split taskpath in
  if truthy name then
    let name := fst (OsPath.splitext name) in
    let pos := List.filter (fun x => 1 <=? x)
                 (map (fun c => rfind c name) [_SEPINST; _SEPPARS]) in
    rbind (match pos with
           | [] => Ok name
           | _ :: _ => rbind (py_min pos) (fun p => Ok (slice_to name p))
           end)
          (fun name => Ok (join (py "/") [mainpath; name]))
  else Ok mainpath.

(** Lines 77-86: the ending of an instance is cut when it is a number. *)
Definition drop_instance (mainpath : pystr) : result pystr :=
  let parts := rsplit1 _SEPINST mainpath in
  if (2 <=? length parts)%nat then
    match rbind (list_getitem parts 1) py_int with
    | Raise ValueError => Ok mainpath      (* it's not an instance name *)
    | Raise e => Raise e
    | Ok _ => list_getitem parts 0         (* instance name *)
    end
  else Ok mainpath.

(** Lines 66-86: the base path handed to the backup. *)
Definition backup_base (taskpath : pystr) : result pystr :=
  rbind (coalesced_name taskpath) drop_instance.

Definition preparePath (taskpath : pystr) : M unit :=
  present <- gets (fun w => Fs.exists_ (fs w) taskpath && negb (dirempty (fs w) taskpath)) ;;
  when present
    (mainpath <- lift (backup_base taskpath) ;; backupPath mainpath true) ;;;
  ex <- gets (fun w => Fs.exists_ (fs w) taskpath) ;;
  when (negb ex) (Fs.makedirs taskpath).

(** ** [evalGeneric] *)

(** Text of the ValueError raised by [int(s)]. *)
Definition int_error_text (s : pystr) : pystr :=
  py "invalid literal for int() with base 10: '" ++ s ++ py "'".

Definition warn_pathid : pystr :=
  py "WARNING, invalid pathid or file name uses pathid separator: {}. Exception: {}. The processing is continued assuming that pathid is not exist for this file.".

Definition warn_shuffle : pystr :=
  py "WARNING, invalid shuffling index or it represents a part of the filename: " ++ dquote ++ py "{}" ++ dquote
  ++ py ". Exception: {} The processing is continued assuming that sfhulling is not exist for this file.".

Definition warn_interrupted : pystr :=
  py "WARNING, " ++ dquote ++ py "{}" ++ dquote ++ py " job is interrupted by the exception: {}".

Definition warn_no_clusters : pystr :=
  py "WARNING, " ++ dquote ++ py "{}" ++ dquote ++ py " clusters " ++ dquote ++ py "{}" ++ dquote
  ++ py " do not exist to be evaluated".

(** Lines 139-160: the path-id filter.  [true]: the group goes on to the
    next check; [false]: [continue]. *)
Definition check_pathid (pathid clsname : pystr) : M bool :=
  if truthy pathid && negb (endswith clsname pathid) then ret false
  else if negb (truthy pathid) then
    let icnpid := rfind _SEPPATHID clsname in
    if negb (icnpid =? -1) && (icnpid + 1 <? len clsname) then
      c <- lift (getitem clsname (icnpid + 1)) ;;
      let icnpid := if Ascii.eqb c _PATHID_FILE then icnpid + 1 else icnpid in
      let seg := slice_from clsname (icnpid + 1) in
      match py_int seg with
      | Raise ValueError =>
          print_out_fmt warn_pathid [clsname; int_error_text seg] ;;; ret true
      | Raise e => raise e
      | Ok _ => ret false
      end
    else ret true
  else ret true.

(** Line 164: the group is a numbered instance of the base network. *)
Definition other_instance (taskcapt clsname : pystr) : result bool :=
  if len taskcapt <? len clsname then
    rbind (getitem clsname (len taskcapt)) (fun c => Ok (Ascii.eqb c _SEPINST))
  else Ok false.

(** Lines 168-179: the shuffle index, empty when there is none. *)
Definition decode_shuffle (clsname : pystr) (icnpid : Z) : M pystr :=
  let ish := rfind "." (slice_to clsname icnpid) + 1 in
  let shuffle := if ish =? 0 then [] else slice clsname ish icnpid in
  if truthy shuffle then
    match py_int shuffle with
    | Raise ValueError =>
        print_out_fmt warn_shuffle [clsname; int_error_text shuffle] ;;; ret []
    | Raise e => raise e
    | Ok _ => ret shuffle
    end
  else ret shuffle.

(** Line 183. *)
Definition logsbase_of (clsbase measdir : pystr) : pystr :=
  replace clsbase _CLSDIR measdir.

(** Lines 185-188. *)
Definition prepare_logs (tidy : bool) (logsbase : pystr) : M unit :=
  ex <- gets (fun w => Fs.exists_ (fs w) logsbase) ;;
  when (tidy && ex) (Fs.rmtree logsbase) ;;;
  ex <- gets (fun w => Fs.exists_ (fs w) logsbase) ;;
  when (tidy || negb ex) (Fs.makedirs logsbase).

(** Lines 191-195. *)
Definition taskoutp_of (logsbase shuffle pathid evalname : pystr) : pystr :=
  let taskoutp := if truthy shuffle then fst (OsPath.splitext logsbase) else logsbase in
  let taskoutp := if truthy shuffle && truthy pathid then taskoutp ++ pathid else taskoutp in
  join (py ".") [taskoutp; evalname].

(** Lines 196-197. *)
Definition tidy_taskoutp (tidy : bool) (taskoutp : pystr) : M unit :=
  ex <- gets (fun w => Fs.exists_ (fs w) taskoutp) ;;
  when (tidy && ex) (Fs.remove taskoutp).

(** The job builder [evalfile(jobs, cfile, jobname, task, taskoutp, rcpoutp,
    jobsuff, logsbase)]; it returns the extended list of jobs. *)
Definition emitter : Type :=
  list job -> pystr -> pystr -> task -> pystr -> pystr -> pystr -> pystr -> M (list job).

(** Local variables of [evalGeneric] that outlive an iteration of its loop;
    [clsname] is unbound until the first directory is seen. *)
Record locals : Type := mkLocals {
  jobs : list job;
  clsname_var : option pystr
}.

(** Lines 201-220: one file of a group. *)
Definition eval_file (evalname algname : pystr) (evalfile : emitter) (tsk : task)
    (clsname shuffle logsbase taskoutp rcpoutp : pystr)
    (jobs : list job) (cfile : pystr) : M (list job) :=
  isd <- gets (fun w => Fs.isdir (fs w) cfile) ;;
  if isd then ret jobs else
  let jbasename := fst (OsPath.splitext (snd (OsPath.split cfile))) in
  assert (truthy jbasename) ;;;
  let jscorr := find jbasename clsname in
  let '(jscorr, jbasename) :=
    if jscorr =? -1 then (0, join (py "_") [clsname; jbasename]) else (jscorr, jbasename) in
  let jobcapt := slice_from jbasename (jscorr + len clsname + 1) in
  let jobcapt := if truthy shuffle then join (py "_") [shuffle; jobcapt] else jobcapt in
  let jobname := join (py "_") [evalname; clsname; algname] in
  let logfilebase := join (py "/") [logsbase; jbasename] in
  evalfile jobs cfile jobname tsk taskoutp rcpoutp jobcapt logfilebase.

(** Lines 133-220: one path yielded by the outer glob. *)
Definition eval_group (evalname algname measdir : pystr) (evalfile : emitter)
    (pathid : pystr) (tidy : bool) (taskcapt rcpoutp : pystr) (tsk : task)
    (st : locals) (clsbase : pystr) : M locals :=
  isd <- gets (fun w => Fs.isdir (fs w) clsbase) ;;
  if negb isd then ret st else
  let clsname := snd (OsPath.split clsbase) in
  let st := mkLocals (jobs st) (Some clsname) in
  keep <- check_pathid pathid clsname ;;
  if negb keep then ret st else
  let icnpid := len clsname - len pathid in
  inst <- lift (other_instance taskcapt clsname) ;;
  if inst then ret st else
  shuffle <- decode_shuffle clsname icnpid ;;
  let logsbase := logsbase_of clsbase measdir in
  prepare_logs tidy logsbase ;;;
  let taskoutp := taskoutp_of logsbase shuffle pathid evalname in
  tidy_taskoutp tidy taskoutp ;;;
  files <- gets (fun w => Fs.listing (fs w) (clsbase ++ py "/")
                            (fun name => negb (startswith name (py ".")))) ;;
  jobs' <- foldM files
             (eval_file evalname algname evalfile tsk clsname shuffle logsbase taskoutp rcpoutp)
             (jobs st) ;;
  ret (mkLocals jobs' (Some clsname)).

(** [execpool.execute(job)] inside its [try]: the pool either takes the job
    or raises a StandardError, whose text [pool_error] gives. *)
Definition execute (pool_error : job -> option pystr) (j : job) : M unit :=
  match pool_error j with
  | None => fun w => (mkWorld (fs w) (stdout w) (stderr w) (backups w)
                              (submitted w ++ [j]) (forwarded w), Ok tt)
  | Some err => print_err_fmt warn_interrupted [job_name j; err]
  end.

(** Lines 221-231: all jobs are run after the scan; without jobs the
    warning names the algorithm and the group seen last. *)
Definition run_jobs (pool_error : job -> option pystr) (algname : pystr) (st : locals)
    : M unit :=
  match jobs st with
  | _ :: _ => forM (jobs st) (execute pool_error)
  | [] =>
      clsname <- lift (match clsname_var st with
                       | Some c => Ok c
                       | None => Raise NameError
                       end) ;;
      print_err_fmt warn_no_clusters [algname; clsname]
  end.

(** [task_hook] is the state of [onjobdone] on a task object built by the
    [Task] class of [benchcore].  The pool itself is a true object, and the
    [timeout] argument of the source is not used in its body: the emitters
    take the timeout from [evalAlgorithm]. *)
Definition evalGeneric (pool_error : job -> option pystr) (task_hook : hook)
    (evalname algname basefile measdir : pystr) (evalfile : emitter)
    (pathid : pystr) (tidy : bool) : M unit :=
  assert (truthy basefile && truthy evalname && truthy algname) ;;;
  sep <- lift (if truthy pathid
               then rbind (getitem pathid 0) (fun c => Ok (Ascii.eqb c _SEPPATHID))
               else Ok true) ;;
  assert sep ;;;
  let taskcapt := fst (OsPath.splitext (snd (OsPath.split basefile))) in
  let ishuf := snd (OsPath.splitext taskcapt) in
  assert (truthy taskcapt && negb (truthy ishuf)) ;;;
  let rcpoutp := _RESDIR ++ algname ++ py "/" ++ evalname ++ _EXTEXECTIME in
  let tsk := mkTask (join (py "_") [evalname; taskcapt; pathid; algname]) task_hook in
  candidates <- gets (fun w => Fs.listing (fs w) (_RESDIR ++ algname ++ py "/" ++ _CLSDIR)
                                 (fun name => startswith name taskcapt)) ;;
  st <- foldM candidates
          (eval_group evalname algname measdir evalfile pathid tidy taskcapt rcpoutp tsk)
          (mkLocals [] None) ;;
  run_jobs pool_error algname st.

(** ** [evalAlgorithm] and its job emitters *)

(** [modEvaluate]. *)
Definition modEvaluate (basefile : pystr) (timeout : Z) : emitter :=
  fun jobs cfile jobname tsk taskoutp rcpoutp jobsuff logsbase =>
    let args := [py "./hirecs"; py "-e=../" ++ cfile; py "../" ++ basefile] in
    ret (jobs ++ [mkJob jobname (Some tsk) _ALGSDIR args timeout Mod taskoutp jobsuff
                        (logsbase ++ _EXTERR)]).

(** [nmiEvaluate]; its extension of the library search path in the process
    environment does not touch the world modelled here. *)
Definition nmiEvaluate (basefile : pystr) (timeout : Z) : emitter :=
  fun jobs cfile jobname tsk taskoutp rcpoutp jobsuff logsbase =>
    let args := [py "../exectime"; py "-o=../" ++ rcpoutp; py "-n=" ++ jobname;
                 py "./gecmi"; py "../" ++ basefile; py "../" ++ cfile] in
    ret (jobs ++ [mkJob jobname (Some tsk) _ALGSDIR args timeout Nmi taskoutp jobsuff
                        (logsbase ++ _EXTERR)]).

(** [nmisEvaluate]. *)
Definition nmisEvaluate (basefile : pystr) (timeout : Z) : emitter :=
  fun jobs cfile jobname tsk taskoutp rcpoutp jobsuff logsbase =>
    let args := [py "../exectime"; py "-o=../" ++ rcpoutp; py "-n=" ++ jobname;
                 py "./onmi_sum"; py "../" ++ basefile; py "../" ++ cfile] in
    ret (jobs ++ [mkJob jobname (Some tsk) _ALGSDIR args timeout NmiS taskoutp jobsuff
                        (logsbase ++ _EXTERR)]).

Definition msg_evaluating : pystr :=
  py "Evaluating {} for " ++ dquote ++ py "{}" ++ dquote ++ py " on base of "
  ++ dquote ++ py "{}" ++ dquote ++ py "...".

(** The measure directory, the emitter and the [tidy] flag that
    [evalAlgorithm] hands to [evalGeneric] for a measure name. *)
Definition dispatch (measure basefile : pystr) (timeout : Z)
    : option (pystr * emitter * bool) :=
  if bool_decide (measure = py "mod") then Some (_MODDIR, modEvaluate basefile timeout, true)
  else if bool_decide (measure = py "nmi") then Some (_NMIDIR, nmiEvaluate basefile timeout, true)
  else if bool_decide (measure = py "nmi_s") then Some (_NMIDIR, nmisEvaluate basefile timeout, false)
  else None.

Definition evalAlgorithm (pool_error : job -> option pystr) (task_hook : hook)
    (algname basefile measure : pystr) (timeout : Z) (pathid : pystr) : M unit :=
  sep <- lift (if truthy pathid
               then rbind (getitem pathid 0) (fun c => Ok (Ascii.eqb c _SEPPATHID))
               else Ok true) ;;
  assert sep ;;;
  print_out_fmt msg_evaluating [measure; algname; basefile] ;;;
  match dispatch measure basefile timeout with
  | Some (measdir, evalfile, tidy) =>
      evalGeneric pool_error task_hook measure algname basefile measdir evalfile pathid tidy
  | None => raise ValueError
  end.

(** ** The completion callback [aggLevs] of a modularity job *)

Definition mod_targpref : pystr := py "mod: ".
Definition mod_header : pystr := py "# Q" ++ tab ++ py "[ShuffleIndex_]Level" ++ nl.
Definition mod_row_template : pystr := py "{}" ++ tab ++ py "{}" ++ nl.

Definition err_mod_format : pystr :=
  py "ERROR, job " ++ dquote ++ py "{}" ++ dquote
  ++ py " has invalid output format. Moularity value is not found in:" ++ nl ++ py "{}".

Definition warn_no_onjobdone : pystr :=
  py "WARNING, task " ++ dquote ++ py "{}" ++ dquote ++ py " of job " ++ dquote ++ py "{}" ++ dquote
  ++ py " has no defined onjobdone() to aggregate results:" ++ nl ++ py "{}".

Section Aggregation.

(** Floating-point values are kept abstract: [parseFloat] is the first
    component of the helper of [benchutils] (a value, or nothing when the
    text does not start with a number) and [float_str] is the text that
    [format] gives a value. *)
Variable value : Type.
Variable parseFloat : pystr -> option value.
Variable float_str : value -> pystr.

(** [job.task.onjobdone(job, mod)]: the hook of the pool's task receives
    the value. *)
Definition onjobdone (j : job) (m : value) : M unit := fun w =>
  (mkWorld (fs w) (stdout w) (stderr w) (backups w) (submitted w)
           (forwarded w ++ [(job_name j, float_str m)]), Ok tt).

(** [result] is the captured standard output, [job.proc.communicate()[0]]. *)
Definition aggLevs (j : job) (result : pystr) : M unit :=
  let mod_ := if startswith result mod_targpref
              then parseFloat (slice_from result (len mod_targpref))
              else None in
  match mod_ with
  | None => print_err_fmt err_mod_format [job_name j; result]
  | Some m =>
      let taskoutp := job_taskoutp j in
      Fs.open_append taskoutp ;;;
      size <- Fs.getsize taskoutp ;;
      when (size =? 0) (Fs.write taskoutp mod_header) ;;;
      row <- lift (format mod_row_template [float_str m; job_jobsuff j]) ;;
      Fs.write taskoutp row ;;;
      let fallback := print_err_fmt warn_no_onjobdone [job_name j; result] in
      match job_task j with
      | None => fallback
      | Some t =>
          match task_onjobdone t with
          | HookMissing => raise AttributeError
          | HookFalsy => fallback
          | HookSet => onjobdone j m
          end
      end
  end.

(** Completion callbacks run one after the other, each to its end; an
    exception of one does not keep the pool from running the next. *)
Fixpoint run_callbacks (done : list (job * pystr)) (w : world) : world :=
  match done with
  | [] => w
  | (j, out) :: rest => run_callbacks rest (fst (aggLevs j out w))
  end.

End Aggregation.

(** ** Notions of the specification, stated in its words *)



(** The lines of a text, each closed by a newline; an unclosed rest counts
    as a last line. *)
Fixpoint lines_aux (cur s : pystr) : list pystr :=
  match s with
  | [] => match cur with [] => [] | _ :: _ => [cur] end
  | c :: s' => if Ascii.eqb c (chr 10) then cur :: lines_aux [] s'
               else lines_aux (cur ++ [c]) s'
  end.
Definition lines (s : pystr) : list pystr := lines_aux [] s.

Definition mod_header_line : pystr := py "# Q" ++ tab ++ py "[ShuffleIndex_]Level".

(** The file at [p] can be opened for appending. *)
Definition appendable (f : gmap pystr node) (p : pystr) : bool :=
  match f !! p with
  | Some (File _) => true
  | Some Dir => false
  | None => let parent := fst (OsPath.split p) in
            bool_decide (parent = []) || Fs.isdir f parent
  end.

(** Content of the regular file at [p]; an absent file has none. *)
Definition content_of (f : gmap pystr node) (p : pystr) : pystr :=
  match f !! p with Some (File c) => c | _ => [] end.

(** ** Auxiliary notions for the statements *)

(** The texts of the two decoding warnings. *)
Definition pathid_warning (clsname err : pystr) : pystr :=
  py "WARNING, invalid pathid or file name uses pathid separator: " ++ clsname
  ++ py ". Exception: " ++ err
  ++ py ". The processing is continued assuming that pathid is not exist for this file.".

Definition shuffle_warning (clsname err : pystr) : pystr :=
  py "WARNING, invalid shuffling index or it represents a part of the filename: "
  ++ dquote ++ clsname ++ dquote ++ py ". Exception: " ++ err
  ++ py " The processing is continued assuming that sfhulling is not exist for this file.".

(** [w'] differs from [w] by the lines [msgs] printed on standard output. *)
Definition printed (msgs : list pystr) (w w' : world) : Prop :=
  w' = mkWorld (fs w) (stdout w ++ msgs) (stderr w) (backups w) (submitted w) (forwarded w).

(** ** Sample worlds *)

Definition world_of (entries : list (pystr * node)) : world :=
  mkWorld (list_to_map entries) [] [] [] [] [].

(** Algorithm [a] left a group [net2] and a first instance [net^1]. *)
Definition world_instances : world :=
  world_of [(py "results", Dir); (py "results/a", Dir); (py "results/a/clusters", Dir);
            (py "results/a/clusters/net2", Dir);
            (py "results/a/clusters/net2/l.cnl", File []);
            (py "results/a/clusters/net^1", Dir);
            (py "results/a/clusters/net^1/l.cnl", File [])].

(** The assertions at the head of [evalGeneric]. *)
Definition preconditions (evalname algname basefile pathid : pystr) : bool :=
  truthy basefile && truthy evalname && truthy algname
  && match pathid with [] => true | c :: _ => Ascii.eqb c _SEPPATHID end
  && (let taskcapt := fst (OsPath.splitext (snd (OsPath.split basefile))) in
      truthy taskcapt && negb (truthy (snd (OsPath.splitext taskcapt)))).

(** The warning of [evalGeneric] for an algorithm and a group. *)
Definition no_clusters_warning (algname clsname : pystr) : pystr :=
  py "WARNING, " ++ dquote ++ algname ++ dquote ++ py " clusters " ++ dquote ++ clsname
  ++ dquote ++ py " do not exist to be evaluated".

(** The paths the outer glob of [evalGeneric] yields. *)
Definition candidates (w : world) (algname basefile : pystr) : list pystr :=
  Fs.listing (fs w) (_RESDIR ++ algname ++ py "/" ++ _CLSDIR)
    (fun name => startswith name (fst (OsPath.splitext (snd (OsPath.split basefile))))).

(** What follows the path-id separator, without the optional file mark. *)
Definition strip_file_mark (rest : pystr) : pystr :=
  match rest with
  | c :: r => if Ascii.eqb c _PATHID_FILE then r else rest
  | [] => rest
  end.

(** A group directory [net^x^1] of algorithm [a], with one file. *)
Definition world_variant : world :=
  world_of [(py "results", Dir); (py "results/a", Dir); (py "results/a/clusters", Dir);
            (py "results/a/clusters/net^x^1", Dir);
            (py "results/a/clusters/net^x^1/l.cnl", File [])].

(** The characters of a text that [int] accepts. *)
Definition int_char (c : ascii) : bool :=
  is_space c || is_digit c || Ascii.eqb c "+" || Ascii.eqb c "-".

Definition not_dot (c : ascii) : bool := negb (Ascii.eqb c ".").

(** The error line of [aggLevs] for a job name and the raw output. *)
Definition mod_error_text (name out : pystr) : pystr :=
  py "ERROR, job " ++ dquote ++ name ++ dquote
  ++ py " has invalid output format. Moularity value is not found in:" ++ nl ++ out.

(** The task of the job has a true [onjobdone]. *)
Definition has_onjobdone (j : job) : bool :=
  match job_task j with
  | Some t => match task_onjobdone t with HookSet => true | _ => false end
  | None => false
  end.

(** The data row for a value text and a job suffix, and the same as a line. *)
Definition row_line (val jobsuff : pystr) : pystr := val ++ tab ++ jobsuff.
Definition row_text (val jobsuff : pystr) : pystr := row_line val jobsuff ++ nl.

(** A text free of the comment mark and of newlines, as the text of a
    number is. *)
Definition plain_text (s : pystr) : bool :=
  forallb (fun c => negb (Ascii.eqb c "#") && negb (Ascii.eqb c (chr 10))) s.

Definition single_line (s : pystr) : bool :=
  forallb (fun c => negb (Ascii.eqb c (chr 10))) s.

(** What [aggLevs] does after the row is written. *)
Definition after_row (j : job) (out : pystr) (forward : M unit) : M unit :=
  let fallback := print_err_fmt warn_no_onjobdone [job_name j; out] in
  match job_task j with
  | None => fallback
  | Some t =>
      match task_onjobdone t with
      | HookMissing => raise AttributeError
      | HookFalsy => fallback
      | HookSet => forward
      end
  end.

(** The accumulation file after one more row: the header comes first when
    the file was empty. *)
Definition with_row (old val jobsuff : pystr) : pystr :=
  old ++ (if truthy old then [] else mod_header) ++ row_text val jobsuff.

(** A finished job that records a value into the file [p], under a caption
    of one line. *)
Definition records {value} (parseFloat : pystr -> option value) (p : pystr)
    (d : job * pystr) : Prop :=
  job_taskoutp d.1 = p
  /\ startswith d.2 mod_targpref = true
  /\ is_Some (parseFloat (slice_from d.2 (len mod_targpref)))
  /\ single_line (job_jobsuff d.1) = true.

(** The line such a job adds. *)
Definition row_of {value} (parseFloat : pystr -> option value)
    (float_str : value -> pystr) (d : job * pystr) : pystr :=
  match parseFloat (slice_from d.2 (len mod_targpref)) with
  | Some m => row_line (float_str m) (job_jobsuff d.1)
  | None => []
  end.

(** A measure directory of algorithm [a] without results yet, and two jobs
    of the task of [net] that accumulate into one file. *)
Definition world_logs : world :=
  world_of [(py "results", Dir); (py "results/a", Dir); (py "results/a/mod", Dir)].

Definition sample_job (hk : hook) (jobsuff : pystr) : job :=
  mkJob (py "mod_net_a") (Some (mkTask (py "mod_net__a") hk)) _ALGSDIR
        [py "./hirecs"; py "-e=../results/a/clusters/net/net_1.cnl"; py "../nets/net.cnl"]
        60 Mod (py "results/a/mod/net.mod") jobsuff (py "results/a/mod/net/net_1.err").

(** A stand-in for the floating-point helpers: every text parses to the one
    value, printed as 0.5. *)
Definition parse_half (s : pystr) : option unit := Some tt.
Definition str_half (v : unit) : pystr := py "0.5".


(** No proper ancestor of the path is a regular file. *)
Definition no_file_above (f : gmap pystr node) (p : pystr) : Prop :=
  Forall (fun a => match f !! a with Some (File _) => False | _ => True end)
         (Fs.ancestors p).

(** Lines 185-197 in sequence, for the accumulation file [taskoutp]. *)
Definition prepare_outputs (tidy : bool) (logsbase taskoutp : pystr) : M unit :=
  prepare_logs tidy logsbase ;;; tidy_taskoutp tidy taskoutp.

(** A second run: algorithm [a] has a log subdirectory with an old log and
    an accumulation file with an old row. *)
Definition world_rerun : world :=
  world_of [(py "results", Dir); (py "results/a", Dir); (py "results/a/mod", Dir);
            (py "results/a/mod/net", Dir);
            (py "results/a/mod/net/net_1.err", File (py "old"));
            (py "results/a/mod/net.mod", File (py "0.1" ++ tab ++ py "1" ++ nl))].

(** First instance [net^1] of a network, with one file of clusters. *)
Definition world_first_run : world :=
  world_of [(py "results", Dir); (py "results/a", Dir); (py "results/a/clusters", Dir);
            (py "results/a/clusters/net^1", Dir);
            (py "results/a/clusters/net^1/net^1_1.cnl", File (py "1 2 3"))].

(** Closes a decidable goal on concrete data by evaluation. *)
Ltac decide_it := apply (bool_decide_unpack _); vm_compute; exact I.

(** The run of the docstring of [nmiEvaluate]: algorithm [scp] left the
    group [1K10!k3] with the level file [1K10!k3_1.cnl]. *)
Definition world_scp : world :=
  world_of [(py "results", Dir); (py "results/scp", Dir); (py "results/scp/clusters", Dir);
            (py "results/scp/clusters/1K10!k3", Dir);
            (py "results/scp/clusters/1K10!k3/1K10!k3_1.cnl", File (py "1 2 3"))].

(** Two shuffles of [net], and a group without files. *)
Definition world_shuffles : world :=
  world_of [(py "results", Dir); (py "results/a", Dir); (py "results/a/clusters", Dir);
            (py "results/a/clusters/net.1", Dir);
            (py "results/a/clusters/net.1/l0.cnl", File []);
            (py "results/a/clusters/net.2", Dir);
            (py "results/a/clusters/net.2/l0.cnl", File []);
            (py "results/a/clusters/void", Dir)].


(** Two shuffles of [net] with the path-id [#2]. *)
Definition world_shuffles_pathid : world :=
  world_of [(py "results", Dir); (py "results/a", Dir); (py "results/a/clusters", Dir);
            (py "results/a/clusters/net.1#2", Dir);
            (py "results/a/clusters/net.1#2/l0.cnl", File []);
            (py "results/a/clusters/net.2#2", Dir);
            (py "results/a/clusters/net.2#2/l0.cnl", File [])].

(** Two shuffles of [net] whose names end with [#1.5]. *)
Definition world_dotted_pathid : world :=
  world_of [(py "results", Dir); (py "results/a", Dir); (py "results/a/clusters", Dir);
            (py "results/a/clusters/net.1#1.5", Dir);
            (py "results/a/clusters/net.1#1.5/l0.cnl", File []);
            (py "results/a/clusters/net.2#1.5", Dir);
            (py "results/a/clusters/net.2#1.5/l0.cnl", File [])].


(** A task path without directory part: the instance [net^1] in the
    working directory, with one file of clusters. *)
Definition world_bare_task : world :=
  world_of [(py "net^1", Dir); (py "net^1/net^1_1.cnl", File (py "1 2 3"))].

(** * The rest of [benchapps.py] *)

(** ** The completion callbacks of the NMI jobs *)

Definition nmi_header : pystr := py "# NMI" ++ tab ++ py "[shuffle_]level" ++ nl.
Definition nmis_header : pystr := py "# NMI_S" ++ tab ++ py "[shuffle_]level" ++ nl.

Definition err_nmi_failed : pystr :=
  py "ERROR, nmi evaluation failed for the job " ++ dquote ++ py "{}" ++ dquote ++ py ": {}".
Definition err_nmis_failed : pystr :=
  py "ERROR, nmi_s evaluation failed for the job " ++ dquote ++ py "{}" ++ dquote ++ py ": {}".

Section NmiAggregation.

(** [py_float] is the builtin [float] on the captured output: a value, or
    nothing where it raises ValueError. *)
Variable value : Type.
Variable py_float : pystr -> option value.
Variable float_str : value -> pystr.

(** Lines 360-365 and 398-403: the row goes to the accumulation file, after
    the header when the file is empty. *)
Definition append_row (header : pystr) (j : job) (v : value) : M unit :=
  let taskoutp := job_taskoutp j in
  Fs.open_append taskoutp ;;;
  size <- Fs.getsize taskoutp ;;
  when (size =? 0) (Fs.write taskoutp header) ;;;
  row <- lift (format mod_row_template [float_str v; job_jobsuff j]) ;;
  Fs.write taskoutp row.

(** [aggLevs] of [nmiEvaluate]. *)
Definition nmi_aggLevs (j : job) (result : pystr) : M unit :=
  match py_float result with
  | None => print_err_fmt err_nmi_failed [job_name j; result]
  | Some nmi => append_row nmi_header j nmi
  end.

(** [aggLevs] of [nmisEvaluate]. *)
Definition nmis_aggLevs (j : job) (result : pystr) : M unit :=
  match py_float result with
  | None => print_err_fmt err_nmis_failed [job_name j; result]
  | Some nmi => append_row nmis_header j nmi
  end.

End NmiAggregation.

(** ** The executing functions *)

Definition _EXTLOG : pystr := py ".log".
Definition _EXTCLNODES : pystr := py ".cnl".
Definition devnull : pystr := py "/dev/null".

(** [str(n)] of an integer. *)
Definition py_str (n : Z) : pystr := py (NilZero.string_of_int (Z.to_int n)).

(** The completion callback of an executing job: [tidy] of [execScp],
    [postexec] of [execOslom2], [tidy] of [execGanxis]. *)
Inductive callback : Type := ScpTidy | OslomPostexec | GanxisTidy.

(** A job of an executing function: no task and no parameters, an optional
    callback, and the targets of the two output streams where given. *)
Record xjob : Type := mkXJob {
  x_name : pystr;
  x_workdir : pystr;
  x_args : list pystr;
  x_timeout : Z;
  x_ondone : option callback;
  x_stdout : option pystr;
  x_stderr : option pystr
}.

(** [os.rmdir(p)]: removes an empty directory. *)
Definition rmdir (p : pystr) : M unit := fun w =>
  match fs w !! p with
  | Some Dir =>
      if bool_decide (filter (fun kv => Fs.below p kv.1 = true) (fs w) = ∅)
      then (set_fs (delete p (fs w)) w, Ok tt)
      else (w, Raise OSError)
  | _ => (w, Raise OSError)
  end.

Section Executing.

(** [PYEXEC] is the path of the running interpreter.  The pool either takes
    a job or raises; the executing functions do not catch that.  The jobs
    the pool holds are passed along explicitly. *)
Variable PYEXEC : pystr.
Variable pool_error : xjob -> option exn.

Definition launch (pool : list xjob) (j : xjob) : M (list xjob) :=
  match pool_error j with
  | None => ret (pool ++ [j])
  | Some e => raise e
  end.

(** The assertion that opens every executing function; [asym] is None or a
    boolean by its type, and the pool is a true object. *)
Definition exec_assert (netfile : pystr) (timeout : Z) : M unit :=
  assert (truthy netfile && (0 <=? timeout + 0)).

(** A false [asym]: None or False. *)
Definition not_asym (asym : option bool) : bool :=
  match asym with Some true => false | _ => true end.

Definition exectime_args (algname name : pystr) : list pystr :=
  [py "../exectime"; py "-o=../" ++ _RESDIR ++ algname ++ _EXTEXECTIME; py "-n=" ++ name].

Definition execLouvain_ig (pool : list xjob) (netfile : pystr) (asym : option bool)
    (timeout : Z) (pathid : pystr) : M (list xjob * Z) :=
  exec_assert netfile timeout ;;;
  let '(netfile, netext) := OsPath.splitext netfile in
  let task := snd (OsPath.split netfile) in
  assert (truthy task) ;;;
  let algname := py "louvain_igraph" in
  let taskpath := _RESDIR ++ algname ++ py "/" ++ _CLSDIR ++ task ++ pathid in
  preparePath taskpath ;;;
  let args := exectime_args algname (task ++ pathid)
              ++ [py "-s=/etime_" ++ algname; py "python"; py "./" ++ algname ++ py ".py";
                  py "-i=../" ++ netfile ++ netext; py "-ol=../" ++ taskpath ++ _EXTCLNODES] in
  pool <- launch pool (mkXJob (join (py "_") [task; algname]) _ALGSDIR args timeout None
                              (Some devnull) (Some (taskpath ++ _EXTLOG))) ;;
  ret (pool, 1).

(** The body of the loop of [execScp] for one clique size. *)
Definition execScp_step (netfile task : pystr) (timeout : Z) (pathid : pystr)
    (pool : list xjob) (k : Z) : M (list xjob) :=
  let algname := py "scp" in
  let kstr := py_str k in
  let kstrex := py "k" ++ kstr in
  let '(taskbasex, taskshuf) := OsPath.splitext task in
  let ktask := taskbasex ++ [_SEPPARS] ++ kstrex ++ taskshuf in
  let taskpath := _RESDIR ++ algname ++ py "/" ++ _CLSDIR ++ ktask ++ pathid in
  preparePath taskpath ;;;
  let steps := py "10" in
  let resbase := py "../" ++ taskpath ++ py "/" ++ ktask in
  let args := exectime_args algname (ktask ++ pathid)
              ++ [PYEXEC; py "./" ++ algname ++ py ".py"; py "../" ++ netfile; kstr; steps;
                  resbase ++ _EXTCLNODES] in
  launch pool (mkXJob (join (py "_") [ktask; algname]) _ALGSDIR args timeout (Some ScpTidy)
                      None (Some (taskpath ++ _EXTLOG))).

Definition execScp (pool : list xjob) (netfile : pystr) (asym : option bool)
    (timeout : Z) (pathid : pystr) : M (list xjob * Z) :=
  exec_assert netfile timeout ;;;
  let '(task, netext) := OsPath.splitext netfile in
  let task := snd (OsPath.split task) in
  assert (truthy task) ;;;
  let kmin := 3 in
  let kmax := 8 in
  pool <- foldM (seqZ kmin (kmax + 1 - kmin)) (execScp_step netfile task timeout pathid) pool ;;
  ret (pool, kmax + 1 - kmin).

(** Line 610 of the callback [tidy] of [execScp]: the directory of the last
    argument of the job, without its first three characters. *)
Definition scp_tidy_path (j : xjob) : result pystr :=
  rbind (match last (x_args j) with
         | Some a => Ok a
         | None => Raise IndexError
         end)
        (fun a => Ok (slice_from (fst (OsPath.split a)) 3)).

(** The callback [tidy] of [execScp]: the empty directory of the results is
    removed.  The test [dirempty] of [benchutils] is not part of the sources
    at hand; the callback takes it as [is_empty]. *)
Definition scp_tidy (is_empty : gmap pystr node -> pystr -> bool) (j : xjob) : M unit :=
  path <- lift (scp_tidy_path j) ;;
  empty <- gets (fun w => is_empty (fs w) path) ;;
  when empty (rmdir path).

Definition execRandcommuns (pool : list xjob) (netfile : pystr) (asym : option bool)
    (timeout : Z) (pathid : pystr) (instances : Z) : M (list xjob * Z) :=
  exec_assert netfile timeout ;;;
  let '(netfile, netext) := OsPath.splitext netfile in
  let task := snd (OsPath.split netfile) in
  assert (truthy task) ;;;
  let algname := py "randcommuns" in
  let taskpath := _RESDIR ++ algname ++ py "/" ++ _CLSDIR ++ task ++ pathid in
  preparePath taskpath ;;;
  let args := exectime_args algname (task ++ pathid)
              ++ [py "-s=/etime_" ++ algname; PYEXEC; py "./" ++ algname ++ py ".py";
                  py "-g=../" ++ netfile ++ _EXTCLNODES; py "-i=../" ++ netfile ++ netext;
                  py "-o=../" ++ taskpath; py "-n=" ++ py_str instances] in
  pool <- launch pool (mkXJob (join (py "_") [task; algname]) _ALGSDIR args timeout None
                              (Some devnull) (Some (taskpath ++ _EXTLOG))) ;;
  ret (pool, 1).

(** The three variants of Hirecs that write clusters differ in the name of
    the algorithm and in the option of the output file. *)
Definition execHirecs (pool : list xjob) (netfile : pystr) (asym : option bool)
    (timeout : Z) (pathid : pystr) : M (list xjob * Z) :=
  exec_assert netfile timeout ;;;
  let netfile := fst (OsPath.splitext netfile) in
  let task := snd (OsPath.split netfile) in
  assert (truthy task) ;;;
  let netfile := netfile ++ py ".hig" in
  let algname := py "hirecs" in
  let taskpath := _RESDIR ++ algname ++ py "/" ++ _CLSDIR ++ task ++ pathid in
  preparePath taskpath ;;;
  let args := exectime_args algname (task ++ pathid)
              ++ [py "-s=/etime_" ++ algname; py "./hirecs"; py "-oc";
                  py "-cls=../" ++ taskpath ++ py "/" ++ task ++ py "_" ++ algname ++ _EXTCLNODES;
                  py "../" ++ netfile] in
  pool <- launch pool (mkXJob (join (py "_") [task; algname]) _ALGSDIR args timeout None
                              (Some devnull) (Some (taskpath ++ _EXTLOG))) ;;
  ret (pool, 1).

Definition execHirecsOtl (pool : list xjob) (netfile : pystr) (asym : option bool)
    (timeout : Z) (pathid : pystr) : M (list xjob * Z) :=
  exec_assert netfile timeout ;;;
  let netfile := fst (OsPath.splitext netfile) in
  let task := snd (OsPath.split netfile) in
  assert (truthy task) ;;;
  let netfile := netfile ++ py ".hig" in
  let algname := py "hirecsotl" in
  let taskpath := _RESDIR ++ algname ++ py "/" ++ _CLSDIR ++ task ++ pathid in
  preparePath taskpath ;;;
  let args := exectime_args algname (task ++ pathid)
              ++ [py "-s=/etime_" ++ algname; py "./hirecs"; py "-oc";
                  py "-cols=../" ++ taskpath ++ py "/" ++ task ++ py "_" ++ algname ++ _EXTCLNODES;
                  py "../" ++ netfile] in
  pool <- launch pool (mkXJob (join (py "_") [task; algname]) _ALGSDIR args timeout None
                              (Some devnull) (Some (taskpath ++ _EXTLOG))) ;;
  ret (pool, 1).

Definition execHirecsAhOtl (pool : list xjob) (netfile : pystr) (asym : option bool)
    (timeout : Z) (pathid : pystr) : M (list xjob * Z) :=
  exec_assert netfile timeout ;;;
  let netfile := fst (OsPath.splitext netfile) in
  let task := snd (OsPath.split netfile) in
  assert (truthy task) ;;;
  let netfile := netfile ++ py ".hig" in
  let algname := py "hirecsahotl" in
  let taskpath := _RESDIR ++ algname ++ py "/" ++ _CLSDIR ++ task ++ pathid in
  preparePath taskpath ;;;
  let args := exectime_args algname (task ++ pathid)
              ++ [py "-s=/etime_" ++ algname; py "./hirecs"; py "-oc";
                  py "-coas=../" ++ taskpath ++ py "/" ++ task ++ py "_" ++ algname ++ _EXTCLNODES;
                  py "../" ++ netfile] in
  pool <- launch pool (mkXJob (join (py "_") [task; algname]) _ALGSDIR args timeout None
                              (Some devnull) (Some (taskpath ++ _EXTLOG))) ;;
  ret (pool, 1).

(** The folded hierarchy goes to the standard output, kept beside the task
    path. *)
Definition execHirecsNounwrap (pool : list xjob) (netfile : pystr) (asym : option bool)
    (timeout : Z) (pathid : pystr) : M (list xjob * Z) :=
  exec_assert netfile timeout ;;;
  let netfile := fst (OsPath.splitext netfile) in
  let task := snd (OsPath.split netfile) in
  assert (truthy task) ;;;
  let netfile := netfile ++ py ".hig" in
  let algname := py "hirecshfold" in
  let taskpath := _RESDIR ++ algname ++ py "/" ++ _CLSDIR ++ task ++ pathid in
  preparePath taskpath ;;;
  let args := exectime_args algname (task ++ pathid)
              ++ [py "-s=/etime_" ++ algname; py "./hirecs"; py "-oc"; py "../" ++ netfile] in
  pool <- launch pool (mkXJob (join (py "_") [task; algname]) _ALGSDIR args timeout None
                              (Some (taskpath ++ py ".hoc")) (Some (taskpath ++ _EXTLOG))) ;;
  ret (pool, 1).

(** [execOslom2]; the body of its callback [postexec], which copies and
    renames the files the tool leaves beside the network, is not modelled. *)
Definition execOslom2 (pool : list xjob) (netfile : pystr) (asym : option bool)
    (timeout : Z) (pathid : pystr) : M (list xjob * Z) :=
  exec_assert netfile timeout ;;;
  let task := snd (OsPath.split netfile) in
  let '(task, netext) := OsPath.splitext task in
  assert (truthy task) ;;;
  let algname := py "oslom2" in
  let taskpath := _RESDIR ++ algname ++ py "/" ++ _CLSDIR ++ task ++ pathid in
  let args := exectime_args algname (task ++ pathid)
              ++ [py "-s=/etime_" ++ algname;
                  if not_asym asym then py "./oslom_undir" else py "./oslom_dir";
                  py "-f"; py "../" ++ netfile; py "-w"] in
  preparePath taskpath ;;;
  pool <- launch pool (mkXJob (join (py "_") [task; algname]) _ALGSDIR args timeout
                              (Some OslomPostexec)
                              (Some (taskpath ++ _EXTLOG)) (Some (taskpath ++ _EXTERR))) ;;
  ret (pool, 1).

(** [execGanxis]; the argument list is extended for a symmetric network. *)
Definition execGanxis (pool : list xjob) (netfile : pystr) (asym : option bool)
    (timeout : Z) (pathid : pystr) : M (list xjob * Z) :=
  exec_assert netfile timeout ;;;
  let task := fst (OsPath.splitext (snd (OsPath.split netfile))) in
  assert (truthy task) ;;;
  let algname := py "ganxis" in
  let taskpath := _RESDIR ++ algname ++ py "/" ++ _CLSDIR ++ task ++ pathid in
  let args := exectime_args algname (task ++ pathid)
              ++ [py "-s=/etime_" ++ algname; py "java"; py "-jar"; py "./GANXiSw.jar";
                  py "-i"; py "../" ++ netfile; py "-d"; py "../" ++ taskpath] in
  let args := if not_asym asym then args ++ [py "-Sym 1"] else args in
  preparePath taskpath ;;;
  pool <- launch pool (mkXJob (join (py "_") [task; algname]) _ALGSDIR args timeout
                              (Some GanxisTidy)
                              (Some (taskpath ++ _EXTLOG)) (Some (taskpath ++ _EXTERR))) ;;
  ret (pool, 1).

End Executing.

(** ** Auxiliary notions for the properties of the rest of the code *)

(** The name of the task of a network or base file, as [evalGeneric],
    [execOslom2] and [execGanxis] compute it: the last component without
    its extension. *)
Definition task_caption (netfile : pystr) : pystr :=
  fst (OsPath.splitext (snd (OsPath.split netfile))).

(** A text free of the characters [cs]. *)
Definition free_of (cs s : pystr) : bool :=
  forallb (fun c => negb (bool_decide (c ∈ cs))) s.

(** An optional part of a name, behind its separator. *)
Definition opt_part (sep : ascii) (o : option pystr) : pystr :=
  match o with Some s => sep :: s | None => [] end.

(** The names of the results of one network: the base name, then
    optionally an instance, parameters and a last extension (a shuffle, a
    path-id). *)
Definition variant_name (base : pystr) (inst params ext : option pystr) : pystr :=
  base ++ opt_part _SEPINST inst ++ opt_part _SEPPARS params ++ opt_part "." ext.

Definition free_part (cs : pystr) (o : option pystr) : bool :=
  match o with Some s => free_of cs s | None => true end.

(** [no_file_above] as a test. *)
Definition no_file_aboveb (f : gmap pystr node) (p : pystr) : bool :=
  forallb (fun a => match f !! a with Some (File _) => false | _ => true end)
          (Fs.ancestors p).

(** The warning of [evalGeneric] for a job the pool refused. *)
Definition interrupted_warning (name err : pystr) : pystr :=
  py "WARNING, " ++ dquote ++ name ++ dquote
  ++ py " job is interrupted by the exception: " ++ err.

(** Of a list of jobs, those the pool takes, and the warnings for the
    others. *)
Definition accepted (pool_error : job -> option pystr) (js : list job) : list job :=
  List.filter (fun j => match pool_error j with None => true | Some _ => false end) js.

Definition refusals (pool_error : job -> option pystr) (js : list job) : list pystr :=
  omap (fun j => match pool_error j with
                 | Some err => Some (interrupted_warning (job_name j) err)
                 | None => None
                 end) js.

(** The outcome of a computation in a world: a result that satisfies [Q]
    together with the world it leaves, or an exception that satisfies [E]. *)
Definition outcome {A} (c : M A) (w : world) (Q : world -> A -> Prop) (E : exn -> Prop)
    : Prop :=
  match c w with
  | (w', Ok a) => Q w' a
  | (_, Raise e) => E e
  end.

(** A job builder that adds one job to the list and does nothing else, as
    the three builders of [evalAlgorithm] do. *)
Definition appending (evalfile : emitter) : Prop :=
  forall jobs cfile jobname tsk taskoutp rcpoutp jobsuff logsbase w,
    exists j, evalfile jobs cfile jobname tsk taskoutp rcpoutp jobsuff logsbase w
              = (w, Ok (jobs ++ [j])).

(** The first line of the output of [evalAlgorithm]. *)
Definition evaluating_line (measure algname basefile : pystr) : pystr :=
  py "Evaluating " ++ measure ++ py " for " ++ dquote ++ algname ++ dquote
  ++ py " on base of " ++ dquote ++ basefile ++ dquote ++ py "...".

(** An accumulation file after one more row, under a given header. *)
Definition with_header_row (header old val jobsuff : pystr) : pystr :=
  old ++ (if truthy old then [] else header) ++ row_text val jobsuff.

(** The error lines of the NMI callbacks. *)
Definition nmi_error_text (name out : pystr) : pystr :=
  py "ERROR, nmi evaluation failed for the job " ++ dquote ++ name ++ dquote ++ py ": " ++ out.
Definition nmis_error_text (name out : pystr) : pystr :=
  py "ERROR, nmi_s evaluation failed for the job " ++ dquote ++ name ++ dquote ++ py ": " ++ out.

(** A stand-in for [float]: every text but the empty one is a number. *)
Definition float_half (s : pystr) : option unit :=
  if truthy s then Some tt else None.

(** An NMI job of the task of [net]. *)
Definition sample_nmi_job (kind : measure_kind) (taskoutp jobsuff : pystr) : job :=
  mkJob (py "nmi_net_a") (Some (mkTask (py "nmi_net__a") HookFalsy)) _ALGSDIR
        [py "../exectime"; py "-o=../results/a/nmi.rcp"; py "-n=nmi_net_a"; py "./gecmi";
         py "../nets/net.cnl"; py "../results/a/clusters/net/net_1.cnl"]
        60 kind taskoutp jobsuff (py "results/a/nmi/net/net_1.err").

Definition world_nmi : world :=
  world_of [(py "results", Dir); (py "results/a", Dir); (py "results/a/nmi", Dir)].

(** The directory of the results of an algorithm for a network and a
    path-id. *)
Definition results_dir (algname netfile pathid : pystr) : pystr :=
  _RESDIR ++ algname ++ py "/" ++ _CLSDIR ++ task_caption netfile ++ pathid.

(** The executing functions by the name of their algorithm, as the
    benchmark looks them up; [instances] is what [execRandcommuns] gets. *)
Definition executor : Type :=
  list xjob -> pystr -> option bool -> Z -> pystr -> M (list xjob * Z).

Definition single_executors (PYEXEC : pystr) (pool_error : xjob -> option exn)
    (instances : Z) : list (pystr * executor) :=
  [(py "louvain_igraph", execLouvain_ig pool_error);
   (py "randcommuns",
    fun pool netfile asym timeout pathid =>
      execRandcommuns PYEXEC pool_error pool netfile asym timeout pathid instances);
   (py "hirecs", execHirecs pool_error);
   (py "hirecsotl", execHirecsOtl pool_error);
   (py "hirecsahotl", execHirecsAhOtl pool_error);
   (py "hirecshfold", execHirecsNounwrap pool_error);
   (py "oslom2", execOslom2 pool_error);
   (py "ganxis", execGanxis pool_error)].

Definition executors (PYEXEC : pystr) (pool_error : xjob -> option exn)
    (instances : Z) : list (pystr * executor) :=
  (py "scp", execScp PYEXEC pool_error) :: single_executors PYEXEC pool_error instances.

(** What the pool does with one job of an executing function that launches
    one job. *)
Definition submit_one (pool_error : xjob -> option exn) (pool : list xjob) (j : xjob)
    : M (list xjob * Z) :=
  match pool_error j with
  | None => ret (pool ++ [j], 1)
  | Some e => raise e
  end.

(** A world with the networks only, before any algorithm ran. *)
Definition world_nets : world :=
  world_of [(py "nets", Dir); (py "nets/net.nsa", File (py "1 2"))].

(** The task of [execScp] for a clique size: the parameter goes between
    the name of the task and its extension, the mark of a shuffle. *)
Definition scp_task (task : pystr) (k : Z) : pystr :=
  fst (OsPath.splitext task) ++ [_SEPPARS] ++ (py "k" ++ py_str k)
  ++ snd (OsPath.splitext task).

Definition scp_dir (netfile pathid : pystr) (k : Z) : pystr :=
  _RESDIR ++ py "scp" ++ py "/" ++ _CLSDIR ++ scp_task (task_caption netfile) k ++ pathid.

(** The clique sizes of [execScp]. *)
Definition scp_sizes : list Z := seqZ 3 6.

(** A computation that, whatever its outcome, leaves the node of every
    path in [K] as it was. *)
Definition keeps {A} (c : M A) (K : pystr -> Prop) : Prop :=
  forall w k, K k -> fs (fst (c w)) !! k = fs w !! k.

(** The paths of the clusters an algorithm produced. *)
Definition clusters_of (algname : pystr) (k : pystr) : Prop :=
  Fs.has_prefix (_RESDIR ++ algname ++ py "/" ++ _CLSDIR) k = true.

(** Lines 183-220 for a group that passed the filters, whose shuffle index
    is decoded and whose accumulation file is [taskoutp]: the outputs are
    prepared, then one job is built for every file of the group. *)
Definition group_jobs (evalname algname : pystr) (evalfile : emitter) (tidy : bool)
    (rcpoutp : pystr) (tsk : task) (clsbase clsname shuffle logsbase taskoutp : pystr)
    (js : list job) : M locals :=
  prepare_outputs tidy logsbase taskoutp ;;;
  files <- gets (fun w => Fs.listing (fs w) (clsbase ++ py "/")
                            (fun name => negb (startswith name (py ".")))) ;;
  jobs' <- foldM files
             (eval_file evalname algname evalfile tsk clsname shuffle logsbase taskoutp rcpoutp)
             js ;;
  ret (mkLocals jobs' (Some clsname)).

(** * Sample runs of the model *)

Example split_ex : OsPath.split (py "results/scp/clusters/1K10!k3") = (py "results/scp/clusters", py "1K10!k3").
Proof. vm_compute. reflexivity. Qed.
Example splitext_ex : OsPath.splitext (py "a/b.c/net.1#2") = (py "a/b.c/net", py ".1#2").
Proof. vm_compute. reflexivity. Qed.
Example splitext_dots : OsPath.splitext (py "a/...cnl") = (py "a/...cnl", []).
Proof. vm_compute. reflexivity. Qed.
Example int_ex : py_int (py " +12 ") = Ok 12 /\ py_int (py "abc") = Raise ValueError /\ py_int [] = Raise ValueError.
Proof. vm_compute. auto. Qed.
Example format_ex : format (py "a {} b {} c {}") [py "x"; py "y"] = Raise IndexError.
Proof. vm_compute. reflexivity. Qed.
Example replace_ex : replace (py "results/a/clusters/net") (py "clusters/") (py "mod/") = py "results/a/mod/net".
Proof. vm_compute. reflexivity. Qed.
Example rsplit_ex : rsplit1 "^" (py "d/net^2") = [py "d/net"; py "2"].
Proof. vm_compute. reflexivity. Qed.

Example evalGeneric_docstring_run :
  map (fun j => (job_taskoutp j, job_jobsuff j, job_stderr j))
      (submitted (fst (evalGeneric (fun _ => None) HookSet (py "nmi") (py "scp")
                         (py "syntnets/networks/1K10/1K10.cnl") _NMIDIR
                         (nmiEvaluate (py "syntnets/networks/1K10/1K10.cnl") 60) [] true
                         world_scp)))
  = [(py "results/scp/nmi/1K10!k3.nmi", py "1", py "results/scp/nmi/1K10!k3/1K10!k3_1.err")].
Proof. vm_compute. reflexivity. Qed.

Example evalGeneric_shuffles_share_file :
  map (fun j => (job_name j, job_taskoutp j))
      (submitted (fst (evalGeneric (fun _ => None) HookSet (py "mod") (py "a")
                         (py "nets/net.cnl") _MODDIR (modEvaluate (py "nets/net.cnl") 60) [] true
                         world_shuffles)))
  = [(py "mod_net.2_a", py "results/a/mod/net.mod");
     (py "mod_net.1_a", py "results/a/mod/net.mod")].
Proof. vm_compute. reflexivity. Qed.

(** A directory was seen but holds no file: the warning names the algorithm
    and that group, and the call returns. *)
Example evalGeneric_no_jobs_warns :
  let r := evalGeneric (fun _ => None) HookSet (py "mod") (py "a") (py "nets/void.cnl") _MODDIR
             (modEvaluate (py "nets/void.cnl") 60) [] true world_shuffles in
  snd r = Ok tt
  /\ submitted (fst r) = []
  /\ stderr (fst r)
     = [py "WARNING, " ++ dquote ++ py "a" ++ dquote ++ py " clusters " ++ dquote ++ py "void"
        ++ dquote ++ py " do not exist to be evaluated"].
Proof. vm_compute. auto. Qed.

(** * Facts about the string operations *)

Section StringFacts.

Implicit Types (s t p b r : pystr) (c : ascii).

Lemma len_app s t : len (s ++ t) = len s + len t.
Proof. unfold len. rewrite length_app. lia. Qed.

Lemma len_nonneg s : 0 <= len s.
Proof. unfold len. lia. Qed.

Lemma len_cons c s : len (c :: s) = 1 + len s.
Proof. unfold len. simpl. lia. Qed.

Lemma len_nil : len [] = 0.
Proof. reflexivity. Qed.

Lemma rfind_from_notin c s : forall i acc, c ∉ s -> rfind_from c s i acc = acc.
Proof.
  induction s as [|x s IH]; intros i acc Hn; simpl; [reflexivity|].
  apply not_elem_of_cons in Hn as [Hx Hs].
  destruct (Ascii.eqb x c) eqn:E.
  - apply Ascii.eqb_eq in E. congruence.
  - apply IH, Hs.
Qed.

Lemma rfind_from_last c r b : forall i acc,
  c ∉ r -> rfind_from c (b ++ c :: r) i acc = i + len b.
Proof.
  induction b as [|x b IH]; intros i acc Hn; simpl.
  - rewrite Ascii.eqb_refl, rfind_from_notin by assumption. rewrite len_nil. lia.
  - rewrite IH by assumption. rewrite len_cons. lia.
Qed.

Lemma last_occurrence c s : c ∉ s \/ exists b r, s = b ++ c :: r /\ c ∉ r.
Proof.
  induction s as [|x s IH].
  - left. apply not_elem_of_nil.
  - destruct IH as [Hn | (b & r & -> & Hr)].
    + destruct (decide (x = c)) as [->|Hx].
      * right. exists [], s. auto.
      * left. apply not_elem_of_cons. auto.
    + right. exists (x :: b), r. auto.
Qed.

Lemma rfind_notin c s : c ∉ s -> rfind c s = -1.
Proof. apply rfind_from_notin. Qed.

Lemma rfind_last c b r : c ∉ r -> rfind c (b ++ c :: r) = len b.
Proof. intros H. unfold rfind. rewrite rfind_from_last by assumption. lia. Qed.

Lemma rfind_range c s : -1 <= rfind c s < len s.
Proof.
  destruct (last_occurrence c s) as [Hn | (b & r & -> & Hr)].
  - rewrite rfind_notin by assumption. pose proof (len_nonneg s). lia.
  - rewrite rfind_last by assumption. rewrite len_app, len_cons.
    pose proof (len_nonneg b). pose proof (len_nonneg r). lia.
Qed.

Lemma bound_in s i : 0 <= i <= len s -> bound s i = Z.to_nat i.
Proof.
  intros H. unfold bound.
  destruct (i <? 0) eqn:E; [apply Z.ltb_lt in E; lia|].
  f_equal. lia.
Qed.

Lemma bound_len_app b r : bound (b ++ r) (len b) = length b.
Proof.
  rewrite bound_in.
  - unfold len. apply Nat2Z.id.
  - rewrite len_app. pose proof (len_nonneg b). pose proof (len_nonneg r). lia.
Qed.

Lemma slice_to_app b r : slice_to (b ++ r) (len b) = b.
Proof. unfold slice_to. rewrite bound_len_app. apply take_app_length. Qed.

Lemma slice_from_app b r : slice_from (b ++ r) (len b) = r.
Proof. unfold slice_from. rewrite bound_len_app. apply drop_app_length. Qed.

Lemma slice_to_full s : slice_to s (len s) = s.
Proof.
  rewrite <- (app_nil_r s) at 1. apply slice_to_app.
Qed.

Lemma slice_app a b t : slice (a ++ b ++ t) (len a) (len a + len b) = b.
Proof.
  unfold slice. rewrite bound_len_app.
  replace (len a + len b) with (len (a ++ b)) by apply len_app.
  rewrite app_assoc, bound_len_app, <- app_assoc.
  rewrite drop_app_length, length_app.
  replace (length a + length b - length a)%nat with (length b) by lia.
  apply take_app_length.
Qed.

Lemma startswith_spec s p : startswith s p = true <-> exists r, s = p ++ r.
Proof.
  revert s. induction p as [|a p IH]; intros s; simpl.
  - split; [exists s; reflexivity | reflexivity].
  - destruct s as [|x s].
    + split; [discriminate | intros [r Hr]; discriminate].
    + rewrite andb_true_iff, Ascii.eqb_eq, IH. split.
      * intros [-> [r ->]]. exists r. reflexivity.
      * intros [r Hr]. injection Hr as -> ->. eauto.
Qed.

Lemma startswith_app p r : startswith (p ++ r) p = true.
Proof. apply startswith_spec. eauto. Qed.

Lemma endswith_spec s p : endswith s p = true <-> exists b, s = b ++ p.
Proof.
  unfold endswith. rewrite andb_true_iff, Nat.leb_le, bool_decide_eq_true. split.
  - intros [Hl Hd]. exists (take (length s - length p) s).
    transitivity (take (length s - length p) s ++ drop (length s - length p) s).
    + symmetry. apply take_drop.
    + f_equal. exact Hd.
  - intros [b ->]. rewrite length_app. split; [lia|].
    replace (length b + length p - length p)%nat with (length b) by lia.
    apply drop_app_length.
Qed.

Lemma getitem_app b c r : getitem (b ++ c :: r) (len b) = Ok c.
Proof.
  unfold getitem. pose proof (len_nonneg b) as Hb. pose proof (len_nonneg r) as Hr.
  destruct (len b <? 0) eqn:E; [apply Z.ltb_lt in E; lia|]. rewrite E. simpl.
  destruct (len (b ++ c :: r) <=? len b) eqn:E2.
  - apply Z.leb_le in E2. rewrite len_app, len_cons in E2. lia.
  - unfold len at 1. rewrite Nat2Z.id.
    rewrite list_lookup_middle by reflexivity. reflexivity.
Qed.

Lemma getitem_lookup s i c :
  getitem s i = Ok c -> 0 <= i -> s !! Z.to_nat i = Some c.
Proof.
  unfold getitem. intros H Hi.
  destruct (i <? 0) eqn:E; [apply Z.ltb_lt in E; lia|].
  destruct ((i <? 0) || (len s <=? i)); [discriminate|].
  destruct (s !! Z.to_nat i); congruence.
Qed.

End StringFacts.

(** * Facts about the decoding steps of [evalGeneric] *)

Lemma printed_nil w : printed [] w w.
Proof. unfold printed. destruct w; simpl. rewrite app_nil_r. reflexivity. Qed.

Lemma printed_fs msgs w w' : printed msgs w w' -> fs w' = fs w.
Proof. intros ->. reflexivity. Qed.

Lemma format_warn_pathid a b : format warn_pathid [a; b] = Ok (pathid_warning a b).
Proof. vm_compute. reflexivity. Qed.

Lemma format_warn_shuffle a b : format warn_shuffle [a; b] = Ok (shuffle_warning a b).
Proof. vm_compute. reflexivity. Qed.

Lemma print_out_fmt_pathid a b w :
  exists w', print_out_fmt warn_pathid [a; b] w = (w', Ok tt)
             /\ printed [pathid_warning a b] w w'.
Proof.
  unfold print_out_fmt, bind, lift. rewrite format_warn_pathid.
  eexists. split; reflexivity.
Qed.

Lemma print_out_fmt_shuffle a b w :
  exists w', print_out_fmt warn_shuffle [a; b] w = (w', Ok tt)
             /\ printed [shuffle_warning a b] w w'.
Proof.
  unfold print_out_fmt, bind, lift. rewrite format_warn_shuffle.
  eexists. split; reflexivity.
Qed.

Lemma py_int_exn s e : py_int s = Raise e -> e = ValueError.
Proof.
  unfold py_int.
  destruct (match strip_ws s with
            | [] => (1, strip_ws s)
            | c :: r => if Ascii.eqb c "-" then (-1, r)
                        else if Ascii.eqb c "+" then (1, r) else (1, strip_ws s)
            end) as [sg body].
  destruct body; [congruence|].
  destruct (digits_value _ _); congruence.
Qed.

Lemma getitem_in_range s i :
  0 <= i < len s -> exists c, getitem s i = Ok c /\ s !! Z.to_nat i = Some c.
Proof.
  intros [H0 H1]. unfold getitem. cbv zeta.
  destruct (i <? 0) eqn:E; [apply Z.ltb_lt in E; lia|]. rewrite E. simpl.
  destruct (len s <=? i) eqn:E2; [apply Z.leb_le in E2; lia|].
  destruct (s !! Z.to_nat i) as [c|] eqn:L; [exists c; split; reflexivity|].
  apply lookup_ge_None in L. unfold len in H1. lia.
Qed.

(** The path-id filter returns normally, and prints at most its warning. *)
Lemma check_pathid_total pathid clsname w :
  exists keep msgs w',
    check_pathid pathid clsname w = (w', Ok keep) /\ printed msgs w w'.
Proof.
  unfold check_pathid.
  destruct (truthy pathid && negb (endswith clsname pathid)).
  { exists false, [], w. split; [reflexivity | apply printed_nil]. }
  destruct (negb (truthy pathid)).
  2: { exists true, [], w. split; [reflexivity | apply printed_nil]. }
  destruct (negb (rfind _SEPPATHID clsname =? -1)
            && (rfind _SEPPATHID clsname + 1 <? len clsname)) eqn:G.
  2: { exists true, [], w. split; [reflexivity | apply printed_nil]. }
  apply andb_true_iff in G as [G1 G2]. apply Z.ltb_lt in G2.
  pose proof (rfind_range _SEPPATHID clsname) as R.
  destruct (getitem_in_range clsname (rfind _SEPPATHID clsname + 1)) as (c & Hc & _); [lia|].
  unfold bind at 1, lift. rewrite Hc.
  set (seg := slice_from clsname _).
  destruct (py_int seg) as [n|e] eqn:I.
  - exists false, [], w. split; [reflexivity | apply printed_nil].
  - apply py_int_exn in I as ->.
    destruct (print_out_fmt_pathid clsname (int_error_text seg) w) as (w' & P & Q).
    exists true, [pathid_warning clsname (int_error_text seg)], w'.
    split; [|exact Q]. unfold bind, ret. rewrite P. reflexivity.
Qed.

(** The shuffle decoder returns normally, and prints at most its warning. *)
Lemma decode_shuffle_total clsname icnpid w :
  exists shuffle msgs w',
    decode_shuffle clsname icnpid w = (w', Ok shuffle) /\ printed msgs w w'.
Proof.
  unfold decode_shuffle.
  set (sh := if _ =? 0 then [] else _).
  destruct (truthy sh).
  2: { exists sh, [], w. split; [reflexivity | apply printed_nil]. }
  destruct (py_int sh) as [n|e] eqn:I.
  - exists sh, [], w. split; [reflexivity | apply printed_nil].
  - apply py_int_exn in I as ->.
    destruct (print_out_fmt_shuffle clsname (int_error_text sh) w) as (w' & P & Q).
    exists [], [shuffle_warning clsname (int_error_text sh)], w'.
    split; [|exact Q]. unfold bind, ret. rewrite P. reflexivity.
Qed.

Lemma other_instance_spec taskcapt clsname :
  other_instance taskcapt clsname
  = Ok (bool_decide ((length taskcapt < length clsname)%nat
                     /\ clsname !! length taskcapt = Some _SEPINST)).
Proof.
  unfold other_instance.
  destruct (len taskcapt <? len clsname) eqn:E.
  - apply Z.ltb_lt in E. pose proof (len_nonneg taskcapt).
    destruct (getitem_in_range clsname (len taskcapt)) as (c & Hc & L); [lia|].
    rewrite Hc. simpl. f_equal. unfold len in L. rewrite Nat2Z.id in L.
    destruct (Ascii.eqb c _SEPINST) eqn:C.
    + apply Ascii.eqb_eq in C. subst c. symmetry. apply bool_decide_eq_true.
      split; [unfold len in E; lia | exact L].
    + apply Ascii.eqb_neq in C. symmetry. apply bool_decide_eq_false.
      intros [_ L']. congruence.
  - apply Z.ltb_ge in E. f_equal. symmetry. apply bool_decide_eq_false.
    intros [L _]. unfold len in E. lia.
Qed.

(** ** C1 *)

(** C1 (as the code has it): a group whose name is longer than the base
    caption is left out exactly when the character right after the caption
    is the instance separator; such a group adds no job and leaves the file
    system as it was.  A group that continues the caption with another
    character passes this check. *)
Theorem C1_instance_filter
    (evalname algname measdir pathid taskcapt rcpoutp clsbase : pystr)
    (evalfile : emitter) (tidy : bool) (tsk : task) (st : locals) (w : world)
    (Hdir : Fs.isdir (fs w) clsbase = true) :
  let clsname := snd (OsPath.split clsbase) in
  let instance := bool_decide ((length taskcapt < length clsname)%nat
                               /\ clsname !! length taskcapt = Some _SEPINST) in
  other_instance taskcapt clsname = Ok instance
  /\ (instance = true ->
      exists msgs w',
        eval_group evalname algname measdir evalfile pathid tidy taskcapt rcpoutp tsk
                   st clsbase w
        = (w', Ok (mkLocals (jobs st) (Some clsname)))
        /\ printed msgs w w').
Proof.
  intros clsname instance. split; [apply other_instance_spec|].
  intros Hi. unfold eval_group.
  unfold bind at 1, gets. rewrite Hdir. cbn [negb].
  fold clsname.
  destruct (check_pathid_total pathid clsname w) as (keep & msgs & w' & Hc & Hp).
  unfold bind at 1. rewrite Hc.
  destruct keep; cbn [negb].
  - unfold bind at 1, lift. rewrite other_instance_spec. fold instance. rewrite Hi.
    exists msgs, w'. split; [reflexivity | exact Hp].
  - exists msgs, w'. split; [reflexivity | exact Hp].
Qed.

(** The instance [net^1] of [net], in a sample world. *)
Lemma C1_instance_filter_witness :
  Fs.isdir (fs world_instances) (py "results/a/clusters/net^1") = true
  /\ exists msgs w',
       eval_group (py "mod") (py "a") _MODDIR (modEvaluate (py "nets/net.cnl") 60) [] true
                  (py "net") (py "results/a/mod.rcp") (mkTask (py "mod_net__a") HookSet)
                  (mkLocals [] None) (py "results/a/clusters/net^1") world_instances
       = (w', Ok (mkLocals [] (Some (py "net^1"))))
       /\ printed msgs world_instances w'.
Proof.
  assert (Hdir : Fs.isdir (fs world_instances) (py "results/a/clusters/net^1") = true)
    by (vm_compute; reflexivity).
  split; [exact Hdir|].
  destruct (C1_instance_filter (py "mod") (py "a") _MODDIR [] (py "net")
              (py "results/a/mod.rcp") (py "results/a/clusters/net^1")
              (modEvaluate (py "nets/net.cnl") 60) true (mkTask (py "mod_net__a") HookSet)
              (mkLocals [] None) world_instances Hdir) as [_ H].
  apply H. vm_compute. reflexivity.
Defined.

(** C1 as stated fails: for the base caption [net] the group [net2] is not
    rejected and its file becomes a job, while the group [net^1], whose next
    character is the instance separator, is the one left out. *)
Lemma C1_counterexample :
  other_instance (py "net") (py "net2") = Ok false
  /\ other_instance (py "net") (py "net^1") = Ok true
  /\ map job_name
         (submitted (fst (evalGeneric (fun _ => None) HookSet (py "mod") (py "a")
                            (py "nets/net.cnl") _MODDIR (modEvaluate (py "nets/net.cnl") 60)
                            [] true world_instances)))
     = [py "mod_net2_a"].
Proof. vm_compute. auto. Qed.

(** ** C2 *)

Lemma foldM_no_directory (body_args : locals -> pystr -> M locals) (l : list pystr)
    (st : locals) (w : world) :
  (forall st c, c ∈ l -> body_args st c w = (w, Ok st)) ->
  foldM l body_args st w = (w, Ok st).
Proof.
  induction l as [|c l IH]; intros H; simpl; [reflexivity|].
  unfold bind. rewrite H by (apply list_elem_of_here).
  apply IH. intros st' c' Hc'. apply H. apply list_elem_of_further, Hc'.
Qed.

Lemma eval_group_not_directory evalname algname measdir evalfile pathid tidy taskcapt
    rcpoutp tsk st clsbase w :
  Fs.isdir (fs w) clsbase = false ->
  eval_group evalname algname measdir evalfile pathid tidy taskcapt rcpoutp tsk st clsbase w
  = (w, Ok st).
Proof.
  intros H. unfold eval_group, bind at 1, gets. rewrite H. reflexivity.
Qed.

(** Past its assertions [evalGeneric] is the scan of the candidates
    followed by the run of the jobs. *)
Lemma evalGeneric_scan pool_error task_hook evalname algname basefile measdir evalfile
    pathid tidy w :
  preconditions evalname algname basefile pathid = true ->
  evalGeneric pool_error task_hook evalname algname basefile measdir evalfile pathid tidy w
  = (let taskcapt := fst (OsPath.splitext (snd (OsPath.split basefile))) in
     st <- foldM (candidates w algname basefile)
             (eval_group evalname algname measdir evalfile pathid tidy taskcapt
                (_RESDIR ++ algname ++ py "/" ++ evalname ++ _EXTEXECTIME)
                (mkTask (join (py "_") [evalname; taskcapt; pathid; algname]) task_hook))
             (mkLocals [] None) ;;
     run_jobs pool_error algname st) w.
Proof.
  intros Hpre. unfold preconditions in Hpre.
  apply andb_true_iff in Hpre as [Hpre H3].
  apply andb_true_iff in Hpre as [H1 H2].
  unfold evalGeneric.
  unfold bind at 1. rewrite H1. cbn [assert ret].
  assert (Hsep : (if truthy pathid
                  then rbind (getitem pathid 0) (fun c => Ok (Ascii.eqb c _SEPPATHID))
                  else Ok true) = Ok true).
  { destruct pathid as [|c r]; [reflexivity|].
    replace (truthy (c :: r)) with true by reflexivity.
    change (getitem (c :: r) 0) with (getitem ([] ++ c :: r) (len [])).
    rewrite getitem_app. simpl. rewrite H2. reflexivity. }
  unfold bind at 1, lift. rewrite Hsep.
  unfold bind at 1. cbn [assert ret].
  unfold bind at 1. rewrite H3. cbn [assert ret].
  unfold bind at 1, gets. reflexivity.
Qed.

Lemma format_warn_no_clusters a b :
  format warn_no_clusters [a; b] = Ok (no_clusters_warning a b).
Proof. vm_compute. reflexivity. Qed.

(** Where a directory was seen and no job was built, the warning is printed
    and the call returns. *)
Lemma run_jobs_warns pool_error algname clsname w :
  run_jobs pool_error algname (mkLocals [] (Some clsname)) w
  = (fst (print_err (no_clusters_warning algname clsname) w), Ok tt).
Proof.
  unfold run_jobs. cbn [jobs clsname_var]. unfold bind at 1, lift.
  unfold print_err_fmt, bind, lift. rewrite format_warn_no_clusters. reflexivity.
Qed.

(** C2 (the code where no group is found): when the glob yields no
    directory at all, [clsname] is still unbound when the final warning is
    built, and the call ends in a NameError with nothing printed and
    nothing submitted, where a warning and a normal return are due. *)
Theorem C2_unbound_clsname
    (pool_error : job -> option pystr) (task_hook : hook)
    (evalname algname basefile measdir pathid : pystr) (evalfile : emitter)
    (tidy : bool) (w : world)
    (Hpre : preconditions evalname algname basefile pathid = true)
    (Hnodir : forall c, c ∈ candidates w algname basefile -> Fs.isdir (fs w) c = false) :
  evalGeneric pool_error task_hook evalname algname basefile measdir evalfile pathid tidy w
  = (w, Raise NameError).
Proof.
  rewrite evalGeneric_scan by assumption. cbv zeta.
  unfold bind at 1.
  rewrite foldM_no_directory.
  - reflexivity.
  - intros st c Hc. apply eval_group_not_directory, Hnodir, Hc.
Qed.

(** No group of [zzz] exists in the sample world. *)
Lemma C2_unbound_clsname_witness :
  evalGeneric (fun _ => None) HookSet (py "mod") (py "a") (py "nets/zzz.cnl") _MODDIR
              (modEvaluate (py "nets/zzz.cnl") 60) [] true world_instances
  = (world_instances, Raise NameError).
Proof.
  apply C2_unbound_clsname.
  - vm_compute. reflexivity.
  - intros c Hc. vm_compute in Hc. inversion Hc.
Defined.

(** ** C3 *)

Lemma slice_from_after b c r : slice_from (b ++ c :: r) (len b + 1) = r.
Proof.
  replace (b ++ c :: r) with ((b ++ [c]) ++ r) by (rewrite <- app_assoc; reflexivity).
  replace (len b + 1) with (len (b ++ [c])) by (rewrite len_app; reflexivity).
  apply slice_from_app.
Qed.







Lemma check_pathid_absent_last b r w :
  _SEPPATHID ∉ r ->
  check_pathid [] (b ++ _SEPPATHID :: r) w
  = match r with
    | [] => (w, Ok true)
    | _ :: _ =>
        if int_ok (strip_file_mark r) then (w, Ok false)
        else (fst (print_out (pathid_warning (b ++ _SEPPATHID :: r)
                                (int_error_text (strip_file_mark r))) w), Ok true)
    end.
Proof.
  intros Hr. unfold check_pathid.
  replace (truthy [] && negb (endswith (b ++ _SEPPATHID :: r) [])) with false by reflexivity.
  replace (negb (truthy [])) with true by reflexivity.
  rewrite rfind_last by assumption.
  pose proof (len_nonneg b) as Hb. pose proof (len_nonneg r) as Hlr.
  replace (negb (len b =? -1)) with true
    by (symmetry; apply negb_true_iff, Z.eqb_neq; lia).
  rewrite len_app, len_cons. cbn [andb].
  destruct r as [|c r'].
  - rewrite len_nil.
    replace (len b + 1 <? len b + (1 + 0)) with false by (symmetry; apply Z.ltb_ge; lia).
    reflexivity.
  - rewrite len_cons. pose proof (len_nonneg r') as Hr'.
    replace (len b + 1 <? len b + (1 + (1 + len r'))) with true
      by (symmetry; apply Z.ltb_lt; lia).
    unfold bind at 1, lift.
    replace (getitem (b ++ _SEPPATHID :: c :: r') (len b + 1)) with (Ok c).
    2: { replace (b ++ _SEPPATHID :: c :: r') with ((b ++ [_SEPPATHID]) ++ c :: r')
           by (rewrite <- app_assoc; reflexivity).
         replace (len b + 1) with (len (b ++ [_SEPPATHID])) by (rewrite len_app; reflexivity).
         symmetry. apply getitem_app. }
    assert (Hseg : slice_from (b ++ _SEPPATHID :: c :: r')
                     ((if Ascii.eqb c _PATHID_FILE then len b + 1 else len b) + 1)
                   = strip_file_mark (c :: r')).
    { cbn [strip_file_mark]. destruct (Ascii.eqb c _PATHID_FILE).
      - replace (b ++ _SEPPATHID :: c :: r') with ((b ++ [_SEPPATHID]) ++ c :: r')
          by (rewrite <- app_assoc; reflexivity).
        replace (len b + 1 + 1) with (len (b ++ [_SEPPATHID]) + 1)
          by (rewrite len_app; reflexivity).
        apply slice_from_after.
      - apply slice_from_after. }
    rewrite Hseg. unfold int_ok.
    destruct (py_int (strip_file_mark (c :: r'))) as [n|e] eqn:I; [reflexivity|].
    apply py_int_exn in I as ->.
    unfold print_out_fmt, bind, lift, ret. rewrite format_warn_pathid. reflexivity.
Qed.





(** ** C4 *)

Lemma app_cons_assoc (a : pystr) c (b t : pystr) : a ++ c :: b ++ t = (a ++ c :: b) ++ t.
Proof. rewrite <- app_assoc. reflexivity. Qed.

(** The shuffle decoder on a name by the last dot before the path-id. *)
Lemma decode_shuffle_last stem seg pathid w :
  "."%char ∉ seg ->
  let clsname := stem ++ "."%char :: seg ++ pathid in
  decode_shuffle clsname (len clsname - len pathid) w
  = match seg with
    | [] => (w, Ok [])
    | _ :: _ =>
        if int_ok seg then (w, Ok seg)
        else (fst (print_out (shuffle_warning clsname (int_error_text seg)) w), Ok [])
    end.
Proof.
  intros Hseg clsname. unfold decode_shuffle.
  assert (Hi : len clsname - len pathid = len (stem ++ "."%char :: seg)).
  { unfold clsname. rewrite app_cons_assoc, len_app. lia. }
  rewrite Hi.
  assert (Hto : slice_to clsname (len (stem ++ "."%char :: seg)) = stem ++ "."%char :: seg).
  { unfold clsname. rewrite app_cons_assoc. apply slice_to_app. }
  rewrite Hto, rfind_last by assumption.
  pose proof (len_nonneg stem) as Hs.
  replace (len stem + 1 =? 0) with false by (symmetry; apply Z.eqb_neq; lia).
  assert (Hsl : slice clsname (len stem + 1) (len (stem ++ "."%char :: seg)) = seg).
  { unfold clsname.
    replace (stem ++ "."%char :: seg ++ pathid) with ((stem ++ ["."%char]) ++ seg ++ pathid)
      by (rewrite <- app_assoc; reflexivity).
    replace (len stem + 1) with (len (stem ++ ["."%char])) by (rewrite len_app; reflexivity).
    replace (len (stem ++ "."%char :: seg)) with (len (stem ++ ["."%char]) + len seg)
      by (rewrite !len_app, len_cons, len_cons, len_nil; lia).
    apply slice_app. }
  rewrite Hsl.
  destruct seg as [|c seg']; [reflexivity|].
  replace (truthy (c :: seg')) with true by reflexivity.
  unfold int_ok. destruct (py_int (c :: seg')) as [n|e] eqn:I; [reflexivity|].
  apply py_int_exn in I as ->.
  unfold print_out_fmt, bind, lift, ret. rewrite format_warn_shuffle. reflexivity.
Qed.

Lemma decode_shuffle_nodot clsname pathid w :
  "."%char ∉ slice_to clsname (len clsname - len pathid) ->
  decode_shuffle clsname (len clsname - len pathid) w = (w, Ok []).
Proof.
  intros H. unfold decode_shuffle. rewrite rfind_notin by assumption. reflexivity.
Qed.

Lemma rsplit1_none c s : c ∉ s -> rsplit1 c s = [s].
Proof. intros H. unfold rsplit1. rewrite rfind_notin by assumption. reflexivity. Qed.

Lemma rsplit1_last c b r : c ∉ r -> rsplit1 c (b ++ c :: r) = [b; r].
Proof.
  intros H. unfold rsplit1. rewrite rfind_last by assumption.
  pose proof (len_nonneg b).
  destruct (len b <? 0) eqn:E; [apply Z.ltb_lt in E; lia|].
  rewrite slice_to_app, slice_from_after. reflexivity.
Qed.

Lemma drop_instance_none mainpath : _SEPINST ∉ mainpath -> drop_instance mainpath = Ok mainpath.
Proof. intros H. unfold drop_instance. rewrite rsplit1_none by assumption. reflexivity. Qed.

Lemma drop_instance_last b seg :
  _SEPINST ∉ seg ->
  drop_instance (b ++ _SEPINST :: seg)
  = Ok (if int_ok seg then b else b ++ _SEPINST :: seg).
Proof.
  intros H. unfold drop_instance. rewrite rsplit1_last by assumption.
  cbn [length Nat.leb list_getitem lookup list_lookup rbind].
  unfold int_ok. destruct (py_int seg) as [n|e] eqn:I; [reflexivity|].
  apply py_int_exn in I as ->. reflexivity.
Qed.

Lemma drop_instance_total mainpath : exists p, drop_instance mainpath = Ok p.
Proof.
  destruct (last_occurrence _SEPINST mainpath) as [Hn | (b & r & -> & Hr)].
  - rewrite drop_instance_none by assumption. eauto.
  - rewrite drop_instance_last by assumption. eauto.
Qed.

Lemma coalesced_name_total taskpath : exists p, coalesced_name taskpath = Ok p.
Proof.
  unfold coalesced_name. destruct (OsPath.split taskpath) as [mainpath name].
  destruct (truthy name); [|eauto].
  destruct (List.filter _ _); simpl; eauto.
Qed.

Lemma backup_base_total taskpath : exists p, backup_base taskpath = Ok p.
Proof.
  unfold backup_base. destruct (coalesced_name_total taskpath) as [m ->].
  apply drop_instance_total.
Qed.

Lemma preparePath_silent taskpath w :
  stdout (fst (preparePath taskpath w)) = stdout w
  /\ stderr (fst (preparePath taskpath w)) = stderr w.
Proof.
  unfold preparePath, bind, gets, when, lift, ret, backupPath, Fs.makedirs.
  destruct (backup_base_total taskpath) as [m ->].
  repeat case_match; simplify_eq; simpl; auto.
Qed.


(** C4 (as the code has it): decoding never raises.  In [evalGeneric] a
    non-empty path-id segment (when no path-id is requested) or shuffle
    segment that fails integer validation is treated as not present, and one
    warning is printed.  In [preparePath] the base path is always computed,
    a segment after the last instance separator of the coalesced path that
    is no integer stays in the path, and nothing is printed. *)
Theorem C4_decoding_never_raises :
  (forall pathid clsname w, exists keep msgs w',
      check_pathid pathid clsname w = (w', Ok keep) /\ printed msgs w w')
  /\ (forall b r w,
        _SEPPATHID ∉ r -> r <> [] -> int_ok (strip_file_mark r) = false ->
        exists w',
          check_pathid [] (b ++ _SEPPATHID :: r) w = (w', Ok true)
          /\ printed [pathid_warning (b ++ _SEPPATHID :: r)
                        (int_error_text (strip_file_mark r))] w w')
  /\ (forall clsname icnpid w, exists shuffle msgs w',
        decode_shuffle clsname icnpid w = (w', Ok shuffle) /\ printed msgs w w')
  /\ (forall stem seg pathid w,
        "."%char ∉ seg -> seg <> [] -> int_ok seg = false ->
        let clsname := stem ++ "."%char :: seg ++ pathid in
        exists w',
          decode_shuffle clsname (len clsname - len pathid) w = (w', Ok [])
          /\ printed [shuffle_warning clsname (int_error_text seg)] w w')
  /\ (forall taskpath, exists p, backup_base taskpath = Ok p)
  /\ (forall b seg,
        _SEPINST ∉ seg -> int_ok seg = false ->
        drop_instance (b ++ _SEPINST :: seg) = Ok (b ++ _SEPINST :: seg))
  /\ (forall taskpath w,
        stdout (fst (preparePath taskpath w)) = stdout w
        /\ stderr (fst (preparePath taskpath w)) = stderr w).
Proof.
  split; [apply check_pathid_total|].
  split.
  { intros b r w Hr Hne Hint. rewrite check_pathid_absent_last by assumption.
    destruct r; [congruence|]. rewrite Hint. eexists. split; reflexivity. }
  split; [apply decode_shuffle_total|].
  split.
  { intros stem seg pathid w Hseg Hne Hint clsname. unfold clsname.
    rewrite decode_shuffle_last by assumption.
    destruct seg; [congruence|]. rewrite Hint. eexists. split; reflexivity. }
  split; [apply backup_base_total|].
  split.
  { intros b seg Hseg Hint. rewrite drop_instance_last by assumption.
    rewrite Hint. reflexivity. }
  apply preparePath_silent.
Qed.

(** The names [net#x], [net.1a] and the base path [net^x]. *)
Lemma C4_decoding_never_raises_witness :
  (exists w', check_pathid [] (py "net#x") world_variant = (w', Ok true)
              /\ printed [pathid_warning (py "net#x") (int_error_text (py "x"))]
                         world_variant w')
  /\ (exists w', decode_shuffle (py "net.1a") (len (py "net.1a") - len []) world_variant
                 = (w', Ok [])
                 /\ printed [shuffle_warning (py "net.1a") (int_error_text (py "1a"))]
                            world_variant w')
  /\ drop_instance (py "results/a/clusters/net^x") = Ok (py "results/a/clusters/net^x").
Proof.
  destruct C4_decoding_never_raises as (_ & H2 & _ & H4 & _ & H6 & _).
  split; [|split].
  - apply (H2 (py "net") (py "x") world_variant);
      [decide_it | discriminate | vm_compute; reflexivity].
  - apply (H4 (py "net") (py "1a") [] world_variant);
      [decide_it | discriminate | vm_compute; reflexivity].
  - apply (H6 (py "results/a/clusters/net") (py "x"));
      [decide_it | vm_compute; reflexivity].
Defined.

(** C4 as stated fails in [preparePath]: the segment [x] of [net^x^1] is no
    integer and stays in the base path, yet nothing is printed; and the
    segment [abc] of [net^abc], no integer either, is cut from the base path
    without any validation. *)
Lemma C4_counterexample :
  int_ok (py "x") = false
  /\ backup_base (py "results/a/clusters/net^x^1") = Ok (py "results/a/clusters/net^x")
  /\ stdout (fst (preparePath (py "results/a/clusters/net^x^1") world_variant)) = []
  /\ stderr (fst (preparePath (py "results/a/clusters/net^x^1") world_variant)) = []
  /\ int_ok (py "abc") = false
  /\ backup_base (py "results/a/clusters/net^abc") = Ok (py "results/a/clusters/net").
Proof. vm_compute. repeat split; reflexivity. Qed.

(** ** Lemmas for C5 *)

Lemma lstrip_ws_split s :
  exists ws, s = ws ++ lstrip_ws s /\ forallb is_space ws = true.
Proof.
  induction s as [|x s IH]; simpl.
  - exists []. auto.
  - destruct (is_space x) eqn:E.
    + destruct IH as (ws & H1 & H2). exists (x :: ws). simpl. rewrite E, H2.
      split; [f_equal; exact H1 | reflexivity].
    + exists []. auto.
Qed.

Lemma digits_value_all s : forall acc n,
  digits_value s acc = Some n -> forallb is_digit s = true.
Proof.
  induction s as [|c s IH]; intros acc n H; simpl in *; [reflexivity|].
  destruct (is_digit c); [|discriminate]. simpl. eapply IH, H.
Qed.

Lemma forallb_weaken (f g : ascii -> bool) (l : pystr) :
  (forall c, f c = true -> g c = true) -> forallb f l = true -> forallb g l = true.
Proof.
  intros Hfg. induction l as [|c l IH]; simpl; [reflexivity|].
  intros [H1 H2]%andb_true_iff. rewrite (Hfg c H1), (IH H2). reflexivity.
Qed.

Lemma forallb_rev (f : ascii -> bool) (l : pystr) :
  forallb f (rev l) = forallb f l.
Proof.
  induction l as [|c l IH]; simpl; [reflexivity|].
  rewrite forallb_app, IH. simpl. rewrite andb_true_r. apply andb_comm.
Qed.

Lemma int_ok_chars s : int_ok s = true -> forallb int_char s = true.
Proof.
  unfold int_ok, py_int, strip_ws. intros H.
  destruct (lstrip_ws_split s) as (ws1 & Hs & Hws1).
  destruct (lstrip_ws_split (rev (lstrip_ws s))) as (ws2 & Hu & Hws2).
  set (v := lstrip_ws (rev (lstrip_ws s))) in *.
  assert (Hv : forallb int_char (rev v) = true).
  { destruct (rev v) as [|c r] eqn:Ev; [reflexivity|].
    assert (Hdig : forall body, match body with
                     | [] => Raise ValueError
                     | _ :: _ => match digits_value body 0 with
                                 | Some n => Ok n
                                 | None => @Raise Z ValueError
                                 end
                     end <> Raise ValueError -> forallb int_char body = true).
    { intros body Hb. destruct body as [|d body]; [congruence|].
      destruct (digits_value (d :: body) 0) eqn:D; [|congruence].
      eapply forallb_weaken; [|eapply digits_value_all, D].
      intros x Hx. unfold int_char. rewrite Hx. rewrite orb_true_r. reflexivity. }
    destruct (Ascii.eqb c "-") eqn:E1; [|destruct (Ascii.eqb c "+") eqn:E2].
    - simpl. unfold int_char at 1. rewrite E1, !orb_true_r. simpl.
      apply Hdig. destruct r; [discriminate|].
      destruct (digits_value _ _); simpl in H; congruence.
    - simpl. unfold int_char at 1. rewrite E2, !orb_true_r. simpl.
      apply Hdig. destruct r; [discriminate|].
      destruct (digits_value _ _); simpl in H; congruence.
    - apply Hdig. destruct (digits_value _ _); simpl in H; congruence. }
  rewrite Hs. rewrite forallb_app. apply andb_true_iff. split.
  - eapply forallb_weaken; [|exact Hws1]. intros x Hx. unfold int_char. rewrite Hx. reflexivity.
  - rewrite <- (rev_involutive (lstrip_ws s)), Hu, rev_app_distr, forallb_app.
    apply andb_true_iff. split; [exact Hv|].
    rewrite forallb_rev. eapply forallb_weaken; [|exact Hws2].
    intros x Hx. unfold int_char. rewrite Hx. reflexivity.
Qed.

Lemma int_ok_no_char s c : int_ok s = true -> int_char c = false -> c ∉ s.
Proof.
  intros H Hc Hin. apply int_ok_chars in H.
  rewrite forallb_forall in H. apply list_elem_of_In in Hin.
  specialize (H c Hin). congruence.
Qed.

Lemma slice_prefix a t : slice (a ++ t) 0 (len a) = a.
Proof.
  pose proof (slice_app [] a t) as H. rewrite len_nil in H. simpl in H. exact H.
Qed.

(** [splitext] cuts at the last dot of the last component when something
    else than dots precedes it there. *)
Lemma splitext_last X stem ext :
  "/"%char ∉ stem -> "/"%char ∉ ext -> "."%char ∉ ext ->
  existsb not_dot stem = true ->
  OsPath.splitext (X ++ stem ++ "."%char :: ext) = (X ++ stem, "."%char :: ext).
Proof.
  intros Hs1 Hs2 Hd Hnd. unfold OsPath.splitext.
  rewrite (app_assoc X stem).
  rewrite (rfind_last "." (X ++ stem) ext) by assumption.
  rewrite slice_to_app, slice_from_app.
  assert (Htail : "/"%char ∉ stem ++ "."%char :: ext).
  { rewrite not_elem_of_app, not_elem_of_cons. repeat split; try assumption. discriminate. }
  assert (Hcond : (rfind "/" ((X ++ stem) ++ "."%char :: ext) <? len (X ++ stem))
            && existsb (fun c => negb (Ascii.eqb c "."))
                 (slice ((X ++ stem) ++ "."%char :: ext)
                        (rfind "/" ((X ++ stem) ++ "."%char :: ext) + 1) (len (X ++ stem)))
            = true).
  { destruct (last_occurrence "/" X) as [Hn | (X1 & X2 & -> & HX2)].
    - rewrite rfind_notin.
      2: { rewrite <- app_assoc, not_elem_of_app. split; assumption. }
      pose proof (len_nonneg (X ++ stem)).
      apply andb_true_iff. split; [apply Z.ltb_lt; lia|].
      replace (-1 + 1) with 0 by lia. rewrite slice_prefix.
      rewrite existsb_app. apply orb_true_iff. right. exact Hnd.
    - replace (((X1 ++ "/"%char :: X2) ++ stem) ++ "."%char :: ext)
        with (X1 ++ "/"%char :: (X2 ++ stem ++ "."%char :: ext))
        by (rewrite <- !app_assoc; reflexivity).
      rewrite rfind_last.
      2: { rewrite not_elem_of_app. split; assumption. }
      pose proof (len_nonneg X1). pose proof (len_nonneg X2). pose proof (len_nonneg stem).
      apply andb_true_iff. split.
      + apply Z.ltb_lt. rewrite !len_app, len_cons. lia.
      + replace (X1 ++ "/"%char :: X2 ++ stem ++ "."%char :: ext)
          with ((X1 ++ ["/"%char]) ++ (X2 ++ stem) ++ "."%char :: ext)
          by (rewrite <- !app_assoc; reflexivity).
        replace (len X1 + 1) with (len (X1 ++ ["/"%char])) by (rewrite len_app; reflexivity).
        replace (len ((X1 ++ "/"%char :: X2) ++ stem))
          with (len (X1 ++ ["/"%char]) + len (X2 ++ stem))
          by (rewrite !len_app, !len_cons, len_nil; lia).
        rewrite slice_app, existsb_app. apply orb_true_iff. right. exact Hnd. }
  rewrite Hcond. reflexivity.
Qed.

(** No occurrence of a text that holds a slash lies in a text without. *)
Lemma startswith_needs_char c s old :
  c ∈ old -> c ∉ s -> startswith s old = false.
Proof.
  intros Hc Hs. destruct (startswith s old) eqn:E; [|reflexivity].
  apply startswith_spec in E as [r ->]. exfalso. apply Hs.
  apply elem_of_app. left. exact Hc.
Qed.

Lemma replace_aux_nomatch c old new s :
  c ∈ old -> c ∉ s -> replace_aux old new s O = s.
Proof.
  intros Hc. induction s as [|x s IH]; intros Hs; simpl; [reflexivity|].
  destruct old as [|o old']; [inversion Hc|].
  change (match x :: s with
          | [] => false
          | b :: s' => Ascii.eqb o b && startswith s' old'
          end) with (startswith (x :: s) (o :: old')).
  rewrite (startswith_needs_char c) by assumption.
  f_equal. apply IH. apply not_elem_of_cons in Hs. tauto.
Qed.

(** A replaced text that ends with a slash never reaches into a last path
    component. *)
Lemma replace_aux_component o new b :
  "/"%char ∉ b ->
  forall a skip, (skip <= length a)%nat ->
    replace_aux (o ++ ["/"%char]) new (a ++ b) skip
    = replace_aux (o ++ ["/"%char]) new a skip ++ b.
Proof.
  intros Hb. set (old := o ++ ["/"%char]).
  assert (Hin : "/"%char ∈ old) by (apply elem_of_app; right; apply list_elem_of_here).
  induction a as [|c a IH]; intros skip Hskip.
  - simpl in Hskip. replace skip with O by lia. simpl.
    apply (replace_aux_nomatch "/"); assumption.
  - destruct skip as [|k].
    + cbn [app replace_aux].
      change (c :: a ++ b) with ((c :: a) ++ b).
      destruct (startswith (c :: a) old) eqn:E.
      * apply startswith_spec in E as [r Hr].
        replace (startswith ((c :: a) ++ b) old) with true.
        2: { symmetry. apply startswith_spec. exists (r ++ b).
             rewrite Hr, <- app_assoc. reflexivity. }
        rewrite IH; [rewrite app_assoc; reflexivity|].
        pose proof (f_equal length Hr) as L. rewrite length_app in L. simpl in L. lia.
      * replace (startswith ((c :: a) ++ b) old) with false.
        2: { symmetry. destruct (startswith ((c :: a) ++ b) old) eqn:E2; [|reflexivity].
             exfalso. apply startswith_spec in E2 as [r Hr].
             apply app_eq_inv in Hr as [(k & H1 & H2) | (k & H1 & H2)].
             - assert (startswith (c :: a) old = true) by (apply startswith_spec; eauto).
               congruence.
             - destruct k as [|x k].
               + rewrite app_nil_r in H1.
                 assert (startswith (c :: a) old = true)
                   by (apply startswith_spec; exists []; rewrite app_nil_r; congruence).
                 congruence.
               + unfold old in H1.
                 assert (Hlast : last (o ++ ["/"%char]) = last ((c :: a) ++ x :: k))
                   by (rewrite H1; reflexivity).
                 rewrite last_snoc, last_app in Hlast.
                 destruct (last (x :: k)) as [z|] eqn:Lz; [|apply last_None in Lz; discriminate].
                 injection Hlast as <-.
                 apply Hb. rewrite H2. apply elem_of_app. left.
                 apply last_Some_elem_of. exact Lz. }
        rewrite IH by lia. reflexivity.
    + cbn [app replace_aux]. apply IH. simpl in Hskip. lia.
Qed.

Lemma logsbase_of_component cdir clsname measdir :
  "/"%char ∉ clsname ->
  logsbase_of (cdir ++ clsname) measdir = logsbase_of cdir measdir ++ clsname.
Proof.
  intros H. unfold logsbase_of, replace.
  apply (replace_aux_component (py "clusters") measdir clsname H cdir O). lia.
Qed.


Lemma int_ok_truthy s : int_ok s = true -> truthy s = true.
Proof. destruct s; [discriminate | reflexivity]. Qed.

Lemma taskoutp_of_shuffle L stem sh pathid evalname :
  "/"%char ∉ stem ++ pathid -> existsb not_dot stem = true ->
  int_ok sh = true -> "."%char ∉ pathid ->
  taskoutp_of (L ++ stem ++ "."%char :: sh ++ pathid) sh pathid evalname
  = L ++ stem ++ pathid ++ py "." ++ evalname.
Proof.
  intros Hname Hstem Hsh Hpid.
  apply not_elem_of_app in Hname as [Hn1 Hn2].
  unfold taskoutp_of. rewrite (int_ok_truthy sh Hsh).
  rewrite splitext_last; try assumption.
  - cbn [fst andb join]. destruct pathid as [|c r].
    + cbn [truthy bool_decide]. simpl. rewrite <- !app_assoc. reflexivity.
    + replace (truthy (c :: r)) with true by reflexivity.
      rewrite <- !app_assoc. reflexivity.
  - apply not_elem_of_app. split; [|assumption].
    apply int_ok_no_char; [assumption | reflexivity].
  - apply not_elem_of_app. split; [|assumption].
    apply int_ok_no_char; [assumption | reflexivity].
Qed.

(** ** C7, C10 and C6: the completion callback of a modularity job *)

Section AggregationFacts.

Variable value : Type.
Variable parseFloat : pystr -> option value.
Variable float_str : value -> pystr.

Lemma format_err_mod a b : format err_mod_format [a; b] = Ok (mod_error_text a b).
Proof.
  unfold mod_error_text. rewrite <- (app_nil_r b) at 2. vm_compute. reflexivity.
Qed.

Lemma format_row a b : format mod_row_template [a; b] = Ok (row_text a b).
Proof.
  unfold row_text, row_line. rewrite <- !app_assoc. vm_compute. reflexivity.
Qed.

Lemma format_no_onjobdone a b : format warn_no_onjobdone [a; b] = Raise IndexError.
Proof. vm_compute. reflexivity. Qed.

Lemma aggLevs_rejected j out w :
  startswith out mod_targpref = false ->
  aggLevs value parseFloat float_str j out w
  = (mkWorld (fs w) (stdout w) (stderr w ++ [mod_error_text (job_name j) out])
             (backups w) (submitted w) (forwarded w), Ok tt).
Proof.
  intros H. unfold aggLevs. rewrite H.
  unfold print_err_fmt, bind, lift. rewrite format_err_mod. reflexivity.
Qed.

(** Up to the written row. *)
Lemma aggLevs_recorded j out m w :
  startswith out mod_targpref = true ->
  parseFloat (slice_from out (len mod_targpref)) = Some m ->
  appendable (fs w) (job_taskoutp j) = true ->
  aggLevs value parseFloat float_str j out w
  = after_row j out (onjobdone value float_str j m)
      (set_fs (<[job_taskoutp j :=
                   File (with_row (content_of (fs w) (job_taskoutp j))
                                  (float_str m) (job_jobsuff j))]> (fs w)) w).
Proof.
  intros Hpref Hparse Hopen. unfold aggLevs. rewrite Hpref, Hparse.
  set (p := job_taskoutp j) in *.
  unfold appendable in Hopen. unfold content_of, with_row.
  unfold bind at 1, Fs.open_append.
  destruct (fs w !! p) as [[|c]|] eqn:L; [discriminate| |].
  - (* an existing file *)
    unfold bind at 1, Fs.getsize. rewrite L.
    unfold bind at 1. 
    destruct c as [|x c].
    + change (len [] =? 0) with true. cbn [when]. unfold Fs.write at 1. rewrite L.
      unfold bind at 1, lift. rewrite format_row.
      unfold bind at 1, Fs.write. cbn [fs set_fs]. rewrite lookup_insert_eq.
      unfold set_fs at 1. cbn [fs stdout stderr backups submitted forwarded].
      rewrite insert_insert_eq. reflexivity.
    + replace (len (x :: c) =? 0) with false
        by (rewrite len_cons; pose proof (len_nonneg c); symmetry; apply Z.eqb_neq; lia).
      cbn [when ret]. unfold bind at 1, lift. rewrite format_row.
      unfold bind at 1, Fs.write. rewrite L. reflexivity.
  - (* a new file *)
    rewrite Hopen.
    unfold bind at 1, Fs.getsize. cbn [fs set_fs]. rewrite lookup_insert_eq.
    unfold bind at 1. change (len [] =? 0) with true. cbn [when].
    unfold Fs.write at 1. cbn [fs set_fs]. rewrite lookup_insert_eq.
    unfold bind at 1, lift. rewrite format_row.
    unfold bind at 1, Fs.write. cbn [fs set_fs]. rewrite lookup_insert_eq.
    unfold set_fs. cbn [fs stdout stderr backups submitted forwarded].
    rewrite !insert_insert_eq. reflexivity.
Qed.

Lemma after_row_fs j out m w :
  fs (fst (after_row j out (onjobdone value float_str j m) w)) = fs w.
Proof.
  unfold after_row, print_err_fmt, bind, lift, raise, onjobdone.
  rewrite format_no_onjobdone.
  destruct (job_task j) as [t|]; [destruct (task_onjobdone t)|]; reflexivity.
Qed.

End AggregationFacts.

(** C7: when the captured output does not start with [mod: ], the callback
    prints one error line with the job name and the raw output, returns
    normally and leaves the file system as it was: nothing is created and
    nothing is written. *)
Theorem C7_nonconforming_output (value : Type) (parseFloat : pystr -> option value)
    (float_str : value -> pystr) (j : job) (out : pystr) (w : world)
    (Hpref : startswith out mod_targpref = false) :
  let r := aggLevs value parseFloat float_str j out w in
  snd r = Ok tt
  /\ fs (fst r) = fs w
  /\ stderr (fst r) = stderr w ++ [mod_error_text (job_name j) out]
  /\ stdout (fst r) = stdout w
  /\ forwarded (fst r) = forwarded w.
Proof.
  intros r. unfold r. rewrite aggLevs_rejected by assumption.
  repeat split; reflexivity.
Qed.

(** C10: when the output parses and the task has no true [onjobdone], the
    callback raises after the row is in the accumulation file: with a false
    hook or a false task the warning has three fields for two arguments, so
    [format] raises IndexError and nothing is printed; a task without the
    attribute raises AttributeError. *)
Theorem C10_fallback_raises (value : Type) (parseFloat : pystr -> option value)
    (float_str : value -> pystr) (j : job) (out : pystr) (m : value) (w : world)
    (Hpref : startswith out mod_targpref = true)
    (Hparse : parseFloat (slice_from out (len mod_targpref)) = Some m)
    (Hhook : has_onjobdone j = false)
    (Hopen : appendable (fs w) (job_taskoutp j) = true) :
  let r := aggLevs value parseFloat float_str j out w in
  format warn_no_onjobdone [job_name j; out] = Raise IndexError
  /\ (exists e, snd r = Raise e
                /\ (e = IndexError \/
                    exists t, job_task j = Some t /\ task_onjobdone t = HookMissing))
  /\ content_of (fs (fst r)) (job_taskoutp j)
     = with_row (content_of (fs w) (job_taskoutp j)) (float_str m) (job_jobsuff j)
  /\ stderr (fst r) = stderr w
  /\ stdout (fst r) = stdout w.
Proof.
  intros r. unfold r. rewrite (aggLevs_recorded value parseFloat float_str j out m w) by assumption.
  split; [apply format_no_onjobdone|].
  unfold has_onjobdone in Hhook.
  unfold after_row, print_err_fmt, bind, lift, raise. rewrite format_no_onjobdone.
  unfold content_of.
  destruct (job_task j) as [t|]; [destruct (task_onjobdone t) eqn:T; [| |discriminate]|];
    cbn [fst snd fs set_fs stderr stdout]; rewrite lookup_insert_eq;
    (split; [eexists; split; [reflexivity|eauto] | repeat split]).
Qed.

Section SerializedCallbacks.

Variable value : Type.
Variable parseFloat : pystr -> option value.
Variable float_str : value -> pystr.
Variable p : pystr.

Lemma aggLevs_content j out m w :
  startswith out mod_targpref = true ->
  parseFloat (slice_from out (len mod_targpref)) = Some m ->
  appendable (fs w) (job_taskoutp j) = true ->
  fs (fst (aggLevs value parseFloat float_str j out w))
  = <[job_taskoutp j :=
        File (with_row (content_of (fs w) (job_taskoutp j)) (float_str m) (job_jobsuff j))]>
      (fs w).
Proof.
  intros H1 H2 H3. rewrite (aggLevs_recorded value parseFloat float_str j out m w) by assumption.
  rewrite after_row_fs. reflexivity.
Qed.

Lemma content_of_insert (f : gmap pystr node) q c : content_of (<[q := File c]> f) q = c.
Proof. unfold content_of. rewrite lookup_insert_eq. reflexivity. Qed.

Lemma appendable_insert (f : gmap pystr node) q c : appendable (<[q := File c]> f) q = true.
Proof. unfold appendable. rewrite lookup_insert_eq. reflexivity. Qed.

Lemma run_callbacks_rows done : forall w,
  Forall (records parseFloat p) done ->
  appendable (fs w) p = true ->
  content_of (fs w) p <> [] ->
  content_of (fs (run_callbacks value parseFloat float_str done w)) p
  = content_of (fs w) p
    ++ concat (map (fun d => row_of parseFloat float_str d ++ nl) done).
Proof.
  induction done as [|[j out] done IH]; intros w Hall Hopen Hne.
  - simpl. rewrite app_nil_r. reflexivity.
  - inversion Hall as [|d l Hd Hl]; subst. destruct Hd as (Hp & Hpref & [m Hm] & Hsl).
    cbn [fst snd] in *.
    pose proof (aggLevs_content j out m w Hpref Hm) as Hfs. rewrite Hp in Hfs.
    specialize (Hfs Hopen).
    cbn [run_callbacks map concat].
    rewrite IH; try assumption; rewrite Hfs.
    + rewrite content_of_insert. unfold with_row, row_of. cbn [fst snd]. rewrite Hm.
      destruct (content_of (fs w) p) as [|x old]; [congruence|].
      replace (truthy (x :: old)) with true by reflexivity.
      unfold row_text. cbn [app]. rewrite <- !app_assoc. reflexivity.
    + apply appendable_insert.
    + rewrite content_of_insert. unfold with_row.
      destruct (content_of (fs w) p); [|discriminate].
      discriminate.
Qed.

Lemma run_callbacks_from_empty done w :
  done <> [] ->
  Forall (records parseFloat p) done ->
  appendable (fs w) p = true ->
  content_of (fs w) p = [] ->
  content_of (fs (run_callbacks value parseFloat float_str done w)) p
  = mod_header ++ concat (map (fun d => row_of parseFloat float_str d ++ nl) done).
Proof.
  destruct done as [|[j out] done]; [congruence|]. intros _ Hall Hopen Hempty.
  inversion Hall as [|d l Hd Hl]; subst. destruct Hd as (Hp & Hpref & [m Hm] & Hsl).
  cbn [fst snd] in *.
  pose proof (aggLevs_content j out m w Hpref Hm) as Hfs. rewrite Hp in Hfs.
  specialize (Hfs Hopen).
  cbn [run_callbacks map concat].
  rewrite run_callbacks_rows; try assumption; rewrite Hfs.
  - rewrite content_of_insert, Hempty. unfold with_row, row_of. cbn [fst snd]. rewrite Hm.
    replace (truthy []) with false by reflexivity.
    unfold row_text. cbn [app]. rewrite <- !app_assoc. reflexivity.
  - apply appendable_insert.
  - rewrite content_of_insert, Hempty. discriminate.
Qed.

End SerializedCallbacks.

Lemma lines_aux_line l :
  single_line l = true ->
  forall cur rest, lines_aux cur (l ++ nl ++ rest) = (cur ++ l) :: lines_aux [] rest.
Proof.
  induction l as [|c l IH]; intros Hl cur rest.
  - simpl. rewrite app_nil_r. reflexivity.
  - simpl in Hl. apply andb_true_iff in Hl as [Hc Hl].
    cbn [app lines_aux]. apply negb_true_iff in Hc. rewrite Hc.
    rewrite IH by assumption. rewrite <- app_assoc. reflexivity.
Qed.

Lemma lines_rows ls :
  Forall (fun l => single_line l = true) ls ->
  lines (concat (map (fun l => l ++ nl) ls)) = ls.
Proof.
  unfold lines. induction 1 as [|l ls Hl Hls IH]; [reflexivity|].
  cbn [map concat]. rewrite <- app_assoc, lines_aux_line by assumption.
  rewrite IH. reflexivity.
Qed.

Lemma plain_text_single_line s : plain_text s = true -> single_line s = true.
Proof.
  unfold plain_text, single_line. apply forallb_weaken.
  intros c Hc. apply andb_true_iff in Hc. tauto.
Qed.

Lemma row_line_single val jobsuff :
  plain_text val = true -> single_line jobsuff = true ->
  single_line (row_line val jobsuff) = true.
Proof.
  intros Hv Hj. unfold row_line, single_line. rewrite !forallb_app.
  apply plain_text_single_line in Hv. unfold single_line in Hv, Hj.
  rewrite Hv, Hj. reflexivity.
Qed.

Lemma row_line_not_header val jobsuff :
  plain_text val = true -> row_line val jobsuff <> mod_header_line.
Proof.
  intros Hv. unfold row_line. destruct val as [|c val].
  - discriminate.
  - simpl in Hv. apply andb_true_iff in Hv as [Hc _].
    apply andb_true_iff in Hc as [Hc _]. apply negb_true_iff, Ascii.eqb_neq in Hc.
    intros H. injection H as H _. congruence.
Qed.

(** C6: a recording callback appends the header exactly when the file is
    empty at that time, and then the data row.  Hence, when callbacks run
    one after the other on a file that starts absent or empty, the file
    holds the header as its first line, one line per recorded row after it,
    and no second header.  The text of a value and the captions are single
    lines, and the text of a value holds no comment mark. *)
Theorem C6_single_header (value : Type) (parseFloat : pystr -> option value)
    (float_str : value -> pystr)
    (Hfloat : forall v, plain_text (float_str v) = true) :
  (forall j out m w,
      startswith out mod_targpref = true ->
      parseFloat (slice_from out (len mod_targpref)) = Some m ->
      appendable (fs w) (job_taskoutp j) = true ->
      content_of (fs (fst (aggLevs value parseFloat float_str j out w))) (job_taskoutp j)
      = with_row (content_of (fs w) (job_taskoutp j)) (float_str m) (job_jobsuff j))
  /\ (forall p done w,
        done <> [] ->
        Forall (records parseFloat p) done ->
        appendable (fs w) p = true ->
        content_of (fs w) p = [] ->
        let rows := map (row_of parseFloat float_str) done in
        lines (content_of (fs (run_callbacks value parseFloat float_str done w)) p)
        = mod_header_line :: rows
        /\ mod_header_line ∉ rows).
Proof.
  split.
  { intros j out m w H1 H2 H3. rewrite (aggLevs_content value parseFloat float_str j out m w)
      by assumption. apply content_of_insert. }
  intros p done w Hne Hall Hopen Hempty rows.
  assert (Hrows : Forall (fun l => single_line l = true /\ l <> mod_header_line) rows).
  { unfold rows. apply Forall_map. eapply Forall_impl; [exact Hall|].
    intros [j out] (_ & _ & [m Hm] & Hsl). cbn [fst snd] in *.
    unfold row_of. cbn [fst snd]. rewrite Hm. split.
    - apply row_line_single; [apply Hfloat | assumption].
    - apply row_line_not_header, Hfloat. }
  split.
  - rewrite run_callbacks_from_empty by assumption.
    replace (concat (map (fun d => row_of parseFloat float_str d ++ nl) done))
      with (concat (map (fun l => l ++ nl) rows))
      by (unfold rows; rewrite map_map; reflexivity).
    change (mod_header ++ concat (map (fun l => l ++ nl) rows))
      with (concat (map (fun l => l ++ nl) (mod_header_line :: rows))).
    apply lines_rows. constructor; [reflexivity|].
    eapply Forall_impl; [exact Hrows|]. intros l [H _]. exact H.
  - intros Hin. rewrite Forall_forall in Hrows. destruct (Hrows _ Hin) as [_ H]. congruence.
Qed.

(** An output with another prefix. *)
Lemma C7_nonconforming_output_witness :
  startswith (py "modularity: 0.5") mod_targpref = false
  /\ fs (fst (aggLevs unit parse_half str_half (sample_job HookSet (py "1"))
                      (py "modularity: 0.5") world_logs)) = fs world_logs
  /\ stderr (fst (aggLevs unit parse_half str_half (sample_job HookSet (py "1"))
                          (py "modularity: 0.5") world_logs))
     = [mod_error_text (py "mod_net_a") (py "modularity: 0.5")].
Proof.
  assert (H : startswith (py "modularity: 0.5") mod_targpref = false)
    by (vm_compute; reflexivity).
  split; [exact H|].
  destruct (C7_nonconforming_output unit parse_half str_half (sample_job HookSet (py "1"))
              (py "modularity: 0.5") world_logs H) as (_ & H1 & H2 & _).
  split; [exact H1 | exact H2].
Defined.

(** A task whose [onjobdone] is false. *)
Lemma C10_fallback_raises_witness :
  snd (aggLevs unit parse_half str_half (sample_job HookFalsy (py "1"))
               (py "mod: 0.5") world_logs) = Raise IndexError
  /\ content_of (fs (fst (aggLevs unit parse_half str_half (sample_job HookFalsy (py "1"))
                                  (py "mod: 0.5") world_logs)))
                (py "results/a/mod/net.mod")
     = mod_header ++ row_text (py "0.5") (py "1").
Proof.
  destruct (C10_fallback_raises unit parse_half str_half (sample_job HookFalsy (py "1"))
              (py "mod: 0.5") tt world_logs
              ltac:(vm_compute; reflexivity) ltac:(reflexivity)
              ltac:(vm_compute; reflexivity) ltac:(vm_compute; reflexivity))
    as (_ & _ & H & _).
  split; [vm_compute; reflexivity | exact H].
Defined.

(** Two jobs of one task, finished one after the other. *)
Lemma C6_single_header_witness :
  lines (content_of
           (fs (run_callbacks unit parse_half str_half
                  [(sample_job HookSet (py "1"), py "mod: 0.5");
                   (sample_job HookSet (py "1_2"), py "mod: 0.5")] world_logs))
           (py "results/a/mod/net.mod"))
  = [mod_header_line; row_line (py "0.5") (py "1"); row_line (py "0.5") (py "1_2")].
Proof.
  destruct (C6_single_header unit parse_half str_half (fun _ => eq_refl)) as [_ H].
  apply (H (py "results/a/mod/net.mod")
           [(sample_job HookSet (py "1"), py "mod: 0.5");
            (sample_job HookSet (py "1_2"), py "mod: 0.5")] world_logs).
  - discriminate.
  - repeat constructor; vm_compute; eauto.
  - vm_compute. reflexivity.
  - vm_compute. reflexivity.
Defined.

(** * Facts about the file system operations *)

Lemma below_spec p k : Fs.below p k = true <-> exists r, k = p ++ "/"%char :: r.
Proof.
  unfold Fs.below. rewrite startswith_spec. split; intros [r ->]; exists r.
  - rewrite <- app_assoc. reflexivity.
  - rewrite <- app_assoc. reflexivity.
Qed.

Lemma ancestors_aux_spec rest : forall pre a,
  a ∈ Fs.ancestors_aux pre rest ->
  exists r1 r2, rest = r1 ++ "/"%char :: r2 /\ a = pre ++ r1.
Proof.
  induction rest as [|c rest IH]; intros pre a Ha; simpl in Ha.
  - inversion Ha.
  - apply elem_of_app in Ha as [Ha | Ha].
    + destruct (Ascii.eqb c "/" && negb (bool_decide (pre = []))) eqn:E; [|inversion Ha].
      apply andb_true_iff in E as [E _]. apply Ascii.eqb_eq in E. subst c.
      apply list_elem_of_singleton in Ha. subst a.
      exists [], rest. rewrite app_nil_r. auto.
    + destruct (IH _ _ Ha) as (r1 & r2 & -> & ->).
      exists (c :: r1), r2. rewrite <- app_assoc. auto.
Qed.

Lemma ancestors_spec p a : a ∈ Fs.ancestors p -> exists r, p = a ++ "/"%char :: r.
Proof.
  intros H. destruct (ancestors_aux_spec p [] a H) as (r1 & r2 & -> & ->). eauto.
Qed.

Lemma ancestor_not_self p : p ∉ Fs.ancestors p.
Proof.
  intros H. destruct (ancestors_spec _ _ H) as [r Hr].
  apply (f_equal length) in Hr. rewrite length_app in Hr. simpl in Hr. lia.
Qed.

Lemma ancestor_not_below p k : Fs.below p k = true -> k ∉ Fs.ancestors p.
Proof.
  intros [r ->]%below_spec H. destruct (ancestors_spec _ _ H) as [r' Hr].
  apply (f_equal length) in Hr. rewrite !length_app in Hr. simpl in Hr.
  try rewrite !length_app in Hr. simpl in Hr. lia.
Qed.

Lemma not_below_self p : Fs.below p p = false.
Proof.
  destruct (Fs.below p p) eqn:E; [|reflexivity].
  apply below_spec in E as [r Hr]. apply (f_equal length) in Hr.
  rewrite length_app in Hr. simpl in Hr. lia.
Qed.

Lemma ancestor_is_prefix p a : a ∈ Fs.ancestors p -> startswith p a = true.
Proof. intros [r ->]%ancestors_spec. apply startswith_app. Qed.

Lemma lookup_mkdirs (f : gmap pystr node) (l : list pystr) k :
  foldr (fun a f => <[a := Dir]> f) f l !! k
  = if bool_decide (k ∈ l) then Some Dir else f !! k.
Proof.
  induction l as [|a l IH]; simpl.
  - reflexivity.
  - destruct (decide (a = k)) as [->|Hne].
    + rewrite lookup_insert_eq. rewrite bool_decide_eq_true_2 by apply list_elem_of_here.
      reflexivity.
    + rewrite lookup_insert_ne by assumption. rewrite IH.
      destruct (bool_decide (k ∈ l)) eqn:E.
      * apply bool_decide_eq_true in E.
        rewrite bool_decide_eq_true_2 by (apply list_elem_of_further; assumption).
        reflexivity.
      * apply bool_decide_eq_false in E. rewrite bool_decide_eq_false_2; [reflexivity|].
        intros [?|?]%elem_of_cons; congruence.
Qed.

(** [makedirs] on an absent path with no regular file above it. *)
Lemma makedirs_ok p w :
  fs w !! p = None -> no_file_above (fs w) p ->
  Fs.makedirs p w
  = (set_fs (foldr (fun a f => <[a := Dir]> f) (fs w) (p :: Fs.ancestors p)) w, Ok tt).
Proof.
  intros Hp Hanc. unfold Fs.makedirs, Fs.exists_. rewrite Hp.
  replace (existsb _ (Fs.ancestors p)) with false; [reflexivity|].
  symmetry. apply not_true_iff_false. intros H. apply existsb_exists in H as (a & Ha & Hf).
  unfold no_file_above in Hanc. rewrite Forall_forall in Hanc.
  apply list_elem_of_In in Ha. specialize (Hanc a Ha).
  destruct (fs w !! a) as [[|c]|]; try discriminate. exact Hanc.
Qed.


Lemma lookup_rmtree (f : gmap pystr node) p k :
  filter (fun kv : pystr * node => Fs.below p kv.1 = false) (delete p f) !! k
  = if bool_decide (k = p) || Fs.below p k then None else f !! k.
Proof.
  destruct (decide (k = p)) as [->|Hne].
  - rewrite bool_decide_eq_true_2 by reflexivity. cbn [orb].
    apply map_lookup_filter_None. left. apply lookup_delete_eq.
  - rewrite bool_decide_eq_false_2 by assumption. cbn [orb].
    destruct (Fs.below p k) eqn:B.
    + apply map_lookup_filter_None. right. intros v _. cbn. congruence.
    + destruct (f !! k) as [v|] eqn:L.
      * apply map_lookup_filter_Some. split; [|exact B].
        rewrite lookup_delete_ne by congruence. exact L.
      * apply map_lookup_filter_None. left. rewrite lookup_delete_ne by congruence. exact L.
Qed.






(** ** Lemmas for C8 *)


(** ** Lemmas for C9 *)

Lemma lstrip_stop c x s : x <> c -> lstrip c (x :: s) = x :: s.
Proof. intros H. simpl. apply Ascii.eqb_neq in H. rewrite H. reflexivity. Qed.

(** [os.path.split] on a directory part, one slash and a last component. *)
Lemma split_dir_name head name :
  (exists c, last head = Some c /\ c <> "/"%char) -> "/"%char ∉ name ->
  OsPath.split (head ++ "/"%char :: name) = (head, name).
Proof.
  intros (c & Hlast & Hc) Hname. apply last_Some in Hlast as [h ->].
  unfold OsPath.split. rewrite rfind_last by assumption.
  replace ((h ++ [c]) ++ "/"%char :: name) with (((h ++ [c]) ++ ["/"%char]) ++ name)
    by (rewrite <- !app_assoc; reflexivity).
  replace (len (h ++ [c]) + 1) with (len ((h ++ [c]) ++ ["/"%char]))
    by (rewrite !len_app; reflexivity).
  rewrite slice_to_app, slice_from_app.
  assert (Hne : bool_decide ((h ++ [c]) ++ ["/"%char] = []) = false).
  { apply bool_decide_eq_false. destruct h; discriminate. }
  assert (Hall : all_char "/" ((h ++ [c]) ++ ["/"%char]) = false).
  { unfold all_char. rewrite !forallb_app. cbn [forallb].
    apply Ascii.eqb_neq in Hc. rewrite Hc. cbn [andb]. rewrite andb_false_r. reflexivity. }
  rewrite Hne, Hall. cbn [negb andb]. f_equal.
  unfold rstrip. rewrite !rev_app_distr. cbn [rev app].
  change (lstrip "/" ("/"%char :: c :: rev h)) with (lstrip "/" (c :: rev h)).
  rewrite lstrip_stop by assumption. cbn [rev]. rewrite rev_involutive. reflexivity.
Qed.

Lemma splitext_root_prefix s : exists n, fst (OsPath.splitext s) = take n s.
Proof.
  unfold OsPath.splitext. destruct (_ && _).
  - eexists. reflexivity.
  - exists (length s). cbn [fst]. symmetry. apply firstn_all.
Qed.

Lemma coalesced_name_prefix head name :
  (exists c, last head = Some c /\ c <> "/"%char) -> "/"%char ∉ name ->
  exists c rest, coalesced_name (head ++ "/"%char :: name) = Ok c
                 /\ head ++ "/"%char :: name = c ++ rest.
Proof.
  intros Hhead Hname. unfold coalesced_name.
  rewrite split_dir_name by assumption.
  destruct (truthy name).
  2: { exists head, ("/"%char :: name). auto. }
  destruct (splitext_root_prefix name) as [n ->].
  destruct (List.filter _ _) as [|x pos]; cbn [rbind py_min join].
  - exists (head ++ py "/" ++ take n name), (drop n name). split; [reflexivity|].
    rewrite <- !app_assoc. cbn [app py list_ascii_of_string].
    rewrite take_drop. reflexivity.
  - exists (head ++ py "/" ++ slice_to (take n name) (foldr Z.min x pos)),
           (drop (bound (take n name) (foldr Z.min x pos)) (take n name) ++ drop n name).
    split; [reflexivity|].
    rewrite <- !app_assoc. cbn [app py list_ascii_of_string].
    unfold slice_to. rewrite (app_assoc (take _ _)), !take_drop. reflexivity.
Qed.

Lemma drop_instance_prefix m :
  exists p rest, drop_instance m = Ok p /\ m = p ++ rest.
Proof.
  destruct (last_occurrence _SEPINST m) as [Hn | (b & r & -> & Hr)].
  - rewrite drop_instance_none by assumption. exists m, []. rewrite app_nil_r. auto.
  - rewrite drop_instance_last by assumption. destruct (int_ok r).
    + exists b, (_SEPINST :: r). auto.
    + exists (b ++ _SEPINST :: r), []. rewrite app_nil_r. auto.
Qed.

(** The base path of the backup is a prefix of the task path. *)
Lemma backup_base_prefix head name :
  (exists c, last head = Some c /\ c <> "/"%char) -> "/"%char ∉ name ->
  exists mainpath rest,
    backup_base (head ++ "/"%char :: name) = Ok mainpath
    /\ head ++ "/"%char :: name = mainpath ++ rest.
Proof.
  intros Hhead Hname.
  destruct (coalesced_name_prefix head name Hhead Hname) as (c & r1 & Hc & E1).
  destruct (drop_instance_prefix c) as (p & r2 & Hp & E2).
  exists p, (r2 ++ r1). unfold backup_base. rewrite Hc. cbn [rbind].
  split; [exact Hp|]. rewrite E1, E2, <- app_assoc. reflexivity.
Qed.

Lemma lookup_filter_key (g : pystr -> bool) (b : bool) (f : gmap pystr node) k :
  filter (fun kv : pystr * node => g kv.1 = b) f !! k
  = if bool_decide (g k = b) then f !! k else None.
Proof.
  destruct (bool_decide (g k = b)) eqn:E.
  - apply bool_decide_eq_true in E. destruct (f !! k) as [v|] eqn:L.
    + apply map_lookup_filter_Some. auto.
    + apply map_lookup_filter_None. auto.
  - apply bool_decide_eq_false in E. apply map_lookup_filter_None. right.
    intros v _. exact E.
Qed.

Lemma no_file_above_filter (g : pystr -> bool) (b : bool) (f : gmap pystr node) p :
  no_file_above f p ->
  no_file_above (filter (fun kv : pystr * node => g kv.1 = b) f) p.
Proof.
  unfold no_file_above. rewrite !Forall_forall. intros H a Ha. specialize (H a Ha).
  rewrite lookup_filter_key. destruct (bool_decide (g a = b)); [exact H | exact I].
Qed.

(** Two calls in a row for a task path made of a directory part, one slash
    and a last component, that exists and is not empty: the first call makes
    one backup, of every path that starts with the base path, and leaves
    the task path as an empty directory; the second call changes nothing. *)
Lemma preparePath_twice (head name : pystr) (w : world) :
  (exists c, last head = Some c /\ c <> "/"%char) ->
  "/"%char ∉ name ->
  Fs.exists_ (fs w) (head ++ "/"%char :: name) = true ->
  dirempty (fs w) (head ++ "/"%char :: name) = false ->
  no_file_above (fs w) (head ++ "/"%char :: name) ->
  let taskpath := head ++ "/"%char :: name in
  exists mainpath rest w1,
    backup_base taskpath = Ok mainpath
    /\ taskpath = mainpath ++ rest
    /\ preparePath taskpath w = (w1, Ok tt)
    /\ backups w1
       = backups w ++ [filter (fun kv => Fs.has_prefix mainpath kv.1 = true) (fs w)]
    /\ fs w1 !! taskpath = Some Dir
    /\ dirempty (fs w1) taskpath = true
    /\ preparePath taskpath w1 = (w1, Ok tt).
Proof.
  intros Hhead Hname Hexists Hfull Habove taskpath.
  destruct (backup_base_prefix head name Hhead Hname) as (m & rest & Hb & E).
  fold taskpath in Hb, E, Hexists, Hfull, Habove.
  assert (Hpre : Fs.has_prefix m taskpath = true).
  { unfold Fs.has_prefix. apply startswith_spec. eauto. }
  set (moved := filter (fun kv : pystr * node => Fs.has_prefix m kv.1 = true) (fs w)).
  set (f' := filter (fun kv : pystr * node => Fs.has_prefix m kv.1 = false) (fs w)).
  set (w' := mkWorld f' (stdout w) (stderr w) (backups w ++ [moved]) (submitted w) (forwarded w)).
  set (f1 := foldr (fun a f => <[a := Dir]> f) f' (taskpath :: Fs.ancestors taskpath)).
  exists m, rest, (set_fs f1 w').
  assert (Hmoved : bool_decide (moved = ∅) = false).
  { apply bool_decide_eq_false. intros He.
    assert (L : moved !! taskpath = None) by (rewrite He; apply lookup_empty).
    unfold moved in L. rewrite lookup_filter_key, bool_decide_eq_true_2 in L by assumption.
    unfold Fs.exists_ in Hexists. rewrite L in Hexists. discriminate. }
  assert (Hgone : f' !! taskpath = None).
  { unfold f'. rewrite lookup_filter_key, bool_decide_eq_false_2; [reflexivity|].
    rewrite Hpre. discriminate. }
  assert (Hbackup : backupPath m true w = (w', Ok tt)).
  { unfold backupPath. fold moved. rewrite Hmoved. reflexivity. }
  assert (Hmk : Fs.makedirs taskpath w' = (set_fs f1 w', Ok tt)).
  { apply makedirs_ok; [exact Hgone|]. apply no_file_above_filter, Habove. }
  assert (Hdir : f1 !! taskpath = Some Dir).
  { unfold f1. rewrite lookup_mkdirs, bool_decide_eq_true_2 by apply list_elem_of_here.
    reflexivity. }
  assert (Hempty : dirempty f1 taskpath = true).
  { unfold dirempty, Fs.isdir. rewrite Hdir. cbn [andb].
    apply bool_decide_eq_true. apply map_empty. intros k.
    rewrite (lookup_filter_key (Fs.below taskpath) true).
    destruct (bool_decide (Fs.below taskpath k = true)) eqn:B; [|reflexivity].
    apply bool_decide_eq_true in B.
    unfold f1. rewrite lookup_mkdirs, bool_decide_eq_false_2.
    - unfold f'. rewrite lookup_filter_key, bool_decide_eq_false_2; [reflexivity|].
      apply below_spec in B as [r ->]. unfold Fs.has_prefix.
      rewrite E, <- app_assoc, startswith_app. discriminate.
    - intros [->|Hin]%elem_of_cons.
      + rewrite not_below_self in B. discriminate.
      + exact (ancestor_not_below _ _ B Hin). }
  split; [exact Hb|]. split; [exact E|].
  split.
  { unfold preparePath. unfold bind at 1, gets. rewrite Hexists, Hfull. cbn [negb andb when].
    unfold bind at 1. unfold bind at 1, lift. rewrite Hb, Hbackup.
    unfold bind at 1, gets, Fs.exists_. change (fs w') with f'. rewrite Hgone.
    cbn [negb when]. exact Hmk. }
  split; [reflexivity|].
  split; [exact Hdir|].
  split; [exact Hempty|].
  unfold preparePath. unfold bind at 1, gets. change (fs (set_fs f1 w')) with f1.
  unfold Fs.exists_ at 1. rewrite Hdir, Hempty. cbn [negb andb when].
  unfold bind at 1, ret. unfold bind at 1, gets. change (fs (set_fs f1 w')) with f1.
  unfold Fs.exists_. rewrite Hdir. reflexivity.
Qed.

(** * Properties of the rest of the code *)

(** ** Paths *)

Lemma rfind_from_app c (x y : pystr) : forall i acc,
  rfind_from c (x ++ y) i acc = rfind_from c y (i + len x) (rfind_from c x i acc).
Proof.
  induction x as [|a x IH]; intros i acc; simpl.
  - rewrite len_nil. f_equal. lia.
  - rewrite IH, len_cons. f_equal. lia.
Qed.

Lemma rfind_app_notin c (x y : pystr) : c ∉ y -> rfind c (x ++ y) = rfind c x.
Proof.
  intros H. unfold rfind. rewrite rfind_from_app. apply rfind_from_notin, H.
Qed.

Lemma slice_from_zero (s : pystr) : slice_from s 0 = s.
Proof.
  unfold slice_from, bound. cbn [Z.ltb Z.compare].
  pose proof (len_nonneg s).
  replace (Z.to_nat (Z.min (Z.max 0 0) (len s))) with 0%nat by lia. reflexivity.
Qed.

Lemma split_tail (p : pystr) : snd (OsPath.split p) = slice_from p (rfind "/" p + 1).
Proof. reflexivity. Qed.

Lemma split_tail_nosep (p : pystr) : "/"%char ∉ p -> snd (OsPath.split p) = p.
Proof.
  intros H. rewrite split_tail, rfind_notin by assumption. apply slice_from_zero.
Qed.

Lemma split_tail_last (b r : pystr) :
  "/"%char ∉ r -> snd (OsPath.split (b ++ "/"%char :: r)) = r.
Proof.
  intros H. rewrite split_tail, rfind_last by assumption. apply slice_from_after.
Qed.

Lemma prefix_notin (c : ascii) (s : pystr) n : c ∉ s -> c ∉ take n s.
Proof.
  intros H Hin. apply H. rewrite <- (take_drop n s). apply elem_of_app. left. exact Hin.
Qed.

(** [splitext] works on the last component of a path. *)
Lemma splitext_component (b r : pystr) :
  "/"%char ∉ r ->
  OsPath.splitext (b ++ "/"%char :: r)
  = (b ++ "/"%char :: fst (OsPath.splitext r), snd (OsPath.splitext r)).
Proof.
  intros Hs. unfold OsPath.splitext.
  rewrite (rfind_last "/" b r) by assumption. rewrite (rfind_notin "/" r) by assumption.
  pose proof (len_nonneg b) as Hb.
  destruct (last_occurrence "." r) as [Hd | (s & e & -> & He)].
  - replace (b ++ "/"%char :: r) with ((b ++ ["/"%char]) ++ r)
      by (rewrite <- app_assoc; reflexivity).
    rewrite rfind_app_notin by assumption.
    rewrite rfind_app_notin by (rewrite not_elem_of_cons; split; [discriminate | apply not_elem_of_nil]).
    rewrite (rfind_notin "." r) by assumption.
    pose proof (rfind_range "." b) as Hr.
    destruct (len b <? rfind "." b) eqn:E; [apply Z.ltb_lt in E; lia|].
    cbn [andb Z.ltb Z.compare fst snd]. rewrite <- app_assoc. reflexivity.
  - apply not_elem_of_app in Hs as [Hs1 Hs2].
    rewrite (rfind_last "." s e) by assumption.
    replace (b ++ "/"%char :: s ++ "."%char :: e) with ((b ++ "/"%char :: s) ++ "."%char :: e)
      by (rewrite <- app_assoc; reflexivity).
    rewrite (rfind_last "." (b ++ "/"%char :: s) e) by assumption.
    rewrite slice_to_app, slice_from_app, (slice_to_app s), (slice_from_app s).
    pose proof (len_nonneg s) as Hls.
    replace (-1 + 1) with 0 by lia. rewrite slice_prefix.
    assert (Hsl : slice ((b ++ "/"%char :: s) ++ "."%char :: e) (len b + 1) (len (b ++ "/"%char :: s)) = s).
    { replace ((b ++ "/"%char :: s) ++ "."%char :: e)
        with ((b ++ ["/"%char]) ++ s ++ "."%char :: e)
        by (rewrite <- !app_assoc; reflexivity).
      replace (len b + 1) with (len (b ++ ["/"%char])) by (rewrite len_app; reflexivity).
      replace (len (b ++ "/"%char :: s)) with (len (b ++ ["/"%char]) + len s)
        by (rewrite !len_app, !len_cons, len_nil; lia).
      apply slice_app. }
    rewrite Hsl.
    assert (E1 : (len b <? len (b ++ "/"%char :: s)) = true).
    { apply Z.ltb_lt. rewrite len_app, len_cons. lia. }
    assert (E2 : (-1 <? len s) = true) by (apply Z.ltb_lt; lia).
    rewrite E1, E2. cbn [andb].
    destruct (existsb _ s); cbn [fst snd]; [reflexivity|].
    rewrite <- app_assoc. reflexivity.
Qed.

Lemma splitext_root_nosep (r : pystr) : "/"%char ∉ r -> "/"%char ∉ fst (OsPath.splitext r).
Proof.
  intros H. destruct (splitext_root_prefix r) as [n ->]. apply prefix_notin, H.
Qed.

(** The two orders in which the functions of the module take the task name
    from a path, extension first or last component first, agree. *)
Lemma caption_orders (p : pystr) :
  snd (OsPath.split (fst (OsPath.splitext p))) = task_caption p.
Proof.
  unfold task_caption.
  destruct (last_occurrence "/" p) as [Hn | (b & r & -> & Hr)].
  - rewrite (split_tail_nosep p) by assumption.
    apply split_tail_nosep, splitext_root_nosep, Hn.
  - rewrite splitext_component, split_tail_last by assumption. cbn [fst].
    apply split_tail_last, splitext_root_nosep, Hr.
Qed.

(** ** [preparePath] *)

Lemma free_of_notin (cs s : pystr) c : free_of cs s = true -> c ∈ cs -> c ∉ s.
Proof.
  unfold free_of. rewrite forallb_forall. intros H Hc Hin.
  apply list_elem_of_In in Hin. specialize (H c Hin).
  apply negb_true_iff, bool_decide_eq_false in H. contradiction.
Qed.

Lemma free_part_notin (cs : pystr) sep o c :
  free_part cs o = true -> c ∈ cs -> sep <> c -> c ∉ opt_part sep o.
Proof.
  destruct o as [s|]; cbn [free_part opt_part]; intros H Hc Hs.
  - apply not_elem_of_cons. split; [congruence | eapply free_of_notin; eauto].
  - apply not_elem_of_nil.
Qed.

Lemma splitext_plain (s : pystr) : "."%char ∉ s -> OsPath.splitext s = (s, []).
Proof.
  intros H. unfold OsPath.splitext. rewrite (rfind_notin "." s) by assumption.
  pose proof (rfind_range "/" s).
  destruct (rfind "/" s <? -1) eqn:E; [apply Z.ltb_lt in E; lia | reflexivity].
Qed.

Lemma existsb_not_dot (s : pystr) : s <> [] -> "."%char ∉ s -> existsb not_dot s = true.
Proof.
  destruct s as [|c s]; [congruence|]. intros _ H. apply not_elem_of_cons in H as [H _].
  assert (E : Ascii.eqb c "." = false) by (apply Ascii.eqb_neq; congruence).
  cbn [existsb]. unfold not_dot at 1. rewrite E. reflexivity.
Qed.

(** A last component is never cut as an instance: what follows the
    separator holds a slash. *)
Lemma drop_instance_component (head base : pystr) :
  _SEPINST ∉ base ->
  drop_instance (head ++ "/"%char :: base) = Ok (head ++ "/"%char :: base).
Proof.
  intros Hb.
  destruct (last_occurrence _SEPINST head) as [Hn | (h1 & h2 & -> & Hh2)].
  - apply drop_instance_none. rewrite not_elem_of_app, not_elem_of_cons.
    repeat split; try assumption. discriminate.
  - replace ((h1 ++ _SEPINST :: h2) ++ "/"%char :: base)
      with (h1 ++ _SEPINST :: (h2 ++ "/"%char :: base))
      by (rewrite <- app_assoc; reflexivity).
    rewrite drop_instance_last.
    2: { rewrite not_elem_of_app, not_elem_of_cons. repeat split; try assumption. discriminate. }
    destruct (int_ok (h2 ++ "/"%char :: base)) eqn:E; [|reflexivity].
    exfalso. eapply (int_ok_no_char _ "/"%char); [exact E | reflexivity |].
    apply elem_of_app. right. apply list_elem_of_here.
Qed.

Lemma coalesced_cut (head stem base : pystr) :
  (exists c, last head = Some c /\ c <> "/"%char) ->
  "/"%char ∉ stem -> "."%char ∉ stem -> stem <> [] ->
  (let pos := List.filter (fun x => 1 <=? x) (map (fun c => rfind c stem) [_SEPINST; _SEPPARS]) in
   match pos with
   | [] => Ok stem
   | _ :: _ => rbind (py_min pos) (fun p => Ok (slice_to stem p))
   end = Ok base) ->
  forall ext, free_part (py "/.") ext = true ->
  coalesced_name (head ++ "/"%char :: stem ++ opt_part "." ext) = Ok (head ++ "/"%char :: base).
Proof.
  intros Hhead Hs Hd Hne Hcut ext He. unfold coalesced_name.
  assert (Hname : "/"%char ∉ stem ++ opt_part "." ext).
  { rewrite not_elem_of_app. split; [assumption|].
    eapply free_part_notin; [exact He | | discriminate]. decide_it. }
  rewrite split_dir_name by assumption.
  assert (Ht : truthy (stem ++ opt_part "." ext) = true).
  { unfold truthy. apply negb_true_iff, bool_decide_eq_false. destruct stem; [congruence | discriminate]. }
  rewrite Ht.
  assert (Hx : OsPath.splitext (stem ++ opt_part "." ext) = (stem, opt_part "." ext)).
  { destruct ext as [e|]; cbn [opt_part free_part] in *.
    - apply (splitext_last [] stem e); try assumption.
      + eapply free_of_notin; [exact He | decide_it].
      + eapply free_of_notin; [exact He | decide_it].
      + apply existsb_not_dot; assumption.
    - rewrite app_nil_r. apply splitext_plain, Hd. }
  rewrite Hx. cbn [fst]. cbv zeta in Hcut. rewrite Hcut. reflexivity.
Qed.

(** The base path of a task path whose last component is a base name with
    an optional instance, optional parameters and an optional last
    extension. *)
Lemma variant_base_path (head base : pystr) (inst params ext : option pystr) :
  (exists c, last head = Some c /\ c <> "/"%char) ->
  base <> [] ->
  free_of (py "/^!.") base = true ->
  free_part (py "/^!.") inst = true ->
  free_part (py "/^!.") params = true ->
  free_part (py "/.") ext = true ->
  backup_base (head ++ "/"%char :: variant_name base inst params ext)
  = Ok (head ++ "/"%char :: base).
Proof.
  intros Hhead Hbase Hb Hi Hp He.
  assert (Hin : forall c, c ∈ py "/^!." -> c ∉ base).
  { intros c Hc. eapply free_of_notin; eauto. }
  set (stem := base ++ opt_part _SEPINST inst ++ opt_part _SEPPARS params).
  assert (Hstem : forall c, c ∈ py "/." -> c ∉ stem).
  { intros c Hc. unfold stem. rewrite !not_elem_of_app.
    assert (Hc' : c ∈ py "/^!.").
    { apply list_elem_of_In in Hc. apply list_elem_of_In. cbn in *. tauto. }
    split; [auto|]. split.
    - eapply free_part_notin; eauto.
      apply list_elem_of_In in Hc. cbn in Hc. intros <-. unfold _SEPINST in Hc.
      destruct Hc as [?|[?|[]]]; discriminate.
    - eapply free_part_notin; eauto.
      apply list_elem_of_In in Hc. cbn in Hc. intros <-. unfold _SEPPARS in Hc.
      destruct Hc as [?|[?|[]]]; discriminate. }
  unfold backup_base, variant_name.
  replace (base ++ opt_part _SEPINST inst ++ opt_part _SEPPARS params ++ opt_part "." ext)
    with (stem ++ opt_part "." ext) by (unfold stem; rewrite <- !app_assoc; reflexivity).
  rewrite (coalesced_cut head stem base); try assumption.
  - cbn [rbind]. apply drop_instance_component. apply Hin. decide_it.
  - apply Hstem. decide_it.
  - apply Hstem. decide_it.
  - unfold stem. destruct base; [congruence | discriminate].
  - cbv zeta. cbn [map].
    pose proof (len_nonneg base) as Hlb.
    assert (Hlen : 1 <= len base).
    { destruct base; [congruence|]. rewrite len_cons. pose proof (len_nonneg base). lia. }
    assert (Hib : _SEPINST ∉ base) by (apply Hin; decide_it).
    assert (Hpb : _SEPPARS ∉ base) by (apply Hin; decide_it).
    unfold stem.
    destruct inst as [i|], params as [p|]; cbn [opt_part free_part app] in *.
    + assert (Hii : _SEPINST ∉ i) by (eapply free_of_notin; [exact Hi | decide_it]).
      assert (Hpi : _SEPPARS ∉ i) by (eapply free_of_notin; [exact Hi | decide_it]).
      assert (Hip : _SEPINST ∉ p) by (eapply free_of_notin; [exact Hp | decide_it]).
      assert (Hpp : _SEPPARS ∉ p) by (eapply free_of_notin; [exact Hp | decide_it]).
      rewrite (rfind_last _SEPINST base (i ++ _SEPPARS :: p)).
      2: { rewrite not_elem_of_app, not_elem_of_cons. repeat split; try assumption. discriminate. }
      replace (base ++ _SEPINST :: i ++ _SEPPARS :: p) with ((base ++ _SEPINST :: i) ++ _SEPPARS :: p)
        by (rewrite <- app_assoc; reflexivity).
      rewrite (rfind_last _SEPPARS (base ++ _SEPINST :: i) p) by assumption.
      pose proof (len_nonneg i) as Hli.
      assert (E1 : (1 <=? len base) = true) by (apply Z.leb_le; lia).
      assert (E2 : (1 <=? len (base ++ _SEPINST :: i)) = true).
      { apply Z.leb_le. rewrite len_app, len_cons. lia. }
      cbn [List.filter]. rewrite E1, E2. cbn [py_min foldr rbind]. f_equal.
      replace (Z.min (len (base ++ _SEPINST :: i)) (len base)) with (len base)
        by (rewrite len_app, len_cons; lia).
      rewrite <- app_assoc. apply slice_to_app.
    + assert (Hpi : _SEPPARS ∉ i) by (eapply free_of_notin; [exact Hi | decide_it]).
      assert (Hii : _SEPINST ∉ i) by (eapply free_of_notin; [exact Hi | decide_it]).
      rewrite app_nil_r.
      rewrite (rfind_last _SEPINST base i) by assumption.
      rewrite (rfind_notin _SEPPARS).
      2: { rewrite not_elem_of_app, not_elem_of_cons. repeat split; try assumption. discriminate. }
      assert (E1 : (1 <=? len base) = true) by (apply Z.leb_le; lia).
      cbn [List.filter]. rewrite E1. cbn [py_min foldr rbind Z.leb Z.compare]. f_equal.
      apply slice_to_app.
    + assert (Hip : _SEPINST ∉ p) by (eapply free_of_notin; [exact Hp | decide_it]).
      assert (Hpp : _SEPPARS ∉ p) by (eapply free_of_notin; [exact Hp | decide_it]).
      cbn [app].
      rewrite (rfind_last _SEPPARS base p) by assumption.
      rewrite (rfind_notin _SEPINST).
      2: { rewrite not_elem_of_app, not_elem_of_cons. repeat split; try assumption. discriminate. }
      assert (E1 : (1 <=? len base) = true) by (apply Z.leb_le; lia).
      cbn [List.filter]. rewrite E1. cbn [py_min foldr rbind Z.leb Z.compare]. f_equal.
      apply slice_to_app.
    + cbn [app]. rewrite app_nil_r.
      rewrite !rfind_notin by assumption. reflexivity.
Qed.

(** X1 (lines 64-87): the results of one network are backed up together.
    For a task path whose last component is a base name, optionally
    followed by an instance, by parameters and by a last extension, the
    base path handed to the backup is the directory part with the bare
    base name. *)
Theorem backup_base_variants (head base : pystr) (inst params ext : option pystr)
    (Hhead : exists c, last head = Some c /\ c <> "/"%char)
    (Hbase : base <> [])
    (Hb : free_of (py "/^!.") base = true)
    (Hi : free_part (py "/^!.") inst = true)
    (Hp : free_part (py "/^!.") params = true)
    (He : free_part (py "/.") ext = true) :
  backup_base (head ++ "/"%char :: variant_name base inst params ext)
  = Ok (head ++ "/"%char :: base).
Proof. apply variant_base_path; assumption. Qed.

Lemma backup_base_variants_witness :
  backup_base (py "results/scp/clusters/net^2!k3.1#12") = Ok (py "results/scp/clusters/net")
  /\ backup_base (py "results/scp/clusters/net!k4.2") = Ok (py "results/scp/clusters/net")
  /\ backup_base (py "results/scp/clusters/net") = Ok (py "results/scp/clusters/net").
Proof.
  split; [|split].
  - apply (backup_base_variants (py "results/scp/clusters") (py "net")
             (Some (py "2")) (Some (py "k3")) (Some (py "1#12")));
      [exists "s"%char; split; [reflexivity | discriminate] | discriminate
      | reflexivity | reflexivity | reflexivity | reflexivity].
  - apply (backup_base_variants (py "results/scp/clusters") (py "net")
             None (Some (py "k4")) (Some (py "2")));
      [exists "s"%char; split; [reflexivity | discriminate] | discriminate
      | reflexivity | reflexivity | reflexivity | reflexivity].
  - apply (backup_base_variants (py "results/scp/clusters") (py "net") None None None);
      [exists "s"%char; split; [reflexivity | discriminate] | discriminate
      | reflexivity | reflexivity | reflexivity | reflexivity].
Defined.

Lemma split_plain (p : pystr) : "/"%char ∉ p -> OsPath.split p = ([], p).
Proof.
  intros H. unfold OsPath.split. rewrite rfind_notin by assumption.
  replace (-1 + 1) with 0 by lia. rewrite slice_from_zero.
  assert (E : slice_to p 0 = []).
  { unfold slice_to, bound. cbn [Z.ltb Z.compare]. pose proof (len_nonneg p).
    replace (Z.to_nat (Z.min (Z.max 0 0) (len p))) with 0%nat by lia. reflexivity. }
  rewrite E. reflexivity.
Qed.

Lemma drop_instance_first c (m : pystr) :
  c <> _SEPINST -> exists r, drop_instance (c :: m) = Ok (c :: r).
Proof.
  intros Hc.
  destruct (last_occurrence _SEPINST (c :: m)) as [Hn | (b & r & E & Hr)].
  - rewrite drop_instance_none by assumption. eauto.
  - rewrite E, drop_instance_last by assumption.
    destruct (int_ok r); [|rewrite <- E; eauto].
    destruct b as [|x b]; [injection E as -> _; congruence|].
    injection E as -> _. eauto.
Qed.

(** X2 (lines 66-75): for a task path without directory part the base path
    handed to the backup starts with a slash: it names an entry of the root
    directory, and no path that starts with the task path is covered. *)
Theorem backup_base_no_directory (taskpath : pystr)
    (Hplain : "/"%char ∉ taskpath) (Hname : taskpath <> []) :
  exists r, backup_base taskpath = Ok ("/"%char :: r)
            /\ forall k, Fs.has_prefix taskpath k = true
                         -> Fs.has_prefix ("/"%char :: r) k = false.
Proof.
  unfold backup_base, coalesced_name. rewrite split_plain by assumption.
  assert (Ht : truthy taskpath = true).
  { unfold truthy. apply negb_true_iff, bool_decide_eq_false. assumption. }
  rewrite Ht.
  assert (Hc : exists n, match List.filter (fun x => 1 <=? x)
                                 (map (fun c => rfind c (OsPath.splitext taskpath).1)
                                      [_SEPINST; _SEPPARS]) with
                         | [] => Ok (OsPath.splitext taskpath).1
                         | _ :: _ => rbind (py_min (List.filter (fun x => 1 <=? x)
                                 (map (fun c => rfind c (OsPath.splitext taskpath).1)
                                      [_SEPINST; _SEPPARS])))
                                       (fun p => Ok (slice_to (OsPath.splitext taskpath).1 p))
                         end = Ok n).
  { destruct (List.filter _ _); cbn [py_min rbind]; eauto. }
  destruct Hc as [n Hn]. rewrite Hn. cbn [rbind join app py list_ascii_of_string].
  destruct (drop_instance_first "/" n) as [r Hr]; [discriminate|].
  exists r. split; [exact Hr|].
  intros k Hk. unfold Fs.has_prefix in *.
  apply startswith_spec in Hk as [t ->].
  destruct taskpath as [|c p]; [congruence|].
  apply not_elem_of_cons in Hplain as [Hc _].
  cbn [app startswith]. apply Ascii.eqb_neq in Hc. rewrite Hc. reflexivity.
Qed.

Lemma backup_base_no_directory_witness :
  exists r, backup_base (py "net^1") = Ok ("/"%char :: r)
            /\ forall k, Fs.has_prefix (py "net^1") k = true
                         -> Fs.has_prefix ("/"%char :: r) k = false.
Proof.
  apply (backup_base_no_directory (py "net^1")); [decide_it | discriminate].
Defined.

(** On an absent path [preparePath] is [os.makedirs]. *)
Lemma preparePath_absent taskpath w :
  fs w !! taskpath = None -> preparePath taskpath w = Fs.makedirs taskpath w.
Proof.
  intros Habs. unfold preparePath. unfold bind at 1, gets, Fs.exists_. rewrite Habs.
  cbn [andb when]. unfold bind at 1, ret. unfold bind at 1. rewrite Habs. reflexivity.
Qed.

Lemma no_file_aboveb_ok (f : gmap pystr node) p :
  no_file_aboveb f p = true -> no_file_above f p.
Proof.
  unfold no_file_aboveb, no_file_above. rewrite forallb_forall, Forall_forall.
  intros H a Ha. apply list_elem_of_In in Ha. specialize (H a Ha).
  destruct (f !! a) as [[|c]|]; [exact I | discriminate | exact I].
Qed.

Ltac no_file_it := apply no_file_aboveb_ok; vm_compute; reflexivity.

Lemma mkdirs_keeps (f : gmap pystr node) (p k : pystr) (n : node) :
  f !! p = None -> no_file_above f p -> f !! k = Some n ->
  foldr (fun a f => <[a := Dir]> f) f (p :: Fs.ancestors p) !! k = Some n.
Proof.
  intros Habs Habove Hk. rewrite lookup_mkdirs.
  destruct (bool_decide (k ∈ p :: Fs.ancestors p)) eqn:E; [|exact Hk].
  apply bool_decide_eq_true in E. apply elem_of_cons in E as [->|Hin]; [congruence|].
  unfold no_file_above in Habove. rewrite Forall_forall in Habove.
  specialize (Habove k Hin). rewrite Hk in Habove.
  destruct n; [reflexivity | contradiction].
Qed.

(** [preparePath] on an absent path with no regular file above it. *)
Lemma preparePath_creates (taskpath : pystr) (w : world) :
  fs w !! taskpath = None -> no_file_above (fs w) taskpath ->
  preparePath taskpath w
  = (set_fs (foldr (fun a f => <[a := Dir]> f) (fs w) (taskpath :: Fs.ancestors taskpath)) w,
     Ok tt).
Proof. intros Habs Habove. rewrite preparePath_absent by assumption. apply makedirs_ok; assumption. Qed.

(** X3 (lines 64, 89-90): on a path that does not exist, with no regular
    file above it, [preparePath] makes no backup and prints nothing; it
    creates the path and its missing ancestors as directories, and every
    path that existed stays as it was. *)
Theorem preparePath_fresh (taskpath : pystr) (w : world)
    (Habs : fs w !! taskpath = None)
    (Habove : no_file_above (fs w) taskpath) :
  exists w', preparePath taskpath w = (w', Ok tt)
    /\ backups w' = backups w /\ stdout w' = stdout w /\ stderr w' = stderr w
    /\ Fs.isdir (fs w') taskpath = true
    /\ (forall k n, fs w !! k = Some n -> fs w' !! k = Some n)
    /\ (forall k, fs w !! k = None ->
          fs w' !! k = if bool_decide (k ∈ taskpath :: Fs.ancestors taskpath)
                       then Some Dir else None).
Proof.
  rewrite preparePath_creates by assumption.
  eexists. split; [reflexivity|]. cbn [backups stdout stderr set_fs fs].
  repeat (split; [reflexivity|]).
  split; [|split].
  - unfold Fs.isdir. rewrite lookup_mkdirs, bool_decide_eq_true_2 by apply list_elem_of_here.
    reflexivity.
  - intros k n Hk. apply mkdirs_keeps; assumption.
  - intros k Hk. rewrite lookup_mkdirs, Hk. reflexivity.
Qed.

Lemma preparePath_fresh_witness :
  exists w', preparePath (py "results/a/clusters/net") world_logs = (w', Ok tt)
    /\ backups w' = backups world_logs /\ stdout w' = stdout world_logs
    /\ stderr w' = stderr world_logs
    /\ Fs.isdir (fs w') (py "results/a/clusters/net") = true
    /\ (forall k n, fs world_logs !! k = Some n -> fs w' !! k = Some n)
    /\ (forall k, fs world_logs !! k = None ->
          fs w' !! k = if bool_decide (k ∈ py "results/a/clusters/net"
                                         :: Fs.ancestors (py "results/a/clusters/net"))
                       then Some Dir else None).
Proof.
  apply (preparePath_fresh (py "results/a/clusters/net") world_logs);
    [vm_compute; reflexivity | no_file_it].
Defined.

(** X4 (lines 89-90): when the path does not exist and a regular file lies
    above it, [preparePath] raises OSError and changes nothing. *)
Theorem preparePath_blocked (taskpath above content : pystr) (w : world)
    (Habs : fs w !! taskpath = None)
    (Hanc : above ∈ Fs.ancestors taskpath)
    (Hfile : fs w !! above = Some (File content)) :
  preparePath taskpath w = (w, Raise OSError).
Proof.
  rewrite preparePath_absent by assumption.
  unfold Fs.makedirs, Fs.exists_. rewrite Habs.
  replace (existsb _ (Fs.ancestors taskpath)) with true; [reflexivity|].
  symmetry. apply existsb_exists. exists above. split.
  - apply list_elem_of_In, Hanc.
  - rewrite Hfile. reflexivity.
Qed.

Lemma preparePath_blocked_witness :
  preparePath (py "results/a/mod/net.mod/x") world_rerun = (world_rerun, Raise OSError).
Proof.
  apply (preparePath_blocked _ (py "results/a/mod/net.mod") (py "0.1" ++ tab ++ py "1" ++ nl));
    [vm_compute; reflexivity | decide_it | vm_compute; reflexivity].
Defined.

(** ** [evalGeneric] *)

(** X5 (lines 111-116): a call whose arguments fail one of the opening
    assertions (an empty base file, measure or algorithm name; a path-id
    that does not start with the separator; a base file without a name or
    with a second extension left in its name) ends in an AssertionError
    before anything is read, written, printed or run. *)
Theorem evalGeneric_rejects
    (pool_error : job -> option pystr) (task_hook : hook)
    (evalname algname basefile measdir pathid : pystr) (evalfile : emitter)
    (tidy : bool) (w : world)
    (Hpre : preconditions evalname algname basefile pathid = false) :
  evalGeneric pool_error task_hook evalname algname basefile measdir evalfile pathid tidy w
  = (w, Raise AssertionError).
Proof.
  unfold preconditions in Hpre. unfold evalGeneric.
  unfold bind at 1.
  destruct (truthy basefile && truthy evalname && truthy algname) eqn:H1;
    cbn [assert ret raise]; [|reflexivity].
  cbn [andb] in Hpre. cbv zeta in Hpre.
  unfold bind at 1, lift.
  destruct pathid as [|c r].
  - change (truthy []) with false. cbv iota.
    unfold bind at 1. cbn [assert ret]. unfold bind at 1.
    cbn [andb] in Hpre. rewrite Hpre. reflexivity.
  - replace (truthy (c :: r)) with true by reflexivity.
    change (getitem (c :: r) 0) with (getitem ([] ++ c :: r) (len [])).
    rewrite getitem_app. cbn [rbind].
    destruct (Ascii.eqb c _SEPPATHID) eqn:H2.
    + unfold bind at 1. cbn [assert ret]. unfold bind at 1.
      cbn [andb] in Hpre. rewrite Hpre. reflexivity.
    + unfold bind at 1. reflexivity.
Qed.

Lemma evalGeneric_rejects_witness :
  evalGeneric (fun _ => None) HookSet (py "mod") (py "a") (py "nets/net.1.cnl") _MODDIR
              (modEvaluate (py "nets/net.1.cnl") 60) [] true world_shuffles
  = (world_shuffles, Raise AssertionError).
Proof.
  apply evalGeneric_rejects. vm_compute. reflexivity.
Defined.

Lemma format_warn_interrupted a b :
  format warn_interrupted [a; b] = Ok (interrupted_warning a b).
Proof. unfold interrupted_warning. rewrite <- (app_nil_r b) at 2. vm_compute. reflexivity. Qed.

Lemma refusals_cons pool_error j js :
  refusals pool_error (j :: js)
  = match pool_error j with
    | Some err => interrupted_warning (job_name j) err :: refusals pool_error js
    | None => refusals pool_error js
    end.
Proof. unfold refusals. cbn. destruct (pool_error j); reflexivity. Qed.

Lemma accepted_cons pool_error j js :
  accepted pool_error (j :: js)
  = match pool_error j with
    | Some _ => accepted pool_error js
    | None => j :: accepted pool_error js
    end.
Proof. unfold accepted. cbn. destruct (pool_error j); reflexivity. Qed.

Lemma forM_execute pool_error (js : list job) : forall w,
  forM js (execute pool_error) w
  = (mkWorld (fs w) (stdout w) (stderr w ++ refusals pool_error js) (backups w)
             (submitted w ++ accepted pool_error js) (forwarded w), Ok tt).
Proof.
  induction js as [|j js IH]; intros w.
  - cbn [forM]. change (refusals pool_error []) with (@nil pystr).
    change (accepted pool_error []) with (@nil job).
    rewrite !app_nil_r. destruct w; reflexivity.
  - cbn [forM]. unfold bind at 1. unfold execute at 1.
    rewrite refusals_cons, accepted_cons.
    destruct (pool_error j) as [err|].
    + unfold print_err_fmt, bind, lift. rewrite format_warn_interrupted. unfold print_err.
      rewrite IH. cbn [fs stdout stderr backups submitted forwarded].
      rewrite <- app_assoc. reflexivity.
    + rewrite IH. cbn [fs stdout stderr backups submitted forwarded].
      rewrite <- app_assoc. reflexivity.
Qed.

(** X6 (lines 222-228): once jobs were built, the final loop never raises:
    the pool receives, in the order of their creation, the jobs it takes,
    and each job it refuses costs one warning on the error stream, while
    the later jobs are still offered.  Nothing else changes. *)
Theorem run_jobs_outcome (pool_error : job -> option pystr) (algname : pystr)
    (st : locals) (w : world)
    (Hjobs : jobs st <> []) :
  run_jobs pool_error algname st w
  = (mkWorld (fs w) (stdout w) (stderr w ++ refusals pool_error (jobs st)) (backups w)
             (submitted w ++ accepted pool_error (jobs st)) (forwarded w), Ok tt).
Proof.
  unfold run_jobs. destruct (jobs st) as [|j js] eqn:E; [congruence|].
  apply forM_execute.
Qed.

Lemma run_jobs_outcome_witness :
  run_jobs (fun j => if bool_decide (job_jobsuff j = py "1") then Some (py "busy") else None)
           (py "a") (mkLocals [sample_job HookSet (py "1"); sample_job HookSet (py "2")] None)
           world_logs
  = (mkWorld (fs world_logs) [] [interrupted_warning (py "mod_net_a") (py "busy")] []
             [sample_job HookSet (py "2")] [], Ok tt).
Proof.
  rewrite (run_jobs_outcome
             (fun j => if bool_decide (job_jobsuff j = py "1") then Some (py "busy") else None)
             (py "a") (mkLocals [sample_job HookSet (py "1"); sample_job HookSet (py "2")] None)
             world_logs) by discriminate.
  vm_compute. reflexivity.
Defined.

Lemma find_prefix (s sub : pystr) : startswith s sub = true -> find s sub = 0.
Proof. intros H. unfold find. destruct s; cbn [find_from]; rewrite H; reflexivity. Qed.

Lemma find_from_none (sub s : pystr) : forall i,
  (forall a b, s <> a ++ sub ++ b) -> find_from sub s i = -1.
Proof.
  induction s as [|c s IH]; intros i H; cbn [find_from].
  - destruct (startswith [] sub) eqn:E; [|reflexivity].
    apply startswith_spec in E as [r E]. exfalso. apply (H [] r). exact E.
  - destruct (startswith (c :: s) sub) eqn:E.
    + apply startswith_spec in E as [r E]. exfalso. apply (H [] r). exact E.
    + apply IH. intros a b Hs. apply (H (c :: a) b). rewrite Hs. reflexivity.
Qed.

Lemma truthy_ne (s : pystr) : s <> [] -> truthy s = true.
Proof. intros H. unfold truthy. apply negb_true_iff, bool_decide_eq_false. exact H. Qed.

(** X7 (lines 200-220): what the job builder receives for a regular file of
    a group.  The job is named after the measure, the group and the
    algorithm, whatever the file.  When the name of the file (without its
    extension) is the name of the group, one separating character and a
    level, the caption of the job is that level; when the name of the group
    does not occur in the name of the file, the caption is the whole name
    and the logs are named after the group and the file.  In both cases the
    shuffle index, if any, is put before the caption. *)
Theorem eval_file_caption (evalname algname : pystr) (evalfile : emitter) (tsk : task)
    (clsname shuffle logsbase taskoutp rcpoutp : pystr) (jobs : list job) (cfile : pystr)
    (w : world)
    (Hfile : Fs.isdir (fs w) cfile = false)
    (Hname : task_caption cfile <> []) :
  let jb := task_caption cfile in
  let jobname := evalname ++ py "_" ++ clsname ++ py "_" ++ algname in
  let caption c := if truthy shuffle then shuffle ++ py "_" ++ c else c in
  (forall sep level, jb = clsname ++ sep :: level ->
     eval_file evalname algname evalfile tsk clsname shuffle logsbase taskoutp rcpoutp jobs cfile w
     = evalfile jobs cfile jobname tsk taskoutp rcpoutp (caption level)
                (logsbase ++ py "/" ++ jb) w)
  /\ ((forall a b, jb <> a ++ clsname ++ b) ->
     eval_file evalname algname evalfile tsk clsname shuffle logsbase taskoutp rcpoutp jobs cfile w
     = evalfile jobs cfile jobname tsk taskoutp rcpoutp (caption jb)
                (logsbase ++ py "/" ++ clsname ++ py "_" ++ jb) w).
Proof.
  intros jb jobname caption.
  split.
  - intros sep level E. unfold eval_file.
    unfold bind at 1, gets. rewrite Hfile. cbv beta iota zeta.
    change (fst (OsPath.splitext (snd (OsPath.split cfile)))) with jb.
    rewrite (truthy_ne jb) by exact Hname.
    unfold bind at 1. cbn [assert ret].
    rewrite find_prefix by (rewrite E; apply startswith_app).
    cbn [Z.eqb]. replace (0 + len clsname + 1) with (len clsname + 1) by lia.
    replace (slice_from jb (len clsname + 1)) with level
      by (rewrite E; symmetry; apply slice_from_after).
    unfold caption, jobname. destruct (truthy shuffle); reflexivity.
  - intros Hno. unfold eval_file.
    unfold bind at 1, gets. rewrite Hfile. cbv beta iota zeta.
    change (fst (OsPath.splitext (snd (OsPath.split cfile)))) with jb.
    rewrite (truthy_ne jb) by exact Hname.
    unfold bind at 1. cbn [assert ret].
    unfold find. rewrite find_from_none by exact Hno.
    cbn [Z.eqb Pos.eqb]. replace (0 + len clsname + 1) with (len clsname + 1) by lia.
    change (join (py "_") [clsname; jb]) with (clsname ++ "_"%char :: jb).
    rewrite slice_from_after.
    unfold caption, jobname. destruct (truthy shuffle); reflexivity.
Qed.

Lemma eval_file_caption_witness :
  eval_file (py "nmi") (py "scp") (nmiEvaluate (py "syntnets/networks/1K10/1K10.cnl") 60)
            (mkTask (py "nmi_1K10__scp") HookSet) (py "1K10!k3") [] (py "results/scp/nmi/1K10!k3")
            (py "results/scp/nmi/1K10!k3.nmi") (py "results/scp/nmi.rcp") []
            (py "results/scp/clusters/1K10!k3/1K10!k3_1.cnl") world_scp
  = nmiEvaluate (py "syntnets/networks/1K10/1K10.cnl") 60 []
      (py "results/scp/clusters/1K10!k3/1K10!k3_1.cnl") (py "nmi_1K10!k3_scp")
      (mkTask (py "nmi_1K10__scp") HookSet) (py "results/scp/nmi/1K10!k3.nmi")
      (py "results/scp/nmi.rcp") (py "1") (py "results/scp/nmi/1K10!k3/1K10!k3_1") world_scp.
Proof.
  apply (proj1 (eval_file_caption (py "nmi") (py "scp")
                  (nmiEvaluate (py "syntnets/networks/1K10/1K10.cnl") 60)
                  (mkTask (py "nmi_1K10__scp") HookSet) (py "1K10!k3") []
                  (py "results/scp/nmi/1K10!k3") (py "results/scp/nmi/1K10!k3.nmi")
                  (py "results/scp/nmi.rcp") [] (py "results/scp/clusters/1K10!k3/1K10!k3_1.cnl")
                  world_scp ltac:(vm_compute; reflexivity) ltac:(vm_compute; discriminate))
               "_"%char (py "1")).
  vm_compute. reflexivity.
Defined.

(** *** The exceptions of [evalGeneric] *)

Lemma prepare_logs_exn tidy logsbase w w' e :
  prepare_logs tidy logsbase w = (w', Raise e) -> e = OSError.
Proof.
  unfold prepare_logs, bind, gets, when, ret, Fs.rmtree, Fs.makedirs.
  intros H. repeat case_match; simplify_eq; reflexivity.
Qed.

Lemma tidy_taskoutp_exn tidy taskoutp w w' e :
  tidy_taskoutp tidy taskoutp w = (w', Raise e) -> e = OSError.
Proof.
  unfold tidy_taskoutp, bind, gets, when, ret, Fs.remove.
  intros H. repeat case_match; simplify_eq; reflexivity.
Qed.

Lemma splitext_root_ne (name : pystr) : name <> [] -> fst (OsPath.splitext name) <> [].
Proof.
  intros Hne. unfold OsPath.splitext.
  destruct (_ && _) eqn:E; [|exact Hne].
  apply andb_true_iff in E as [_ E]. cbn [fst]. intros Hnil.
  unfold slice_to in Hnil. unfold slice in E.
  assert (Hb : bound name (rfind "." name) = 0%nat).
  { destruct (bound name (rfind "." name)); [reflexivity|].
    destruct name; [congruence | discriminate]. }
  rewrite Hb in E. cbn [Nat.sub take existsb] in E. discriminate.
Qed.

Lemma task_caption_component (dir name : pystr) :
  "/"%char ∉ name -> task_caption (dir ++ "/"%char :: name) = fst (OsPath.splitext name).
Proof. intros H. unfold task_caption. rewrite split_tail_last by assumption. reflexivity. Qed.

(** The paths a listing gives: the directory, then one non-empty
    component. *)
Lemma listing_shape (f : gmap pystr node) (dir : pystr) sel k :
  k ∈ Fs.listing f dir sel ->
  exists name, k = dir ++ name /\ name <> [] /\ ("/"%char ∉ name) /\ sel name = true
               /\ is_Some (f !! k).
Proof.
  unfold Fs.listing. intros H. apply list_elem_of_In, filter_In in H as [Hin Hc].
  apply andb_true_iff in Hc as [Hs Hc]. apply andb_true_iff in Hc as [Hc Hsel].
  apply andb_true_iff in Hc as [Hne Hsl].
  apply startswith_spec in Hs as [name ->].
  rewrite drop_app_length in Hne, Hsl, Hsel.
  exists name. split; [reflexivity|].
  apply negb_true_iff, bool_decide_eq_false in Hne.
  apply negb_true_iff, bool_decide_eq_false in Hsl.
  repeat split; try assumption.
  apply list_elem_of_In in Hin. apply list_elem_of_fmap in Hin as ([k' v] & Hk & Hkv).
  apply elem_of_map_to_list in Hkv. cbn in Hk. subst k'. eauto.
Qed.

Lemma eval_file_ok evalname algname evalfile tsk clsname shuffle logsbase taskoutp rcpoutp
    jobs dir name w :
  appending evalfile -> name <> [] -> "/"%char ∉ name ->
  exists jobs',
    eval_file evalname algname evalfile tsk clsname shuffle logsbase taskoutp rcpoutp
              jobs (dir ++ "/"%char :: name) w
    = (w, Ok jobs').
Proof.
  intros Happ Hne Hsl. unfold eval_file.
  unfold bind at 1, gets. destruct (Fs.isdir _ _); [eexists; reflexivity|].
  cbv beta iota zeta.
  change (fst (OsPath.splitext (snd (OsPath.split (dir ++ "/"%char :: name)))))
    with (task_caption (dir ++ "/"%char :: name)).
  rewrite task_caption_component by assumption.
  rewrite (truthy_ne _ (splitext_root_ne name Hne)).
  unfold bind at 1. cbn [assert ret].
  destruct (find _ _ =? -1);
    match goal with |- exists _, evalfile ?a ?b ?c ?d ?e ?f ?g ?h ?w = _ =>
      destruct (Happ a b c d e f g h w) as [j Hj]; rewrite Hj; eauto end.
Qed.

Lemma fold_files_ok (evalname algname : pystr) (evalfile : emitter) (tsk : task)
    (clsname shuffle logsbase taskoutp rcpoutp : pystr)
    (f : gmap pystr node) (clsbase : pystr) (sel : pystr -> bool) (w : world)
    (files : list pystr) :
  appending evalfile ->
  (forall k, k ∈ files -> k ∈ Fs.listing f (clsbase ++ py "/") sel) ->
  forall jobs, exists jobs',
    foldM files
      (eval_file evalname algname evalfile tsk clsname shuffle logsbase taskoutp rcpoutp)
      jobs w = (w, Ok jobs').
Proof.
  intros Happ. induction files as [|k files IH]; intros Hin jobs.
  - eexists. reflexivity.
  - destruct (listing_shape f _ sel k (Hin k ltac:(apply list_elem_of_here)))
      as (name & -> & Hne & Hsl & _).
    cbn [foldM]. unfold bind at 1.
    rewrite <- app_assoc. cbn [app py list_ascii_of_string].
    destruct (eval_file_ok evalname algname evalfile tsk clsname shuffle logsbase taskoutp
                rcpoutp jobs clsbase name w Happ Hne Hsl) as [jobs1 ->].
    apply IH. intros k' Hk'. apply Hin. apply list_elem_of_further, Hk'.
Qed.

(** One candidate of the scan: a path that is no directory changes nothing;
    a directory binds [clsname]; only the file system operations raise. *)
Lemma eval_group_outcome (evalname algname measdir : pystr) (evalfile : emitter)
    (pathid : pystr) (tidy : bool) (taskcapt rcpoutp : pystr) (tsk : task)
    (st : locals) (clsbase : pystr) (w : world) :
  appending evalfile ->
  outcome (eval_group evalname algname measdir evalfile pathid tidy taskcapt rcpoutp tsk
                      st clsbase) w
    (fun w' st' => if Fs.isdir (fs w) clsbase then is_Some (clsname_var st')
                   else w' = w /\ st' = st)
    (fun e => e = OSError).
Proof.
  intros Happ. unfold outcome, eval_group.
  unfold bind at 1, gets.
  destruct (Fs.isdir (fs w) clsbase) eqn:Hdir; cbn [negb]; [|split; reflexivity].
  set (clsname := snd (OsPath.split clsbase)).
  destruct (check_pathid_total pathid clsname w) as (keep & msgs & w1 & Hc & _).
  unfold bind at 1. rewrite Hc.
  destruct keep; cbn [negb]; [|cbn; eauto].
  unfold bind at 1, lift. rewrite other_instance_spec.
  destruct (bool_decide _); [cbn; eauto|].
  destruct (decode_shuffle_total clsname (len clsname - len pathid) w1)
    as (shuffle & msgs2 & w2 & Hd & _).
  unfold bind at 1. rewrite Hd.
  unfold bind at 1.
  destruct (prepare_logs tidy (logsbase_of clsbase measdir) w2) as [w3 [[]|e]] eqn:Hp.
  2: { eapply prepare_logs_exn, Hp. }
  unfold bind at 1.
  destruct (tidy_taskoutp tidy _ w3) as [w4 [[]|e]] eqn:Ht.
  2: { eapply tidy_taskoutp_exn, Ht. }
  unfold bind at 1, gets.
  unfold bind at 1.
  match goal with |- context [foldM ?fl ?body ?js w4] =>
    destruct (fold_files_ok evalname algname evalfile tsk clsname shuffle
                (logsbase_of clsbase measdir)
                (taskoutp_of (logsbase_of clsbase measdir) shuffle pathid evalname) rcpoutp
                (fs w4) clsbase (fun name => negb (startswith name (py "."))) w4 fl Happ
                ltac:(auto) js) as [jobs' Hf]
  end.
  rewrite Hf. cbn. eauto.
Qed.

Lemma fold_groups_outcome (evalname algname measdir : pystr) (evalfile : emitter)
    (pathid : pystr) (tidy : bool) (taskcapt rcpoutp : pystr) (tsk : task)
    (l : list pystr) :
  appending evalfile ->
  forall st w,
  outcome (foldM l (eval_group evalname algname measdir evalfile pathid tidy taskcapt
                               rcpoutp tsk) st) w
    (fun w' st' =>
       (is_Some (clsname_var st) -> is_Some (clsname_var st'))
       /\ (clsname_var st' = None ->
           w' = w /\ forall c, c ∈ l -> Fs.isdir (fs w) c = false))
    (fun e => e = OSError).
Proof.
  intros Happ. induction l as [|c l IH]; intros st w.
  - unfold outcome. cbn. split; [auto|]. intros _. split; [reflexivity|].
    intros c Hc. apply elem_of_nil in Hc. contradiction.
  - pose proof (eval_group_outcome evalname algname measdir evalfile pathid tidy taskcapt
                  rcpoutp tsk st c w Happ) as H1.
    unfold outcome in *. cbn [foldM]. unfold bind at 1.
    destruct (eval_group _ _ _ _ _ _ _ _ _ st c w) as [w1 [st1|e]]; [|exact H1].
    specialize (IH st1 w1).
    destruct (foldM l _ st1 w1) as [w' [st'|e]]; [|exact IH].
    destruct IH as [IH1 IH2]. split.
    + intros Hs. apply IH1. destruct (Fs.isdir (fs w) c); [exact H1|].
      destruct H1 as [_ ->]. exact Hs.
    + intros Hn. destruct (IH2 Hn) as [-> Hl].
      destruct (Fs.isdir (fs w) c) eqn:Hdir.
      * exfalso. apply IH1 in H1. rewrite Hn in H1. destruct H1; discriminate.
      * destruct H1 as [-> ->]. split; [reflexivity|].
        intros c' [->|Hc']%elem_of_cons; auto.
Qed.

Lemma modEvaluate_appending basefile timeout : appending (modEvaluate basefile timeout).
Proof. intros ?????????. eexists. reflexivity. Qed.

Lemma nmiEvaluate_appending basefile timeout : appending (nmiEvaluate basefile timeout).
Proof. intros ?????????. eexists. reflexivity. Qed.

Lemma nmisEvaluate_appending basefile timeout : appending (nmisEvaluate basefile timeout).
Proof. intros ?????????. eexists. reflexivity. Qed.

(** The run of [evalGeneric] past its assertions. *)
Lemma evalGeneric_run
    (pool_error : job -> option pystr) (task_hook : hook)
    (evalname algname basefile measdir pathid : pystr) (evalfile : emitter)
    (tidy : bool) (w : world) :
  preconditions evalname algname basefile pathid = true ->
  appending evalfile ->
  exists w' res,
    evalGeneric pool_error task_hook evalname algname basefile measdir evalfile pathid tidy w
    = (w', res)
    /\ (res = Ok tt \/ res = Raise OSError
        \/ (res = Raise NameError /\ w' = w
            /\ forall c, c ∈ candidates w algname basefile -> Fs.isdir (fs w) c = false)).
Proof.
  intros Hpre Happ.
  rewrite evalGeneric_scan by exact Hpre. cbv zeta.
  unfold bind at 1.
  match goal with |- context [foldM ?l ?body ?st w] =>
    assert (H : outcome (foldM l body st) w
                  (fun w' st' =>
                     (is_Some (clsname_var st) -> is_Some (clsname_var st'))
                     /\ (clsname_var st' = None ->
                         w' = w /\ forall c, c ∈ l -> Fs.isdir (fs w) c = false))
                  (fun e => e = OSError))
      by (apply fold_groups_outcome; exact Happ);
    unfold outcome in H; destruct (foldM l body st w) as [w' [st'|e]]
  end.
  2: { subst e. eexists _, _. split; [reflexivity|]. auto. }
  destruct H as [_ H].
  destruct st' as [js cv]. destruct js as [|j js].
  - destruct cv as [clsname|].
    + rewrite run_jobs_warns. eexists _, _. split; [reflexivity|]. auto.
    + destruct (H eq_refl) as [-> Hl].
      eexists _, _. split; [reflexivity|]. right. right. auto.
  - unfold run_jobs. cbn [jobs]. rewrite forM_execute.
    eexists _, _. split; [reflexivity|]. auto.
Qed.

(** X8 (lines 117-231): past its opening assertions, and with a job builder
    that only adds a job, [evalGeneric] returns or ends in one of two
    exceptions: an OSError of the file system operations on the logs, or the
    NameError of the final warning, and that one only when no path of the
    scan is a directory, with nothing changed.  Neither the decoding of
    path-ids and shuffles, nor the indexing of names, nor the assertion on
    file names, nor a refusal of the pool ends the call. *)
Theorem evalGeneric_outcomes
    (pool_error : job -> option pystr) (task_hook : hook)
    (evalname algname basefile measdir pathid : pystr) (evalfile : emitter)
    (tidy : bool) (w : world)
    (Hpre : preconditions evalname algname basefile pathid = true)
    (Happ : appending evalfile) :
  let r := evalGeneric pool_error task_hook evalname algname basefile measdir evalfile
                       pathid tidy w in
  snd r = Ok tt
  \/ snd r = Raise OSError
  \/ (snd r = Raise NameError /\ fst r = w
      /\ forall c, c ∈ candidates w algname basefile -> Fs.isdir (fs w) c = false).
Proof.
  intros r.
  destruct (evalGeneric_run pool_error task_hook evalname algname basefile measdir pathid
              evalfile tidy w Hpre Happ) as (w' & res & E & H).
  unfold r. rewrite E. cbn [fst snd]. exact H.
Qed.

Lemma evalGeneric_outcomes_witness :
  let r := evalGeneric (fun _ => None) HookSet (py "mod") (py "a") (py "nets/net.cnl") _MODDIR
                       (modEvaluate (py "nets/net.cnl") 60) [] true world_shuffles in
  snd r = Ok tt
  \/ snd r = Raise OSError
  \/ (snd r = Raise NameError /\ fst r = world_shuffles
      /\ forall c, c ∈ candidates world_shuffles (py "a") (py "nets/net.cnl")
                   -> Fs.isdir (fs world_shuffles) c = false).
Proof.
  apply (evalGeneric_outcomes (fun _ => None) HookSet (py "mod") (py "a") (py "nets/net.cnl")
           _MODDIR [] (modEvaluate (py "nets/net.cnl") 60) true world_shuffles).
  - vm_compute. reflexivity.
  - intros ?????????. eexists. reflexivity.
Defined.

(** ** [evalAlgorithm] *)

Lemma format_evaluating a b c :
  format msg_evaluating [a; b; c] = Ok (evaluating_line a b c).
Proof.
  unfold evaluating_line. vm_compute. reflexivity.
Qed.

(** X9 (lines 246-247, 438-445): a measure that is none of [mod], [nmi] and
    [nmi_s] is refused with a ValueError, after the line that announces the
    evaluation is printed and before anything else happens: no file is
    touched and no job reaches the pool. *)
Theorem evalAlgorithm_unknown_measure
    (pool_error : job -> option pystr) (task_hook : hook)
    (algname basefile measure : pystr) (timeout : Z) (pathid : pystr) (w : world)
    (Hpid : pathid = [] \/ exists r, pathid = _SEPPATHID :: r)
    (Hmeasure : measure ∉ [py "mod"; py "nmi"; py "nmi_s"]) :
  evalAlgorithm pool_error task_hook algname basefile measure timeout pathid w
  = (mkWorld (fs w) (stdout w ++ [evaluating_line measure algname basefile]) (stderr w)
             (backups w) (submitted w) (forwarded w), Raise ValueError).
Proof.
  unfold evalAlgorithm.
  assert (Hsep : (if truthy pathid
                  then rbind (getitem pathid 0) (fun c => Ok (Ascii.eqb c _SEPPATHID))
                  else Ok true) = Ok true).
  { destruct Hpid as [-> | [r ->]]; reflexivity. }
  unfold bind at 1, lift. rewrite Hsep.
  unfold bind at 1. cbn [assert ret].
  unfold bind at 1, print_out_fmt. unfold bind at 1, lift. rewrite format_evaluating.
  unfold print_out.
  assert (Hd : dispatch measure basefile timeout = None).
  { unfold dispatch. rewrite !not_elem_of_cons in Hmeasure.
    destruct Hmeasure as (H1 & H2 & H3 & _).
    rewrite !bool_decide_eq_false_2 by assumption. reflexivity. }
  rewrite Hd. reflexivity.
Qed.

Lemma evalAlgorithm_unknown_measure_witness :
  evalAlgorithm (fun _ => None) HookSet (py "a") (py "nets/net.cnl") (py "NMI") 60 (py "#1")
                world_shuffles
  = (mkWorld (fs world_shuffles) [evaluating_line (py "NMI") (py "a") (py "nets/net.cnl")]
             [] [] [] [], Raise ValueError).
Proof.
  apply (evalAlgorithm_unknown_measure (fun _ => None) HookSet (py "a") (py "nets/net.cnl")
           (py "NMI") 60 (py "#1") world_shuffles).
  - right. exists (py "1"). reflexivity.
  - decide_it.
Defined.

(** ** The completion callbacks *)

Section CallbackFacts.

Variable value : Type.
Variable parseFloat : pystr -> option value.
Variable float_str : value -> pystr.

Lemma aggLevs_unparsed j out w :
  (if startswith out mod_targpref
   then parseFloat (slice_from out (len mod_targpref)) else None) = None ->
  aggLevs value parseFloat float_str j out w
  = (mkWorld (fs w) (stdout w) (stderr w ++ [mod_error_text (job_name j) out])
             (backups w) (submitted w) (forwarded w), Ok tt).
Proof.
  intros H. unfold aggLevs. rewrite H.
  unfold print_err_fmt, bind, lift. rewrite format_err_mod. reflexivity.
Qed.

Lemma aggLevs_unwritable_eq j out m w :
  startswith out mod_targpref = true ->
  parseFloat (slice_from out (len mod_targpref)) = Some m ->
  appendable (fs w) (job_taskoutp j) = false ->
  aggLevs value parseFloat float_str j out w = (w, Raise IOError).
Proof.
  intros Hpref Hparse Hopen. unfold aggLevs. rewrite Hpref, Hparse.
  unfold appendable in Hopen. unfold bind at 1, Fs.open_append.
  destruct (fs w !! job_taskoutp j) as [[|c]|]; [reflexivity | discriminate |].
  rewrite Hopen. reflexivity.
Qed.

End CallbackFacts.

(** X10 (lines 294-302): for a job whose task has a true [onjobdone], an
    output that holds a value and an accumulation file that can be opened,
    the callback returns normally: the row is appended (after the header,
    when the file was empty), the value goes to the hook of the task once,
    and nothing is printed. *)
Theorem aggLevs_forwards (value : Type) (parseFloat : pystr -> option value)
    (float_str : value -> pystr) (j : job) (out : pystr) (m : value) (w : world)
    (Hpref : startswith out mod_targpref = true)
    (Hparse : parseFloat (slice_from out (len mod_targpref)) = Some m)
    (Hhook : has_onjobdone j = true)
    (Hopen : appendable (fs w) (job_taskoutp j) = true) :
  aggLevs value parseFloat float_str j out w
  = (mkWorld (<[job_taskoutp j :=
                  File (with_row (content_of (fs w) (job_taskoutp j))
                                 (float_str m) (job_jobsuff j))]> (fs w))
             (stdout w) (stderr w) (backups w) (submitted w)
             (forwarded w ++ [(job_name j, float_str m)]), Ok tt).
Proof.
  rewrite (aggLevs_recorded value parseFloat float_str j out m w) by assumption.
  unfold has_onjobdone in Hhook. unfold after_row.
  destruct (job_task j) as [t|]; [|discriminate].
  destruct (task_onjobdone t); try discriminate. reflexivity.
Qed.

Lemma aggLevs_forwards_witness :
  aggLevs unit parse_half str_half (sample_job HookSet (py "1")) (py "mod: 0.5") world_logs
  = (mkWorld (<[py "results/a/mod/net.mod" := File (mod_header ++ row_text (py "0.5") (py "1"))]>
                (fs world_logs))
             [] [] [] [] [(py "mod_net_a", py "0.5")], Ok tt).
Proof.
  apply (aggLevs_forwards unit parse_half str_half (sample_job HookSet (py "1"))
           (py "mod: 0.5") tt world_logs);
    vm_compute; reflexivity.
Defined.

(** X11 (lines 288-305): whatever the output, the job and the state of the
    files, the callback of a modularity job only ever appends to its
    accumulation file: every other path keeps its node, the old content of
    the accumulation file is a prefix of the new one, a directory at its
    place stays, and nothing goes to the standard output or to the pool. *)
Theorem aggLevs_append_only (value : Type) (parseFloat : pystr -> option value)
    (float_str : value -> pystr) (j : job) (out : pystr) (w : world) :
  let w' := fst (aggLevs value parseFloat float_str j out w) in
  (forall q, q <> job_taskoutp j -> fs w' !! q = fs w !! q)
  /\ (exists added, content_of (fs w') (job_taskoutp j)
                    = content_of (fs w) (job_taskoutp j) ++ added)
  /\ (fs w !! job_taskoutp j = Some Dir -> fs w' !! job_taskoutp j = Some Dir)
  /\ stdout w' = stdout w /\ submitted w' = submitted w /\ backups w' = backups w.
Proof.
  intros w'.
  assert (Hsame : fs w' = fs w -> stdout w' = stdout w -> submitted w' = submitted w ->
                  backups w' = backups w ->
                  (forall q, q <> job_taskoutp j -> fs w' !! q = fs w !! q)
                  /\ (exists added, content_of (fs w') (job_taskoutp j)
                                    = content_of (fs w) (job_taskoutp j) ++ added)
                  /\ (fs w !! job_taskoutp j = Some Dir -> fs w' !! job_taskoutp j = Some Dir)
                  /\ stdout w' = stdout w /\ submitted w' = submitted w
                  /\ backups w' = backups w).
  { intros -> -> -> ->. split; [reflexivity|]. split; [exists []; rewrite app_nil_r; reflexivity|].
    auto. }
  destruct (if startswith out mod_targpref
            then parseFloat (slice_from out (len mod_targpref)) else None) as [m|] eqn:Hm.
  2: { apply Hsame; unfold w'; rewrite aggLevs_unparsed by exact Hm; reflexivity. }
  destruct (startswith out mod_targpref) eqn:Hpref; [|discriminate].
  destruct (appendable (fs w) (job_taskoutp j)) eqn:Hopen.
  2: { apply Hsame; unfold w';
       rewrite (aggLevs_unwritable_eq value parseFloat float_str j out m w) by assumption;
       reflexivity. }
  assert (Hfs : fs w' = <[job_taskoutp j :=
                   File (with_row (content_of (fs w) (job_taskoutp j))
                                  (float_str m) (job_jobsuff j))]> (fs w)).
  { unfold w'. apply aggLevs_content; assumption. }
  assert (Hrest : stdout w' = stdout w /\ submitted w' = submitted w /\ backups w' = backups w).
  { unfold w'. rewrite (aggLevs_recorded value parseFloat float_str j out m w) by assumption.
    unfold after_row, print_err_fmt, bind, lift, raise, onjobdone.
    rewrite format_no_onjobdone.
    destruct (job_task j) as [t|]; [destruct (task_onjobdone t)|]; auto. }
  rewrite Hfs. split; [|split; [|split]].
  - intros q Hq. apply lookup_insert_ne. congruence.
  - rewrite content_of_insert. unfold with_row. eauto.
  - intros Hdir. unfold appendable in Hopen. rewrite Hdir in Hopen. discriminate.
  - exact Hrest.
Qed.

(** X12 (lines 294-295): when the output holds a value but the accumulation
    file cannot be opened for appending (a directory is in its place, or
    its directory is missing), the callback ends in an IOError and the
    value is lost: nothing is written, printed or passed to the task. *)
Theorem aggLevs_unwritable (value : Type) (parseFloat : pystr -> option value)
    (float_str : value -> pystr) (j : job) (out : pystr) (m : value) (w : world)
    (Hpref : startswith out mod_targpref = true)
    (Hparse : parseFloat (slice_from out (len mod_targpref)) = Some m)
    (Hopen : appendable (fs w) (job_taskoutp j) = false) :
  aggLevs value parseFloat float_str j out w = (w, Raise IOError).
Proof.
  unfold aggLevs. rewrite Hpref, Hparse.
  unfold appendable in Hopen. unfold bind at 1, Fs.open_append.
  destruct (fs w !! job_taskoutp j) as [[|c]|]; [reflexivity | discriminate |].
  rewrite Hopen. reflexivity.
Qed.

Lemma aggLevs_unwritable_witness :
  aggLevs unit parse_half str_half (sample_job HookSet (py "1")) (py "mod: 0.5") world_shuffles
  = (world_shuffles, Raise IOError).
Proof.
  apply (aggLevs_unwritable unit parse_half str_half (sample_job HookSet (py "1"))
           (py "mod: 0.5") tt world_shuffles);
    vm_compute; reflexivity.
Defined.

Section NmiCallbackFacts.

Variable value : Type.
Variable py_float : pystr -> option value.
Variable float_str : value -> pystr.

Lemma format_err_nmi a b : format err_nmi_failed [a; b] = Ok (nmi_error_text a b).
Proof. unfold nmi_error_text. rewrite <- (app_nil_r b) at 2. vm_compute. reflexivity. Qed.

Lemma format_err_nmis a b : format err_nmis_failed [a; b] = Ok (nmis_error_text a b).
Proof. unfold nmis_error_text. rewrite <- (app_nil_r b) at 2. vm_compute. reflexivity. Qed.

Lemma append_row_ok header j v w :
  appendable (fs w) (job_taskoutp j) = true ->
  append_row value float_str header j v w
  = (set_fs (<[job_taskoutp j :=
                 File (with_header_row header (content_of (fs w) (job_taskoutp j))
                                       (float_str v) (job_jobsuff j))]> (fs w)) w, Ok tt).
Proof.
  intros Hopen. unfold append_row.
  set (p := job_taskoutp j) in *.
  unfold appendable in Hopen. unfold content_of, with_header_row.
  unfold bind at 1, Fs.open_append.
  destruct (fs w !! p) as [[|c]|] eqn:L; [discriminate| |].
  - unfold bind at 1, Fs.getsize. rewrite L.
    unfold bind at 1.
    destruct c as [|x c].
    + change (len [] =? 0) with true. cbn [when]. unfold Fs.write at 1. rewrite L.
      unfold bind at 1, lift. rewrite format_row.
      unfold Fs.write. cbn [fs set_fs]. rewrite lookup_insert_eq.
      unfold set_fs. cbn [fs stdout stderr backups submitted forwarded].
      rewrite insert_insert_eq. reflexivity.
    + replace (len (x :: c) =? 0) with false
        by (rewrite len_cons; pose proof (len_nonneg c); symmetry; apply Z.eqb_neq; lia).
      cbn [when ret]. unfold bind at 1, lift. rewrite format_row.
      unfold Fs.write. rewrite L. reflexivity.
  - rewrite Hopen.
    unfold bind at 1, Fs.getsize. cbn [fs set_fs]. rewrite lookup_insert_eq.
    unfold bind at 1. change (len [] =? 0) with true. cbn [when].
    unfold Fs.write at 1. cbn [fs set_fs]. rewrite lookup_insert_eq.
    unfold bind at 1, lift. rewrite format_row.
    unfold Fs.write. cbn [fs set_fs]. rewrite lookup_insert_eq.
    unfold set_fs. cbn [fs stdout stderr backups submitted forwarded].
    rewrite !insert_insert_eq. reflexivity.
Qed.

End NmiCallbackFacts.

(** X13 (lines 351-365, 389-403): with an accumulation file that can be
    opened, the callbacks of the NMI jobs never raise and pass nothing to
    the task.  An output that [float] accepts adds one row to the file,
    after the header of the measure when the file was empty, and prints
    nothing; any other output leaves the files alone and prints one error
    line with the name of the job and the output. *)
Theorem nmi_aggLevs_outcome (value : Type) (py_float : pystr -> option value)
    (float_str : value -> pystr) (j : job) (out : pystr) (w : world)
    (Hopen : appendable (fs w) (job_taskoutp j) = true) :
  let old := content_of (fs w) (job_taskoutp j) in
  nmi_aggLevs value py_float float_str j out w
  = (match py_float out with
     | Some v => set_fs (<[job_taskoutp j :=
                   File (with_header_row nmi_header old (float_str v) (job_jobsuff j))]> (fs w)) w
     | None => mkWorld (fs w) (stdout w) (stderr w ++ [nmi_error_text (job_name j) out])
                       (backups w) (submitted w) (forwarded w)
     end, Ok tt)
  /\ nmis_aggLevs value py_float float_str j out w
     = (match py_float out with
        | Some v => set_fs (<[job_taskoutp j :=
                      File (with_header_row nmis_header old (float_str v) (job_jobsuff j))]> (fs w)) w
        | None => mkWorld (fs w) (stdout w) (stderr w ++ [nmis_error_text (job_name j) out])
                          (backups w) (submitted w) (forwarded w)
        end, Ok tt).
Proof.
  intros old. unfold nmi_aggLevs, nmis_aggLevs, old.
  destruct (py_float out) as [v|].
  - rewrite !append_row_ok by assumption. split; reflexivity.
  - unfold print_err_fmt, bind, lift. rewrite format_err_nmi, format_err_nmis.
    split; reflexivity.
Qed.

Lemma nmi_aggLevs_outcome_witness :
  nmi_aggLevs unit float_half str_half (sample_nmi_job Nmi (py "results/a/nmi/net.nmi") (py "1"))
              (py "0.5") world_nmi
  = (set_fs (<[py "results/a/nmi/net.nmi" := File (nmi_header ++ row_text (py "0.5") (py "1"))]>
               (fs world_nmi)) world_nmi, Ok tt)
  /\ nmis_aggLevs unit float_half str_half
                  (sample_nmi_job Nmi (py "results/a/nmi/net.nmi") (py "1")) [] world_nmi
     = (mkWorld (fs world_nmi) [] [nmis_error_text (py "nmi_net_a") []] [] [] [], Ok tt).
Proof.
  split.
  - apply (proj1 (nmi_aggLevs_outcome unit float_half str_half
                    (sample_nmi_job Nmi (py "results/a/nmi/net.nmi") (py "1")) (py "0.5")
                    world_nmi ltac:(vm_compute; reflexivity))).
  - apply (proj2 (nmi_aggLevs_outcome unit float_half str_half
                    (sample_nmi_job Nmi (py "results/a/nmi/net.nmi") (py "1")) []
                    world_nmi ltac:(vm_compute; reflexivity))).
Defined.

(** ** The executing functions *)

Lemma exec_assert_fail {A} (netfile : pystr) (timeout : Z) (k : M A) w :
  truthy netfile && (0 <=? timeout) = false ->
  (exec_assert netfile timeout ;;; k) w = (w, Raise AssertionError).
Proof.
  intros H. unfold bind, exec_assert. rewrite Z.add_0_r, H. reflexivity.
Qed.

Lemma exec_assert_pass {A} (netfile : pystr) (timeout : Z) (k : M A) w :
  truthy netfile && (0 <=? timeout) = true ->
  (exec_assert netfile timeout ;;; k) w = k w.
Proof.
  intros H. unfold bind, exec_assert. rewrite Z.add_0_r, H. reflexivity.
Qed.

Lemma assert_task_fail {A} (task : pystr) (k : M A) w :
  truthy task = false -> (assert (truthy task) ;;; k) w = (w, Raise AssertionError).
Proof. intros H. unfold bind. rewrite H. reflexivity. Qed.

Lemma assert_task_pass {A} (task : pystr) (k : M A) w :
  truthy task = true -> (assert (truthy task) ;;; k) w = k w.
Proof. intros H. unfold bind. rewrite H. reflexivity. Qed.

Lemma launch_submit_one pool_error pool j w :
  (pool' <- launch pool_error pool j ;; ret (pool', 1)) w = submit_one pool_error pool j w.
Proof. unfold bind, launch, submit_one. destruct (pool_error j); reflexivity. Qed.

(** The name of the task in the functions that cut the extension first. *)
Lemma caption_of_root (netfile root ext : pystr) :
  OsPath.splitext netfile = (root, ext) -> snd (OsPath.split root) = task_caption netfile.
Proof. intros E. rewrite <- caption_orders, E. reflexivity. Qed.

Lemma caption_of_tail (netfile root ext : pystr) :
  OsPath.splitext (snd (OsPath.split netfile)) = (root, ext) -> root = task_caption netfile.
Proof. intros E. unfold task_caption. rewrite E. reflexivity. Qed.

(** Brings an executing function to the steps after its first assertion,
    with the name of the task in its common form. *)
Ltac exec_open :=
  cbv beta iota zeta;
  repeat match goal with
  | |- context [OsPath.splitext (snd (OsPath.split ?n))] =>
      let E := fresh "E" in
      destruct (OsPath.splitext (snd (OsPath.split n))) as [? ?] eqn:E;
      apply caption_of_tail in E; subst; cbn [fst snd]
  | |- context [let '(_, _) := OsPath.splitext ?n in _] =>
      let E := fresh "E" in
      destruct (OsPath.splitext n) as [? ?] eqn:E;
      rewrite ?(caption_of_root _ _ _ E)
  end;
  rewrite ?caption_orders.

(** X14 (the assertions that open every executing function): a call with
    an empty network file, a negative timeout, or a network file whose
    last component has no name ends in an AssertionError before any
    directory is prepared and before any job reaches the pool; this holds
    for each of the nine executing functions. *)
Theorem exec_rejects (PYEXEC : pystr) (pool_error : xjob -> option exn) (instances : Z)
    (pool : list xjob) (netfile : pystr) (asym : option bool) (timeout : Z)
    (pathid : pystr) (w : world)
    (Hbad : truthy netfile && (0 <=? timeout) && truthy (task_caption netfile) = false) :
  Forall (fun af : pystr * executor =>
            snd af pool netfile asym timeout pathid w = (w, Raise AssertionError))
         (executors PYEXEC pool_error instances).
Proof.
  unfold executors, single_executors.
  destruct (truthy netfile && (0 <=? timeout)) eqn:Hhead.
  - cbn [andb] in Hbad.
    repeat constructor; cbn [snd];
      unfold execScp, execLouvain_ig, execRandcommuns, execHirecs, execHirecsOtl,
        execHirecsAhOtl, execHirecsNounwrap, execOslom2, execGanxis;
      rewrite exec_assert_pass by exact Hhead.
    all: exec_open; apply assert_task_fail; exact Hbad.
  - repeat constructor; cbn [snd];
      unfold execScp, execLouvain_ig, execRandcommuns, execHirecs, execHirecsOtl,
        execHirecsAhOtl, execHirecsNounwrap, execOslom2, execGanxis;
      apply exec_assert_fail; exact Hhead.
Qed.

Lemma exec_rejects_witness :
  Forall (fun af : pystr * executor =>
            snd af [] (py "nets/") None 60 (py "#1") world_logs
            = (world_logs, Raise AssertionError))
         (executors (py "/usr/bin/python") (fun _ => None) 5).
Proof.
  apply (exec_rejects (py "/usr/bin/python") (fun _ => None) 5 [] (py "nets/") None 60
           (py "#1") world_logs).
  vm_compute. reflexivity.
Defined.

Lemma bind_ext {A B} (c : M A) (k k' : A -> M B) w :
  (forall a w1, k a w1 = k' a w1) -> bind c k w = bind c k' w.
Proof. intros H. unfold bind. destruct (c w) as [w1 [a|e]]; [apply H | reflexivity]. Qed.

(** X15 (lines 499-558, 621-669, 672-741, 745-819): the eight executing
    functions that launch one job follow one protocol, whichever order they
    take the name of the task in: past the assertions the directory
    [results/<algorithm>/clusters/<task><pathid>] is prepared, then one job
    is offered to the pool and the count 1 is returned; a refusal of the
    pool is not caught and ends the call after the directory was prepared.
    The job is named [<task>_<algorithm>], runs in the directory of the
    algorithms under the given timeout, is profiled by [exectime] into
    [results/<algorithm>.rcp] under the name [<task><pathid>], and logs
    beside the directory of its results. *)
Theorem exec_single_protocol (PYEXEC : pystr) (pool_error : xjob -> option exn)
    (instances : Z) (pool : list xjob) (netfile : pystr) (asym : option bool)
    (timeout : Z) (pathid : pystr) (w : world)
    (Hnet : netfile <> []) (Htime : 0 <= timeout) (Hcap : task_caption netfile <> []) :
  Forall (fun af : pystr * executor =>
            let algname := fst af in
            let taskpath := results_dir algname netfile pathid in
            exists j,
              snd af pool netfile asym timeout pathid w
              = (preparePath taskpath ;;; submit_one pool_error pool j) w
              /\ x_name j = task_caption netfile ++ py "_" ++ algname
              /\ x_workdir j = _ALGSDIR
              /\ x_timeout j = timeout
              /\ take 3 (x_args j) = exectime_args algname (task_caption netfile ++ pathid)
              /\ (x_stderr j = Some (taskpath ++ _EXTLOG)
                  \/ x_stdout j = Some (taskpath ++ _EXTLOG)
                     /\ x_stderr j = Some (taskpath ++ _EXTERR)))
         (single_executors PYEXEC pool_error instances).
Proof.
  assert (Hhead : truthy netfile && (0 <=? timeout) = true).
  { rewrite truthy_ne by exact Hnet. apply Z.leb_le. exact Htime. }
  pose proof (truthy_ne _ Hcap) as Htask.
  unfold single_executors.
  repeat constructor; cbn [fst snd]; cbv zeta;
    unfold execLouvain_ig, execRandcommuns, execHirecs, execHirecsOtl,
      execHirecsAhOtl, execHirecsNounwrap, execOslom2, execGanxis;
    rewrite exec_assert_pass by exact Hhead;
    exec_open;
    rewrite assert_task_pass by exact Htask;
    match goal with |- context [launch _ _ ?J] => exists J end;
    (split; [apply bind_ext; intros; apply launch_submit_one|]);
    cbn [x_name x_workdir x_timeout x_args x_stderr x_stdout];
    repeat split; try reflexivity; auto.
  destruct asym as [[]|]; reflexivity.
Qed.

Lemma exec_single_protocol_witness :
  Forall (fun af : pystr * executor =>
            let algname := fst af in
            let taskpath := results_dir algname (py "nets/net.nsa") (py "#1") in
            exists j,
              snd af [] (py "nets/net.nsa") None 60 (py "#1") world_nets
              = (preparePath taskpath ;;; submit_one (fun _ => None) [] j) world_nets
              /\ x_name j = task_caption (py "nets/net.nsa") ++ py "_" ++ algname
              /\ x_workdir j = _ALGSDIR
              /\ x_timeout j = 60
              /\ take 3 (x_args j)
                 = exectime_args algname (task_caption (py "nets/net.nsa") ++ py "#1")
              /\ (x_stderr j = Some (taskpath ++ _EXTLOG)
                  \/ x_stdout j = Some (taskpath ++ _EXTLOG)
                     /\ x_stderr j = Some (taskpath ++ _EXTERR)))
         (single_executors (py "/usr/bin/python") (fun _ => None) 5).
Proof.
  apply (exec_single_protocol (py "/usr/bin/python") (fun _ => None) 5 [] (py "nets/net.nsa")
           None 60 (py "#1") world_nets);
    [discriminate | lia | vm_compute; discriminate].
Defined.

(** A concrete run: Hirecs on a network, in a world without results. *)
Example execHirecs_run :
  let r := execHirecs (fun _ => None) [] (py "nets/net.nsa") None 60 (py "#1") world_nets in
  Fs.isdir (fs (fst r)) (py "results/hirecs/clusters/net#1") = true
  /\ snd r = Ok ([mkXJob (py "net_hirecs") (py "algorithms/")
                         [py "../exectime"; py "-o=../results/hirecs.rcp"; py "-n=net#1";
                          py "-s=/etime_hirecs"; py "./hirecs"; py "-oc";
                          py "-cls=../results/hirecs/clusters/net#1/net_hirecs.cnl";
                          py "../nets/net.hig"]
                         60 None (Some (py "/dev/null"))
                         (Some (py "results/hirecs/clusters/net#1.log"))], 1).
Proof. vm_compute. split; reflexivity. Qed.

Lemma split_tail_plain (p : pystr) : "/"%char ∉ snd (OsPath.split p).
Proof.
  destruct (last_occurrence "/" p) as [Hn | (b & r & -> & Hr)].
  - rewrite split_tail_nosep by assumption. exact Hn.
  - rewrite split_tail_last by assumption. exact Hr.
Qed.

Lemma task_caption_plain (p : pystr) : "/"%char ∉ task_caption p.
Proof. apply splitext_root_nosep, split_tail_plain. Qed.

Lemma listing_mem (f : gmap pystr node) (dir : pystr) (sel : pystr -> bool) (name : pystr) :
  is_Some (f !! (dir ++ name)) -> name <> [] -> "/"%char ∉ name -> sel name = true ->
  dir ++ name ∈ Fs.listing f dir sel.
Proof.
  intros [v Hv] Hne Hsl Hsel. unfold Fs.listing.
  apply list_elem_of_In, filter_In. split.
  - apply list_elem_of_In, list_elem_of_fmap. exists (dir ++ name, v). split; [reflexivity|].
    apply elem_of_map_to_list. exact Hv.
  - rewrite startswith_app, drop_app_length, Hsel.
    rewrite !bool_decide_eq_false_2 by assumption. reflexivity.
Qed.

(** The directory of the results of an executing function is a candidate
    of the scan of [evalGeneric] for the same algorithm and file. *)
Lemma results_dir_candidate (algname basefile pathid : pystr) (w : world) :
  task_caption basefile <> [] -> "/"%char ∉ pathid ->
  is_Some (fs w !! results_dir algname basefile pathid) ->
  results_dir algname basefile pathid ∈ candidates w algname basefile.
Proof.
  intros Hcap Hsl Hex. unfold candidates, results_dir in *.
  replace (_RESDIR ++ algname ++ py "/" ++ _CLSDIR ++ task_caption basefile ++ pathid)
    with ((_RESDIR ++ algname ++ py "/" ++ _CLSDIR) ++ task_caption basefile ++ pathid) in *
    by (rewrite <- !app_assoc; reflexivity).
  apply listing_mem.
  - exact Hex.
  - destruct (task_caption basefile); [congruence | discriminate].
  - rewrite not_elem_of_app. split; [apply task_caption_plain | exact Hsl].
  - apply startswith_app.
Qed.

(** X16 (lines 114, 132 together with the task paths of the executing
    functions): the evaluation finds what the execution left.  When the
    directory [results/<algorithm>/clusters/<task><pathid>] of an executing
    function exists for the base file and the path-id of the evaluation,
    it is among the paths [evalGeneric] scans, so that the call does not
    end in the NameError of an empty scan: it returns, or an operation on
    the logs fails with an OSError. *)
Theorem evalGeneric_finds_results
    (pool_error : job -> option pystr) (task_hook : hook)
    (evalname algname basefile measdir pathid : pystr) (evalfile : emitter)
    (tidy : bool) (w : world)
    (Hpre : preconditions evalname algname basefile pathid = true)
    (Happ : appending evalfile)
    (Hsl : "/"%char ∉ pathid)
    (Hdir : Fs.isdir (fs w) (results_dir algname basefile pathid) = true) :
  results_dir algname basefile pathid ∈ candidates w algname basefile
  /\ (let r := evalGeneric pool_error task_hook evalname algname basefile measdir evalfile
                           pathid tidy w in
      snd r = Ok tt \/ snd r = Raise OSError).
Proof.
  assert (Hcap : task_caption basefile <> []).
  { unfold preconditions in Hpre. apply andb_true_iff in Hpre as [_ H].
    apply andb_true_iff in H as [H _]. unfold truthy in H.
    apply negb_true_iff, bool_decide_eq_false in H. exact H. }
  assert (Hin : results_dir algname basefile pathid ∈ candidates w algname basefile).
  { apply results_dir_candidate; try assumption.
    unfold Fs.isdir in Hdir. destruct (fs w !! _) as [[]|]; try discriminate. eauto. }
  split; [exact Hin|].
  destruct (evalGeneric_run pool_error task_hook evalname algname basefile measdir pathid
              evalfile tidy w Hpre Happ) as (w' & res & E & H).
  cbv zeta. rewrite E. cbn [snd].
  destruct H as [H | [H | (_ & -> & H)]]; [auto | auto |].
  specialize (H _ Hin). congruence.
Qed.

Lemma evalGeneric_finds_results_witness :
  let w1 := fst (execHirecs (fun _ => None) [] (py "nets/net.nsa") None 60 (py "#1")
                            world_nets) in
  results_dir (py "hirecs") (py "nets/net.nsa") (py "#1")
    ∈ candidates w1 (py "hirecs") (py "nets/net.nsa")
  /\ (let r := evalGeneric (fun _ => None) HookSet (py "mod") (py "hirecs") (py "nets/net.nsa")
                           _MODDIR (modEvaluate (py "nets/net.nsa") 60) (py "#1") true w1 in
      snd r = Ok tt \/ snd r = Raise OSError).
Proof.
  apply (evalGeneric_finds_results (fun _ => None) HookSet (py "mod") (py "hirecs")
           (py "nets/net.nsa") _MODDIR (py "#1") (modEvaluate (py "nets/net.nsa") 60) true).
  - vm_compute. reflexivity.
  - intros ?????????. eexists. reflexivity.
  - decide_it.
  - vm_compute. reflexivity.
Defined.

(** *** [execScp] *)

Lemma splitext_parts (s : pystr) : fst (OsPath.splitext s) ++ snd (OsPath.splitext s) = s.
Proof.
  unfold OsPath.splitext. destruct (_ && _); cbn [fst snd].
  - unfold slice_to, slice_from. apply take_drop.
  - apply app_nil_r.
Qed.

Lemma splitext_ext_nosep (s : pystr) : "/"%char ∉ s -> "/"%char ∉ snd (OsPath.splitext s).
Proof.
  intros H Hin. apply H. rewrite <- (splitext_parts s). apply elem_of_app. right. exact Hin.
Qed.

Lemma last_app_plain (pre s : pystr) :
  s <> [] -> "/"%char ∉ s -> exists c, last (pre ++ s) = Some c /\ c <> "/"%char.
Proof.
  intros Hne Hsl. destruct (last s) as [c|] eqn:L.
  - exists c. split.
    + rewrite last_app, L. reflexivity.
    + intros ->. apply Hsl. apply last_Some in L as [s' ->].
      apply elem_of_app. right. apply list_elem_of_here.
  - apply last_None in L. congruence.
Qed.

Lemma scp_size_str (k : Z) :
  k ∈ scp_sizes ->
  exists c, py_str k = [c] /\ (c <> "/"%char /\ c <> "."%char)
            /\ k = Z.of_nat (nat_of_ascii c) - 48.
Proof.
  unfold scp_sizes. change (seqZ 3 6) with [3; 4; 5; 6; 7; 8].
  rewrite !elem_of_cons, elem_of_nil.
  intros [->|[->|[->|[->|[->|[->|[]]]]]]]; eexists; (split; [reflexivity|]);
    (split; [split; discriminate | reflexivity]).
Qed.

Lemma scp_task_plain (task : pystr) (k : Z) :
  "/"%char ∉ task -> k ∈ scp_sizes -> "/"%char ∉ scp_task task k.
Proof.
  intros Ht Hk. destruct (scp_size_str k Hk) as (c & E & [Hc _] & _).
  unfold scp_task. rewrite E, !not_elem_of_app. repeat split.
  - apply splitext_root_nosep, Ht.
  - decide_it.
  - decide_it.
  - rewrite not_elem_of_cons. split; [congruence | apply not_elem_of_nil].
  - apply splitext_ext_nosep, Ht.
Qed.

(** One clique size: the directory of the size is prepared and one job is
    offered to the pool; the callback of the job looks at that directory. *)
Lemma execScp_step_run (PYEXEC : pystr) (pool_error : xjob -> option exn)
    (netfile : pystr) (timeout : Z) (pathid : pystr) (k : Z) :
  "/"%char ∉ pathid -> k ∈ scp_sizes ->
  exists j,
    (forall pool w,
        execScp_step PYEXEC pool_error netfile (task_caption netfile) timeout pathid pool k w
        = (preparePath (scp_dir netfile pathid k) ;;; launch pool_error pool j) w)
    /\ x_name j = scp_task (task_caption netfile) k ++ py "_scp"
    /\ x_ondone j = Some ScpTidy
    /\ x_timeout j = timeout
    /\ scp_tidy_path j = Ok (scp_dir netfile pathid k).
Proof.
  intros Hsl Hk. unfold execScp_step. cbv zeta.
  pose proof (scp_task_plain (task_caption netfile) k (task_caption_plain netfile) Hk) as Hplain.
  unfold scp_dir. unfold scp_task in *.
  destruct (OsPath.splitext (task_caption netfile)) as [base shuf]. cbn [fst snd] in *.
  eexists. split; [intros pool w; reflexivity|].
  cbn [x_name x_ondone x_timeout]. split; [reflexivity|]. split; [reflexivity|].
  split; [reflexivity|].
  unfold scp_tidy_path. cbn [x_args].
  match goal with |- context [last (?l ++ [?a1; ?a2; ?a3; ?a4; ?a5; ?a6])] =>
    change (l ++ [a1; a2; a3; a4; a5; a6]) with (l ++ ([a1; a2; a3; a4; a5] ++ [a6]));
    rewrite (app_assoc l), last_snoc
  end.
  cbn [rbind].
  set (ktask := base ++ [_SEPPARS] ++ (py "k" ++ py_str k) ++ shuf) in *.
  set (taskpath := _RESDIR ++ py "scp" ++ py "/" ++ _CLSDIR ++ ktask ++ pathid).
  replace ((py "../" ++ taskpath ++ py "/" ++ ktask) ++ _EXTCLNODES)
    with ((py "../" ++ taskpath) ++ "/"%char :: (ktask ++ _EXTCLNODES))
    by (rewrite <- !app_assoc; reflexivity).
  rewrite split_dir_name.
  - cbn [fst]. f_equal. change 3 with (len (py "../")). apply slice_from_app.
  - unfold taskpath.
    replace (py "../" ++ _RESDIR ++ py "scp" ++ py "/" ++ _CLSDIR ++ ktask ++ pathid)
      with ((py "../" ++ _RESDIR ++ py "scp" ++ py "/" ++ _CLSDIR) ++ (ktask ++ pathid))
      by (rewrite <- !app_assoc; reflexivity).
    apply last_app_plain.
    + unfold ktask. destruct base; discriminate.
    + rewrite not_elem_of_app. split; assumption.
  - rewrite not_elem_of_app. split; [assumption | decide_it].
Qed.

Section FreshRuns.

Variable pool_error : xjob -> option exn.
Hypothesis Hacc : forall j, pool_error j = None.
Variable D : Z -> pystr.
Variable P : Z -> xjob -> Prop.
Variable step : list xjob -> Z -> M (list xjob).

(** A loop of steps that each prepare a directory of their own and offer
    one job, in a world where none of the directories exists. *)
Lemma fold_fresh (ks : list Z) :
  (forall k, k ∈ ks ->
      exists j, P k j /\ forall pool w,
        step pool k w = (preparePath (D k) ;;; launch pool_error pool j) w) ->
  NoDup ks ->
  (forall k k', k ∈ ks -> k' ∈ ks -> k <> k' -> D k' ∉ D k :: Fs.ancestors (D k)) ->
  forall pool w,
  (forall k, k ∈ ks -> fs w !! D k = None) ->
  (forall k, k ∈ ks -> no_file_above (fs w) (D k)) ->
  exists w' js, foldM ks step pool w = (w', Ok (pool ++ js))
    /\ Forall2 P ks js
    /\ (forall k, k ∈ ks -> Fs.isdir (fs w') (D k) = true)
    /\ backups w' = backups w /\ stdout w' = stdout w /\ stderr w' = stderr w
    /\ (forall q n, fs w !! q = Some n -> fs w' !! q = Some n).
Proof.
  induction ks as [|k ks IH]; intros Hstep Hnd Hdist pool w Habs Habove.
  - exists w, []. cbn [foldM]. rewrite app_nil_r. split; [reflexivity|].
    split; [constructor|].
    split; [intros k Hk; apply elem_of_nil in Hk; contradiction|]. auto.
  - apply NoDup_cons in Hnd as [Hk Hnd].
    destruct (Hstep k ltac:(apply list_elem_of_here)) as (j & HP & Hrun).
    pose proof (Habs k ltac:(apply list_elem_of_here)) as Hak.
    pose proof (Habove k ltac:(apply list_elem_of_here)) as Hbk.
    pose proof (preparePath_creates (D k) w Hak Hbk) as Hp.
    set (w1 := set_fs (foldr (fun a f => <[a := Dir]> f) (fs w) (D k :: Fs.ancestors (D k))) w)
      in Hp.
    assert (Hkeep1 : forall q n, fs w !! q = Some n -> fs w1 !! q = Some n).
    { intros q n Hq. apply mkdirs_keeps; assumption. }
    assert (Hnew1 : forall q, fs w !! q = None ->
                fs w1 !! q = if bool_decide (q ∈ D k :: Fs.ancestors (D k))
                             then Some Dir else None).
    { intros q Hq. unfold w1. cbn [fs set_fs]. rewrite lookup_mkdirs, Hq. reflexivity. }
    assert (Hd1 : Fs.isdir (fs w1) (D k) = true).
    { unfold Fs.isdir, w1. cbn [fs set_fs].
      rewrite lookup_mkdirs, bool_decide_eq_true_2 by apply list_elem_of_here. reflexivity. }
    assert (Hb1 : backups w1 = backups w) by reflexivity.
    assert (Ho1 : stdout w1 = stdout w) by reflexivity.
    assert (He1 : stderr w1 = stderr w) by reflexivity.
    destruct (IH ltac:(intros; apply Hstep; apply list_elem_of_further; assumption) Hnd
                 ltac:(intros; apply Hdist; try apply list_elem_of_further; assumption)
                 (pool ++ [j]) w1) as (w' & js & Hf & HPs & Hd & Hb & Ho & He & Hkeep).
    + intros k' Hk'. rewrite Hnew1 by (apply Habs, list_elem_of_further, Hk').
      rewrite bool_decide_eq_false_2; [reflexivity|].
      apply Hdist; [apply list_elem_of_here | apply list_elem_of_further, Hk' |].
      intros ->. contradiction.
    + intros k' Hk'. unfold no_file_above. apply Forall_forall. intros a Ha.
      pose proof (Habove k' ltac:(apply list_elem_of_further, Hk')) as Hab.
      unfold no_file_above in Hab. rewrite Forall_forall in Hab. specialize (Hab a Ha).
      destruct (fs w !! a) as [n|] eqn:L.
      * rewrite (Hkeep1 a n L). exact Hab.
      * rewrite (Hnew1 a L). destruct (bool_decide _); exact I.
    + exists w', (j :: js). split.
      { cbn [foldM]. unfold bind at 1. rewrite Hrun.
        unfold bind at 1. rewrite Hp. unfold launch. rewrite Hacc. unfold ret at 1.
        rewrite Hf, <- app_assoc. reflexivity. }
      split; [constructor; assumption|].
      split.
      { intros k' [->|Hk']%elem_of_cons; [|apply Hd, Hk'].
        unfold Fs.isdir in *. destruct (fs w1 !! D k) as [[|c]|] eqn:L; try discriminate.
        rewrite (Hkeep _ _ L). reflexivity. }
      split; [congruence|]. split; [congruence|]. split; [congruence|].
      intros q n Hq. apply Hkeep, Hkeep1, Hq.
Qed.

End FreshRuns.

Lemma scp_dir_distinct (netfile pathid : pystr) (k k' : Z) :
  k ∈ scp_sizes -> k' ∈ scp_sizes -> k <> k' ->
  scp_dir netfile pathid k' ∉ scp_dir netfile pathid k :: Fs.ancestors (scp_dir netfile pathid k).
Proof.
  intros Hk Hk' Hne.
  destruct (scp_size_str k Hk) as (c & E & _ & Ec).
  destruct (scp_size_str k' Hk') as (c' & E' & _ & Ec').
  assert (Hcc : c <> c') by congruence.
  unfold scp_dir, scp_task. rewrite E, E'.
  set (A := _RESDIR ++ py "scp" ++ py "/" ++ _CLSDIR).
  set (B := fst (OsPath.splitext (task_caption netfile))).
  set (C := snd (OsPath.splitext (task_caption netfile))).
  assert (Hshape : forall x : ascii,
             _RESDIR ++ py "scp" ++ py "/" ++ _CLSDIR
               ++ (B ++ [_SEPPARS] ++ (py "k" ++ [x]) ++ C) ++ pathid
             = (A ++ B ++ [_SEPPARS] ++ py "k") ++ x :: (C ++ pathid)).
  { intros x. unfold A. rewrite <- !app_assoc. reflexivity. }
  rewrite !Hshape.
  intros [Heq | Hanc]%elem_of_cons.
  - apply app_inv_head in Heq. congruence.
  - apply ancestors_spec in Hanc as [r Hr].
    apply (f_equal length) in Hr. rewrite !length_app in Hr. cbn [length] in Hr.
    rewrite !length_app in Hr. lia.
Qed.

(** X17 (lines 576-618): [execScp] on a network without earlier results.
    When the pool takes every job and none of the directories
    [results/scp/clusters/<name>!k<size><shuffle><pathid>] of the clique
    sizes 3 to 8 exists, the call returns 6: each directory is created, no
    backup is made and no existing path is changed, and six jobs reach the
    pool in the order of the sizes, each named
    [<name>!k<size><shuffle>_scp].  The callback of each job inspects
    exactly the directory that was prepared for that job: the directory
    part of its last argument, without the leading [../]. *)
Theorem execScp_fresh (PYEXEC : pystr) (pool_error : xjob -> option exn)
    (pool : list xjob) (netfile : pystr) (asym : option bool) (timeout : Z)
    (pathid : pystr) (w : world)
    (Hnet : netfile <> []) (Htime : 0 <= timeout) (Hcap : task_caption netfile <> [])
    (Hsl : "/"%char ∉ pathid)
    (Hacc : forall j, pool_error j = None)
    (Habs : forall k, k ∈ scp_sizes -> fs w !! scp_dir netfile pathid k = None)
    (Habove : forall k, k ∈ scp_sizes -> no_file_above (fs w) (scp_dir netfile pathid k)) :
  exists w' js,
    execScp PYEXEC pool_error pool netfile asym timeout pathid w = (w', Ok (pool ++ js, 6))
    /\ Forall2 (fun k j =>
                  x_name j = scp_task (task_caption netfile) k ++ py "_scp"
                  /\ x_ondone j = Some ScpTidy
                  /\ x_timeout j = timeout
                  /\ scp_tidy_path j = Ok (scp_dir netfile pathid k))
               scp_sizes js
    /\ (forall k, k ∈ scp_sizes -> Fs.isdir (fs w') (scp_dir netfile pathid k) = true)
    /\ backups w' = backups w
    /\ (forall q n, fs w !! q = Some n -> fs w' !! q = Some n).
Proof.
  assert (Hhead : truthy netfile && (0 <=? timeout) = true).
  { rewrite truthy_ne by exact Hnet. apply Z.leb_le. exact Htime. }
  pose proof (truthy_ne _ Hcap) as Htask.
  destruct (fold_fresh pool_error Hacc (scp_dir netfile pathid)
              (fun k j => x_name j = scp_task (task_caption netfile) k ++ py "_scp"
                          /\ x_ondone j = Some ScpTidy
                          /\ x_timeout j = timeout
                          /\ scp_tidy_path j = Ok (scp_dir netfile pathid k))
              (execScp_step PYEXEC pool_error netfile (task_caption netfile) timeout pathid)
              scp_sizes) with (pool := pool) (w := w)
    as (w' & js & Hf & HP & Hd & Hb & _ & _ & Hkeep).
  - intros k Hk.
    destruct (execScp_step_run PYEXEC pool_error netfile timeout pathid k Hsl Hk)
      as (j & Hrun & Hj).
    exists j. split; [exact Hj | exact Hrun].
  - unfold scp_sizes. apply NoDup_seqZ.
  - intros k k' Hk Hk' Hne. apply scp_dir_distinct; assumption.
  - exact Habs.
  - exact Habove.
  - exists w', js. split; [|auto].
    unfold execScp. rewrite exec_assert_pass by exact Hhead.
    exec_open. rewrite assert_task_pass by exact Htask.
    change (seqZ 3 (8 + 1 - 3)) with scp_sizes.
    unfold bind at 1. rewrite Hf. reflexivity.
Qed.

Lemma execScp_fresh_witness :
  exists w' js,
    execScp (py "/usr/bin/python") (fun _ => None) [] (py "nets/net.1.nsa") None 60 (py "#1")
            world_nets = (w', Ok ([] ++ js, 6))
    /\ Forall2 (fun k j =>
                  x_name j = scp_task (task_caption (py "nets/net.1.nsa")) k ++ py "_scp"
                  /\ x_ondone j = Some ScpTidy
                  /\ x_timeout j = 60
                  /\ scp_tidy_path j = Ok (scp_dir (py "nets/net.1.nsa") (py "#1") k))
               scp_sizes js
    /\ (forall k, k ∈ scp_sizes ->
          Fs.isdir (fs w') (scp_dir (py "nets/net.1.nsa") (py "#1") k) = true)
    /\ backups w' = backups world_nets
    /\ (forall q n, fs world_nets !! q = Some n -> fs w' !! q = Some n).
Proof.
  apply (execScp_fresh (py "/usr/bin/python") (fun _ => None) [] (py "nets/net.1.nsa") None 60
           (py "#1") world_nets);
    [discriminate | lia | vm_compute; discriminate | decide_it | reflexivity | |];
    intros k Hk; unfold scp_sizes in Hk; change (seqZ 3 6) with [3; 4; 5; 6; 7; 8] in Hk;
    rewrite !elem_of_cons, elem_of_nil in Hk;
    destruct Hk as [->|[->|[->|[->|[->|[->|[]]]]]]];
    first [vm_compute; reflexivity | no_file_it].
Defined.

(** A concrete run: the names of the jobs of a shuffled network. *)
Example execScp_run :
  let r := execScp (py "/usr/bin/python") (fun _ => None) [] (py "nets/net.1.nsa") None 60
                   (py "#1") world_nets in
  match snd r with
  | Ok (js, n) =>
      n = 6
      /\ map x_name js = [py "net!k3.1_scp"; py "net!k4.1_scp"; py "net!k5.1_scp";
                          py "net!k6.1_scp"; py "net!k7.1_scp"; py "net!k8.1_scp"]
      /\ (hd_error js ≫= fun j => last (x_args j))
         = Some (py "../results/scp/clusters/net!k3.1#1/net!k3.1.cnl")
  | Raise _ => False
  end.
Proof. vm_compute. repeat split. Qed.

Lemma scp_tidy_cases (is_empty : gmap pystr node -> pystr -> bool) (j : xjob) (w : world) :
  scp_tidy is_empty j w
  = match scp_tidy_path j with
    | Raise e => (w, Raise e)
    | Ok path => if is_empty (fs w) path then rmdir path w else (w, Ok tt)
    end.
Proof.
  unfold scp_tidy, bind, lift, gets. destruct (scp_tidy_path j) as [path|e]; [|reflexivity].
  destruct (is_empty (fs w) path); reflexivity.
Qed.

(** X18 (lines 607-612): the callback [tidy] of [execScp] is safe whatever
    the test for an empty directory answers.  It changes no path but the
    directory it inspects; when anything lies below that directory the
    file system stays as it was, since [os.rmdir] removes empty directories
    only; and it prints nothing. *)
Theorem scp_tidy_safe (is_empty : gmap pystr node -> pystr -> bool) (j : xjob) (w : world) :
  let w' := fst (scp_tidy is_empty j w) in
  (forall path k, scp_tidy_path j = Ok path -> k <> path -> fs w' !! k = fs w !! k)
  /\ (forall path k, scp_tidy_path j = Ok path -> Fs.below path k = true ->
        is_Some (fs w !! k) -> fs w' = fs w)
  /\ (forall e, scp_tidy_path j = Raise e -> w' = w)
  /\ stdout w' = stdout w /\ stderr w' = stderr w.
Proof.
  intros w'. unfold w'. rewrite scp_tidy_cases.
  destruct (scp_tidy_path j) as [path|e].
  2: { cbn [fst]. repeat split; congruence. }
  destruct (is_empty (fs w) path).
  2: { cbn [fst]. repeat split; congruence. }
  unfold rmdir.
  destruct (fs w !! path) as [[|c]|] eqn:L; try (cbn [fst]; repeat split; congruence).
  destruct (bool_decide _) eqn:B; [|cbn [fst]; repeat split; congruence].
  apply bool_decide_eq_true in B. cbn [fst fs set_fs stdout stderr].
  split; [|split; [|split; [discriminate | split; reflexivity]]].
  - intros p k [= <-] Hk. apply lookup_delete_ne. congruence.
  - intros p k [= <-] Hb [n Hn]. exfalso.
    assert (Hin : filter (fun kv : pystr * node => Fs.below path kv.1 = true) (fs w) !! k
                  = Some n).
    { apply map_lookup_filter_Some. split; assumption. }
    rewrite B in Hin. rewrite lookup_empty in Hin. discriminate.
Qed.

Lemma int_ok_plain (s : pystr) : int_ok s = true -> ("/"%char ∉ s) /\ ("."%char ∉ s).
Proof.
  intros H. split; eapply int_ok_no_char; try exact H; reflexivity.
Qed.

(** X19 (lines 593-596 with lines 168-195): [execScp] puts the clique size
    between the name of a shuffled network and its shuffle index, so that
    the evaluation still reads the index.  For the network [base.shuffle]
    the directory of a size is named [base!k<size>.shuffle<pathid>];
    [evalGeneric] decodes the shuffle from that name without a warning, and
    the values of all the shuffles of one size go to the one file
    [base!k<size><pathid>.<measure>] of the measure directory, the sizes in
    files of their own. *)
Theorem scp_shuffles_accumulate (base sh pathid measdir evalname : pystr) (k : Z) (w : world)
    (Hbase : base <> [])
    (Hb : free_of (py "/.") base = true)
    (Hsh : int_ok sh = true)
    (Hpid : free_of (py "/.") pathid = true)
    (Hk : k ∈ scp_sizes) :
  let clsname := scp_task (base ++ "."%char :: sh) k ++ pathid in
  let cdir := _RESDIR ++ py "scp/" ++ _CLSDIR in
  clsname = base ++ py "!k" ++ py_str k ++ "."%char :: sh ++ pathid
  /\ decode_shuffle clsname (len clsname - len pathid) w = (w, Ok sh)
  /\ taskoutp_of (logsbase_of (cdir ++ clsname) measdir) sh pathid evalname
     = logsbase_of cdir measdir ++ base ++ py "!k" ++ py_str k ++ pathid ++ py "." ++ evalname.
Proof.
  intros clsname cdir.
  destruct (int_ok_plain sh Hsh) as [Hsh1 Hsh2].
  destruct (scp_size_str k Hk) as (c & E & [Hc Hcd] & Ek).
  assert (Hb1 : "/"%char ∉ base) by (eapply free_of_notin; [exact Hb | decide_it]).
  assert (Hb2 : "."%char ∉ base) by (eapply free_of_notin; [exact Hb | decide_it]).
  assert (Hp1 : "/"%char ∉ pathid) by (eapply free_of_notin; [exact Hpid | decide_it]).
  assert (Hp2 : "."%char ∉ pathid) by (eapply free_of_notin; [exact Hpid | decide_it]).
  assert (Hx : OsPath.splitext (base ++ "."%char :: sh) = (base, "."%char :: sh)).
  { apply (splitext_last [] base sh); try assumption. apply existsb_not_dot; assumption. }
  assert (Hname : clsname = (base ++ py "!k" ++ py_str k) ++ "."%char :: sh ++ pathid).
  { unfold clsname, scp_task. rewrite Hx. cbn [fst snd]. rewrite <- !app_assoc. reflexivity. }
  split; [rewrite Hname, <- !app_assoc; reflexivity|].
  assert (Hstem1 : "/"%char ∉ base ++ py "!k" ++ py_str k).
  { rewrite E, !not_elem_of_app. repeat split; [assumption | decide_it |].
    rewrite not_elem_of_cons. split; [congruence | apply not_elem_of_nil]. }
  split.
  - rewrite Hname.
    pose proof (decode_shuffle_last (base ++ py "!k" ++ py_str k) sh pathid w Hsh2) as H.
    cbv zeta in H. rewrite H, Hsh.
    destruct sh; [discriminate Hsh | reflexivity].
  - rewrite logsbase_of_component.
    2: { rewrite Hname, !not_elem_of_app, not_elem_of_cons, not_elem_of_app.
         apply not_elem_of_app in Hstem1 as [? Hs2]. apply not_elem_of_app in Hs2 as [? ?].
         repeat split; try assumption. discriminate. }
    rewrite Hname.
    rewrite (taskoutp_of_shuffle (logsbase_of cdir measdir) (base ++ py "!k" ++ py_str k)
               sh pathid evalname); try assumption.
    + rewrite <- !app_assoc. reflexivity.
    + rewrite not_elem_of_app. split; assumption.
    + rewrite existsb_app. apply orb_true_iff. left. apply existsb_not_dot; assumption.
Qed.

Lemma scp_shuffles_accumulate_witness :
  let cdir := _RESDIR ++ py "scp/" ++ _CLSDIR in
  taskoutp_of (logsbase_of (cdir ++ scp_task (py "net.1") 3 ++ py "#1") _NMIDIR)
              (py "1") (py "#1") (py "nmi")
  = py "results/scp/nmi/net!k3#1.nmi"
  /\ taskoutp_of (logsbase_of (cdir ++ scp_task (py "net.2") 3 ++ py "#1") _NMIDIR)
                 (py "2") (py "#1") (py "nmi")
     = py "results/scp/nmi/net!k3#1.nmi".
Proof.
  split.
  - exact (proj2 (proj2 (scp_shuffles_accumulate (py "net") (py "1") (py "#1") _NMIDIR (py "nmi")
                           3 world_nets ltac:(discriminate) ltac:(reflexivity)
                           ltac:(reflexivity) ltac:(reflexivity) ltac:(decide_it)))).
  - exact (proj2 (proj2 (scp_shuffles_accumulate (py "net") (py "2") (py "#1") _NMIDIR (py "nmi")
                           3 world_nets ltac:(discriminate) ltac:(reflexivity)
                           ltac:(reflexivity) ltac:(reflexivity) ltac:(decide_it)))).
Defined.

(** ** The evaluation leaves the clusters alone *)

Section Keeps.

Variable K : pystr -> Prop.

Lemma keeps_bind {A B} (c : M A) (k : A -> M B) :
  keeps c K -> (forall a, keeps (k a) K) -> keeps (bind c k) K.
Proof.
  intros Hc Hk w p Hp. unfold bind. specialize (Hc w p Hp).
  destruct (c w) as [w1 [a|e]]; cbn [fst] in *; [|exact Hc].
  rewrite (Hk a w1 p Hp). exact Hc.
Qed.

Lemma keeps_pure {A} (c : M A) : (forall w, fs (fst (c w)) = fs w) -> keeps c K.
Proof. intros H w p _. rewrite H. reflexivity. Qed.

Lemma keeps_ret {A} (a : A) : keeps (ret a) K.
Proof. apply keeps_pure. reflexivity. Qed.

Lemma keeps_raise {A} e : keeps (@raise A e) K.
Proof. apply keeps_pure. reflexivity. Qed.

Lemma keeps_lift {A} (r : result A) : keeps (lift r) K.
Proof. apply keeps_pure. reflexivity. Qed.

Lemma keeps_gets {A} (f : world -> A) : keeps (gets f) K.
Proof. apply keeps_pure. reflexivity. Qed.

Lemma keeps_assert b : keeps (assert b) K.
Proof. destruct b; [apply keeps_ret | apply keeps_raise]. Qed.

Lemma keeps_when b (c : M unit) : keeps c K -> keeps (when b c) K.
Proof. intros H. destruct b; [exact H | apply keeps_ret]. Qed.

Lemma keeps_print_out_fmt t args : keeps (print_out_fmt t args) K.
Proof.
  apply keeps_pure. intros w. unfold print_out_fmt, bind, lift.
  destruct (format t args); reflexivity.
Qed.

Lemma keeps_print_err_fmt t args : keeps (print_err_fmt t args) K.
Proof.
  apply keeps_pure. intros w. unfold print_err_fmt, bind, lift.
  destruct (format t args); reflexivity.
Qed.

Lemma keeps_foldM {A S} (l : list A) (body : S -> A -> M S) :
  (forall a, a ∈ l -> forall s, keeps (body s a) K) -> forall s, keeps (foldM l body s) K.
Proof.
  induction l as [|a l IH]; intros H s; cbn [foldM].
  - apply keeps_ret.
  - apply keeps_bind.
    + apply H, list_elem_of_here.
    + intros s'. apply IH. intros a' Ha'. apply H, list_elem_of_further, Ha'.
Qed.

Lemma keeps_forM {A} (l : list A) (body : A -> M unit) :
  (forall a, keeps (body a) K) -> keeps (forM l body) K.
Proof.
  intros H. induction l as [|a l IH]; cbn [forM].
  - apply keeps_ret.
  - apply keeps_bind; [apply H | intros _; exact IH].
Qed.

Lemma keeps_total {A} (c : M A) :
  (forall w, exists a msgs w', c w = (w', Ok a) /\ printed msgs w w') -> keeps c K.
Proof.
  intros H. apply keeps_pure. intros w. destruct (H w) as (a & msgs & w' & -> & Hp).
  apply (printed_fs _ _ _ Hp).
Qed.

Lemma keeps_rmtree p :
  (forall k, K k -> k <> p /\ Fs.below p k = false) -> keeps (Fs.rmtree p) K.
Proof.
  intros H w k Hk. destruct (H k Hk) as [Hne Hb]. unfold Fs.rmtree.
  destruct (fs w !! p) as [[|c]|]; try reflexivity.
  cbn [fst fs set_fs]. rewrite lookup_rmtree, Hb, bool_decide_eq_false_2 by assumption.
  reflexivity.
Qed.

Lemma keeps_makedirs p :
  (forall k, K k -> k ∉ p :: Fs.ancestors p) -> keeps (Fs.makedirs p) K.
Proof.
  intros H w k Hk. unfold Fs.makedirs.
  destruct (Fs.exists_ (fs w) p); [reflexivity|].
  destruct (existsb _ _); [reflexivity|].
  cbn [fst fs set_fs]. rewrite lookup_mkdirs, bool_decide_eq_false_2 by (apply H, Hk).
  reflexivity.
Qed.

Lemma keeps_remove p : (forall k, K k -> k <> p) -> keeps (Fs.remove p) K.
Proof.
  intros H w k Hk. unfold Fs.remove.
  destruct (fs w !! p) as [[|c]|]; try reflexivity.
  cbn [fst fs set_fs]. apply lookup_delete_ne. intros ->. exact (H _ Hk eq_refl).
Qed.

End Keeps.

(** The name of the clusters directory does not start inside the name of an
    algorithm that holds no slash and does not end with [clusters]. *)
Lemma no_match_in_algname (alg : pystr) :
  "/"%char ∉ alg -> endswith alg (py "clusters") = false ->
  startswith (alg ++ py "/" ++ _CLSDIR) _CLSDIR = false.
Proof.
  intros Hsl Hend.
  destruct (startswith (alg ++ py "/" ++ _CLSDIR) _CLSDIR) eqn:E; [|reflexivity].
  exfalso. apply startswith_spec in E as [r E].
  destruct alg as [|c1 [|c2 [|c3 [|c4 [|c5 [|c6 [|c7 [|c8 [|c9 alg]]]]]]]]];
    try congruence; cbn in E; try (injection E as; subst; discriminate).
  injection E as; subst. apply Hsl.
  do 8 apply list_elem_of_further. apply list_elem_of_here.
Qed.

Lemma replace_in_algname (measdir alg : pystr) :
  "/"%char ∉ alg -> endswith alg (py "clusters") = false ->
  replace_aux _CLSDIR measdir (alg ++ py "/" ++ _CLSDIR) O = alg ++ py "/" ++ measdir.
Proof.
  induction alg as [|c alg IH]; intros Hsl Hend.
  - cbn. rewrite app_nil_r. reflexivity.
  - pose proof (no_match_in_algname (c :: alg) Hsl Hend) as Hno.
    change ((c :: alg) ++ py "/" ++ _CLSDIR) with (c :: (alg ++ py "/" ++ _CLSDIR)) in *.
    cbn [replace_aux]. rewrite Hno. cbn [app]. f_equal. apply IH.
    + apply not_elem_of_cons in Hsl as [_ H]. exact H.
    + destruct (endswith alg (py "clusters")) eqn:E; [|reflexivity].
      apply endswith_spec in E as [b ->].
      assert (H : endswith (c :: b ++ py "clusters") (py "clusters") = true).
      { apply endswith_spec. exists (c :: b). reflexivity. }
      congruence.
Qed.

(** Line 183 for the directory of the clusters of an algorithm whose name
    holds no slash and does not end with [clusters]. *)
Lemma logsbase_of_cdir (alg measdir : pystr) :
  "/"%char ∉ alg -> endswith alg (py "clusters") = false ->
  logsbase_of (_RESDIR ++ alg ++ py "/" ++ _CLSDIR) measdir
  = _RESDIR ++ alg ++ py "/" ++ measdir.
Proof.
  intros Hsl Hend. unfold logsbase_of, replace.
  change (_RESDIR ++ alg ++ py "/" ++ _CLSDIR)
    with ("r"%char :: "e"%char :: "s"%char :: "u"%char :: "l"%char :: "t"%char :: "s"%char
          :: "/"%char :: (alg ++ py "/" ++ _CLSDIR)).
  cbn [replace_aux startswith _CLSDIR py list_ascii_of_string Ascii.eqb Bool.eqb andb].
  rewrite replace_in_algname by assumption. reflexivity.
Qed.

Lemma diverge (X a b : pystr) (c m : ascii) : c <> m -> X ++ c :: a <> X ++ m :: b.
Proof. intros Hc E. apply app_inv_head in E. congruence. Qed.

Lemma keeps_bind_gets {A B} (K : pystr -> Prop) (f : world -> A) (k : A -> M B) :
  (forall w, keeps (k (f w)) K) -> keeps (bind (gets f) k) K.
Proof. intros H w p Hp. unfold bind, gets. apply (H w w p Hp). Qed.

Section KeepsClusters.

Variable algname : pystr.
Hypothesis Hsl : "/"%char ∉ algname.
Hypothesis Hend : endswith algname (py "clusters") = false.

(** The measure directory: a name that does not start like [clusters], and
    its slash. *)
Variable m : ascii.
Variable md : pystr.
Hypothesis Hm : m <> "c"%char.

Let X : pystr := _RESDIR ++ algname ++ py "/".
Let measdir : pystr := (m :: md) ++ py "/".
Let K : pystr -> Prop := clusters_of algname.

Lemma clusters_of_shape k : K k -> exists r, k = X ++ "c"%char :: r.
Proof.
  unfold K, clusters_of, Fs.has_prefix. intros H. apply startswith_spec in H as [r ->].
  eexists. unfold X. rewrite <- !app_assoc. reflexivity.
Qed.

Lemma logsbase_shape name :
  "/"%char ∉ name ->
  logsbase_of ((_RESDIR ++ algname ++ py "/" ++ _CLSDIR) ++ name) measdir
  = (X ++ m :: md) ++ "/"%char :: name.
Proof.
  intros Hname. rewrite logsbase_of_component by assumption.
  rewrite logsbase_of_cdir by assumption. unfold X, measdir.
  rewrite <- !app_assoc. reflexivity.
Qed.

Lemma eval_file_keeps evalname evalfile tsk clsname shuffle logsbase taskoutp rcpoutp
    jobs cfile :
  appending evalfile ->
  keeps (eval_file evalname algname evalfile tsk clsname shuffle logsbase taskoutp rcpoutp
                   jobs cfile) K.
Proof.
  intros Happ. unfold eval_file.
  apply keeps_bind; [apply keeps_gets|]. intros isd. destruct isd; [apply keeps_ret|].
  cbv zeta. apply keeps_bind; [apply keeps_assert|]. intros _.
  destruct (find _ _ =? -1); apply keeps_pure; intros w;
    match goal with |- context [evalfile ?a ?b ?c ?d ?e ?f ?g ?h w] =>
      destruct (Happ a b c d e f g h w) as [j ->]; reflexivity end.
Qed.

Lemma eval_group_keeps evalname evalfile pathid tidy taskcapt rcpoutp tsk st name :
  appending evalfile -> "/"%char ∉ name ->
  keeps (eval_group evalname algname measdir evalfile pathid tidy taskcapt rcpoutp tsk st
                    ((_RESDIR ++ algname ++ py "/" ++ _CLSDIR) ++ name)) K.
Proof.
  intros Happ Hname. unfold eval_group.
  apply keeps_bind; [apply keeps_gets|]. intros isd.
  destruct isd; cbn [negb]; [|apply keeps_ret].
  apply keeps_bind; [apply keeps_total; intros; apply check_pathid_total|]. intros keep.
  destruct keep; cbn [negb]; [|apply keeps_ret].
  apply keeps_bind; [apply keeps_lift|]. intros inst.
  destruct inst; [apply keeps_ret|].
  apply keeps_bind; [apply keeps_total; intros; apply decode_shuffle_total|]. intros shuffle.
  rewrite logsbase_shape by assumption.
  set (L := (X ++ m :: md) ++ "/"%char :: name).
  assert (HL : L = X ++ m :: (md ++ "/"%char :: name)).
  { unfold L. rewrite <- app_assoc. reflexivity. }
  apply keeps_bind.
  { unfold prepare_logs.
    apply keeps_bind; [apply keeps_gets|]. intros ex.
    apply keeps_bind.
    - apply keeps_when, keeps_rmtree. intros k Hk.
      destruct (clusters_of_shape k Hk) as [r ->]. split.
      + rewrite HL. apply diverge. congruence.
      + destruct (Fs.below L (X ++ "c"%char :: r)) eqn:B; [|reflexivity].
        apply below_spec in B as [t B]. rewrite HL, <- app_assoc in B.
        exfalso. revert B. apply diverge. congruence.
    - intros _. apply keeps_bind; [apply keeps_gets|]. intros ex'.
      apply keeps_when, keeps_makedirs. intros k Hk.
      destruct (clusters_of_shape k Hk) as [r ->].
      intros [E | Hanc]%elem_of_cons.
      + revert E. rewrite HL. apply diverge. congruence.
      + apply ancestors_spec in Hanc as [t E]. rewrite HL, <- app_assoc in E.
        symmetry in E. revert E. apply diverge. congruence. }
  intros _. apply keeps_bind.
  { unfold tidy_taskoutp.
    apply keeps_bind; [apply keeps_gets|]. intros ex.
    apply keeps_when, keeps_remove. intros k Hk.
    destruct (clusters_of_shape k Hk) as [r ->].
    assert (Hroot : fst (OsPath.splitext L) = X ++ m :: (md ++ "/"%char :: fst (OsPath.splitext name))).
    { unfold L. rewrite splitext_component by assumption. cbn [fst].
      rewrite <- app_assoc. reflexivity. }
    unfold taskoutp_of. cbn [join]. rewrite Hroot, HL.
    destruct (truthy shuffle); cbn [andb]; [destruct (truthy pathid)|];
      rewrite <- ?app_assoc; cbn [app]; apply diverge; congruence. }
  intros _. apply keeps_bind; [apply keeps_gets|]. intros files.
  apply keeps_bind; [|intros; apply keeps_ret].
  apply keeps_foldM. intros cfile _ jobs. apply eval_file_keeps, Happ.
Qed.

Lemma run_jobs_keeps (pool_error : job -> option pystr) st :
  keeps (run_jobs pool_error algname st) K.
Proof.
  unfold run_jobs. destruct (jobs st) as [|j0 js].
  - apply keeps_bind; [apply keeps_lift | intros; apply keeps_print_err_fmt].
  - apply keeps_forM. intros j. unfold execute.
    destruct (pool_error j); [apply keeps_print_err_fmt | apply keeps_pure; reflexivity].
Qed.

Lemma evalGeneric_keeps (pool_error : job -> option pystr) task_hook evalname basefile
    evalfile pathid tidy :
  appending evalfile ->
  keeps (evalGeneric pool_error task_hook evalname algname basefile measdir evalfile
                     pathid tidy) K.
Proof.
  intros Happ. unfold evalGeneric.
  apply keeps_bind; [apply keeps_assert|]. intros _.
  apply keeps_bind; [apply keeps_lift|]. intros sep.
  apply keeps_bind; [apply keeps_assert|]. intros _. cbv zeta.
  apply keeps_bind; [apply keeps_assert|]. intros _.
  apply keeps_bind_gets. intros w0.
  apply keeps_bind; [|intros; apply run_jobs_keeps].
  apply keeps_foldM. intros c Hc st.
  apply listing_shape in Hc as (name & -> & _ & Hname & _).
  apply eval_group_keeps; assumption.
Qed.

End KeepsClusters.

(** X20 (lines 183-197 within [evalAlgorithm]): the evaluation never
    touches the clusters it evaluates.  For an algorithm whose name holds
    no slash and does not end with [clusters], every path that starts with
    [results/<algorithm>/clusters/] has the same node and content after a
    call of [evalAlgorithm] as before, whatever the measure, the base file,
    the path-id and the outcome of the call: the removal of old logs, the
    creation of the log directories and the removal of the accumulation
    file all stay inside the directory of the measure. *)
Theorem evalAlgorithm_keeps_clusters
    (pool_error : job -> option pystr) (task_hook : hook)
    (algname basefile measure : pystr) (timeout : Z) (pathid : pystr) (w : world)
    (k : pystr)
    (Hsl : "/"%char ∉ algname)
    (Hend : endswith algname (py "clusters") = false)
    (Hk : clusters_of algname k) :
  fs (fst (evalAlgorithm pool_error task_hook algname basefile measure timeout pathid w)) !! k
  = fs w !! k.
Proof.
  revert w k Hk. change (keeps (evalAlgorithm pool_error task_hook algname basefile measure
                                              timeout pathid) (clusters_of algname)).
  unfold evalAlgorithm.
  apply keeps_bind; [apply keeps_lift|]. intros sep.
  apply keeps_bind; [apply keeps_assert|]. intros _.
  apply keeps_bind; [apply keeps_print_out_fmt|]. intros _.
  unfold dispatch.
  destruct (bool_decide (measure = py "mod")).
  { apply (evalGeneric_keeps algname Hsl Hend "m" (py "od")); [discriminate|].
    apply modEvaluate_appending. }
  destruct (bool_decide (measure = py "nmi")).
  { apply (evalGeneric_keeps algname Hsl Hend "n" (py "mi")); [discriminate|].
    apply nmiEvaluate_appending. }
  destruct (bool_decide (measure = py "nmi_s")).
  { apply (evalGeneric_keeps algname Hsl Hend "n" (py "mi")); [discriminate|].
    apply nmisEvaluate_appending. }
  apply keeps_raise.
Qed.

Lemma evalAlgorithm_keeps_clusters_witness :
  fs (fst (evalAlgorithm (fun _ => None) HookSet (py "a") (py "nets/net.cnl") (py "mod") 60 []
                         world_shuffles)) !! py "results/a/clusters/net.1/l0.cnl"
  = fs world_shuffles !! py "results/a/clusters/net.1/l0.cnl".
Proof.
  apply (evalAlgorithm_keeps_clusters (fun _ => None) HookSet (py "a") (py "nets/net.cnl")
           (py "mod") 60 [] world_shuffles (py "results/a/clusters/net.1/l0.cnl"));
    [decide_it | reflexivity | reflexivity].
Defined.

(** X21 (line 183): the logs of a group go to the directory of the measure
    beside the clusters.  For an algorithm whose name holds no slash and
    does not end with [clusters], and a group name of one component, the
    replacement of the clusters directory by the measure directory turns
    [results/<algorithm>/clusters/<group>] into
    [results/<algorithm>/<measure>/<group>]: nothing in the name of the
    algorithm or of the group is taken for the clusters directory. *)
Theorem logsbase_of_group (algname measdir name : pystr)
    (Hsl : "/"%char ∉ algname)
    (Hend : endswith algname (py "clusters") = false)
    (Hname : "/"%char ∉ name) :
  logsbase_of (_RESDIR ++ algname ++ py "/" ++ _CLSDIR ++ name) measdir
  = _RESDIR ++ algname ++ py "/" ++ measdir ++ name.
Proof.
  replace (_RESDIR ++ algname ++ py "/" ++ _CLSDIR ++ name)
    with ((_RESDIR ++ algname ++ py "/" ++ _CLSDIR) ++ name)
    by (rewrite <- !app_assoc; reflexivity).
  rewrite logsbase_of_component by assumption.
  rewrite logsbase_of_cdir by assumption.
  rewrite <- !app_assoc. reflexivity.
Qed.

Lemma logsbase_of_group_witness :
  logsbase_of (py "results/scp/clusters/1K10!k3") _NMIDIR = py "results/scp/nmi/1K10!k3".
Proof.
  apply (logsbase_of_group (py "scp") _NMIDIR (py "1K10!k3"));
    [decide_it | reflexivity | decide_it].
Defined.

(** * Accepted groups and [preparePath], over the lemmas above *)

Lemma bind_assoc {A B C} (c : M A) (k : A -> M B) (k' : B -> M C) (w : world) :
  bind (bind c k) k' w = bind c (fun a => bind (k a) k') w.
Proof. unfold bind. destruct (c w) as [w1 [a|e]]; reflexivity. Qed.

(** A group that is a directory, passes the path-id filter and is no
    numbered instance is evaluated by lines 183-220 with the shuffle index
    decoded from its name. *)
Lemma eval_group_accepted (evalname algname measdir : pystr) (evalfile : emitter)
    (pathid : pystr) (tidy : bool) (taskcapt rcpoutp : pystr) (tsk : task)
    (st : locals) (clsbase clsname shuffle : pystr) (w w1 w2 : world) :
  Fs.isdir (fs w) clsbase = true ->
  snd (OsPath.split clsbase) = clsname ->
  check_pathid pathid clsname w = (w1, Ok true) ->
  other_instance taskcapt clsname = Ok false ->
  decode_shuffle clsname (len clsname - len pathid) w1 = (w2, Ok shuffle) ->
  eval_group evalname algname measdir evalfile pathid tidy taskcapt rcpoutp tsk st clsbase w
  = group_jobs evalname algname evalfile tidy rcpoutp tsk clsbase clsname shuffle
               (logsbase_of clsbase measdir)
               (taskoutp_of (logsbase_of clsbase measdir) shuffle pathid evalname)
               (jobs st) w2.
Proof.
  intros Hdir Hname Hkeep Hinst Hdec. unfold eval_group.
  unfold bind at 1, gets. rewrite Hdir. cbn [negb]. rewrite Hname.
  unfold bind at 1. rewrite Hkeep. cbn [negb].
  unfold bind at 1, lift. rewrite Hinst.
  unfold bind at 1. rewrite Hdec.
  unfold group_jobs, prepare_outputs. rewrite bind_assoc. reflexivity.
Qed.

Lemma printed_same (msgs : list pystr) (w : world) : printed msgs w w -> msgs = [].
Proof.
  unfold printed. intros H. apply (f_equal stdout) in H. cbn [stdout] in H.
  apply (app_inv_head (stdout w)). rewrite app_nil_r. symmetry. exact H.
Qed.

(** ** C5 *)

(** C5 (as the code has it): for a group that passed the filters the
    shuffle index is decoded and lines 183-220 build the jobs of the group
    for the accumulation file computed from it.  A group named
    [stem.shuffle] followed by the requested path-id, with an integer
    shuffle, a stem that holds a character other than a dot and a path-id
    without dot, is decoded to that shuffle without a message, and its file
    is the log-subdirectory path without the shuffle suffix, with the
    path-id appended again and the measure name as extension: a path that
    does not depend on the shuffle, so all such shuffles of a stem share it.
    A group without a dot before the path-id has no shuffle index, and
    without a shuffle index the file is the log-subdirectory path plus the
    extension. *)
Theorem C5_shuffle_output
    (evalname algname measdir pathid taskcapt rcpoutp cdir clsname : pystr)
    (evalfile : emitter) (tidy : bool) (tsk : task) (st : locals) (w w1 : world)
    (Hname : "/"%char ∉ clsname)
    (Hdir : Fs.isdir (fs w) (cdir ++ "/"%char :: clsname) = true)
    (Hkeep : check_pathid pathid clsname w = (w1, Ok true))
    (Hinst : other_instance taskcapt clsname = Ok false) :
  let clsbase := cdir ++ "/"%char :: clsname in
  let logsbase := logsbase_of clsbase measdir in
  exists shuffle msgs w2,
    decode_shuffle clsname (len clsname - len pathid) w1 = (w2, Ok shuffle)
    /\ printed msgs w1 w2
    /\ eval_group evalname algname measdir evalfile pathid tidy taskcapt rcpoutp tsk
                  st clsbase w
       = group_jobs evalname algname evalfile tidy rcpoutp tsk clsbase clsname shuffle
                    logsbase (taskoutp_of logsbase shuffle pathid evalname) (jobs st) w2
    /\ (shuffle = [] ->
        taskoutp_of logsbase shuffle pathid evalname = logsbase ++ py "." ++ evalname)
    /\ (forall stem sh,
          clsname = stem ++ "."%char :: sh ++ pathid ->
          int_ok sh = true -> existsb not_dot stem = true -> "."%char ∉ pathid ->
          shuffle = sh /\ msgs = []
          /\ logsbase = logsbase_of (cdir ++ py "/") measdir ++ stem ++ "."%char :: sh ++ pathid
          /\ taskoutp_of logsbase shuffle pathid evalname
             = logsbase_of (cdir ++ py "/") measdir ++ stem ++ pathid ++ py "." ++ evalname)
    /\ (forall stem, clsname = stem ++ pathid -> "."%char ∉ stem ->
          shuffle = [] /\ msgs = []).
Proof.
  intros clsbase logsbase.
  destruct (decode_shuffle_total clsname (len clsname - len pathid) w1)
    as (shuffle & msgs & w2 & Hdec & Hpr).
  exists shuffle, msgs, w2.
  split; [exact Hdec|]. split; [exact Hpr|].
  split.
  { eapply eval_group_accepted;
      [exact Hdir | apply split_tail_last, Hname | exact Hkeep | exact Hinst | exact Hdec]. }
  split; [intros ->; reflexivity|].
  split.
  - intros stem sh E Hsh Hstem Hpid.
    assert (Hdot : "."%char ∉ sh) by (apply int_ok_no_char; [assumption | reflexivity]).
    rewrite E in Hdec. rewrite (decode_shuffle_last stem sh pathid w1 Hdot) in Hdec.
    destruct sh as [|c sh']; [discriminate|]. rewrite Hsh in Hdec.
    injection Hdec as <- <-.
    split; [reflexivity|]. split; [exact (printed_same _ _ Hpr)|].
    assert (Hlogs : logsbase
                    = logsbase_of (cdir ++ py "/") measdir ++ stem ++ "."%char :: (c :: sh') ++ pathid).
    { unfold logsbase, clsbase. rewrite <- E.
      replace (cdir ++ "/"%char :: clsname) with ((cdir ++ py "/") ++ clsname)
        by (rewrite <- app_assoc; reflexivity).
      apply logsbase_of_component, Hname. }
    split; [exact Hlogs|].
    rewrite Hlogs. apply taskoutp_of_shuffle; try assumption.
    rewrite E in Hname. rewrite !not_elem_of_app, not_elem_of_cons, not_elem_of_app in *.
    tauto.
  - intros stem E Hd. rewrite decode_shuffle_nodot in Hdec.
    + injection Hdec as <- <-. split; [reflexivity | exact (printed_same _ _ Hpr)].
    + rewrite E.
      replace (len (stem ++ pathid) - len pathid) with (len stem) by (rewrite len_app; lia).
      rewrite slice_to_app. exact Hd.
Qed.

(** Shuffles 1 and 2 of [net] with the path-id [#2]: each is decoded from
    the name of its group, and both get the same file. *)
Lemma C5_shuffle_output_witness :
  (exists w2,
     decode_shuffle (py "net.1#2") 5 world_shuffles_pathid = (w2, Ok (py "1"))
     /\ taskoutp_of (logsbase_of (py "results/a/clusters/net.1#2") _MODDIR)
                    (py "1") (py "#2") (py "mod")
        = py "results/a/mod/net#2.mod")
  /\ (exists w2,
        decode_shuffle (py "net.2#2") 5 world_shuffles_pathid = (w2, Ok (py "2"))
        /\ taskoutp_of (logsbase_of (py "results/a/clusters/net.2#2") _MODDIR)
                       (py "2") (py "#2") (py "mod")
           = py "results/a/mod/net#2.mod").
Proof.
  split.
  - destruct (C5_shuffle_output (py "mod") (py "a") _MODDIR (py "#2") (py "net")
                (py "results/a/mod.rcp") (py "results/a/clusters") (py "net.1#2")
                (modEvaluate (py "nets/net.cnl") 60) true (mkTask (py "mod_net_#2_a") HookSet)
                (mkLocals [] None) world_shuffles_pathid world_shuffles_pathid
                ltac:(decide_it) ltac:(vm_compute; reflexivity) ltac:(vm_compute; reflexivity)
                ltac:(vm_compute; reflexivity))
      as (shuffle & msgs & w2 & Hdec & _ & _ & _ & Hshape & _).
    destruct (Hshape (py "net") (py "1") eq_refl eq_refl eq_refl ltac:(decide_it))
      as (-> & _ & _ & Hout).
    exists w2. split; [exact Hdec | exact Hout].
  - destruct (C5_shuffle_output (py "mod") (py "a") _MODDIR (py "#2") (py "net")
                (py "results/a/mod.rcp") (py "results/a/clusters") (py "net.2#2")
                (modEvaluate (py "nets/net.cnl") 60) true (mkTask (py "mod_net_#2_a") HookSet)
                (mkLocals [] None) world_shuffles_pathid world_shuffles_pathid
                ltac:(decide_it) ltac:(vm_compute; reflexivity) ltac:(vm_compute; reflexivity)
                ltac:(vm_compute; reflexivity))
      as (shuffle & msgs & w2 & Hdec & _ & _ & _ & Hshape & _).
    destruct (Hshape (py "net") (py "2") eq_refl eq_refl eq_refl ltac:(decide_it))
      as (-> & _ & _ & Hout).
    exists w2. split; [exact Hdec | exact Hout].
Defined.

(** C5 as stated fails for a requested path-id that holds a dot: [#1.5]
    passes the assertion on the separator, the groups [net.1#1.5] and
    [net.2#1.5] are shuffles 1 and 2 of [net], and the extension cut from
    the log-subdirectory path is [.5], not the shuffle suffix; the two
    shuffles get two accumulation files.  It also fails for a stem of dots
    only: for the base file [nets/..] the groups [...1] and [...2] are
    shuffles 1 and 2 of [..], no extension is cut, and the two shuffles get
    two files. *)
Lemma C5_counterexample :
  preconditions (py "mod") (py "a") (py "nets/net.cnl") (py "#1.5") = true
  /\ snd (decode_shuffle (py "net.1#1.5") (len (py "net.1#1.5") - len (py "#1.5"))
            world_dotted_pathid) = Ok (py "1")
  /\ snd (decode_shuffle (py "net.2#1.5") (len (py "net.2#1.5") - len (py "#1.5"))
            world_dotted_pathid) = Ok (py "2")
  /\ map (fun j => (job_name j, job_taskoutp j))
         (submitted (fst (evalGeneric (fun _ => None) HookSet (py "mod") (py "a")
                            (py "nets/net.cnl") _MODDIR (modEvaluate (py "nets/net.cnl") 60)
                            (py "#1.5") true world_dotted_pathid)))
     = [(py "mod_net.2#1.5_a", py "results/a/mod/net.2#1#1.5.mod");
        (py "mod_net.1#1.5_a", py "results/a/mod/net.1#1#1.5.mod")]
  /\ preconditions (py "mod") (py "a") (py "nets/..") [] = true
  /\ snd (decode_shuffle (py "...1") (len (py "...1") - len []) world_dotted_pathid)
     = Ok (py "1")
  /\ taskoutp_of (logsbase_of (py "results/a/clusters/...1") _MODDIR) (py "1") [] (py "mod")
     = py "results/a/mod/...1.mod"
  /\ taskoutp_of (logsbase_of (py "results/a/clusters/...2") _MODDIR) (py "2") [] (py "mod")
     = py "results/a/mod/...2.mod".
Proof. vm_compute. auto 10. Qed.

(** ** C8 *)








(** ** C9 *)

(** C9 (as the code has it, for a task path with a directory part): for a
    task path made of a directory part, one slash and a last component,
    that exists and is not empty, the first
    call makes one backup, of every path that starts with the base path,
    and leaves the task path as an empty directory; the second call changes
    nothing: no backup, the same file system.  The base path is a prefix of
    the task path, and for a last component made of a base name with an
    optional instance, optional parameters and an optional last extension
    it is the directory part with the bare base name.  No regular file lies
    above the task path. *)
Theorem C9_prepare_twice (head name : pystr) (w : world)
    (Hhead : exists c, last head = Some c /\ c <> "/"%char)
    (Hname : "/"%char ∉ name)
    (Hexists : Fs.exists_ (fs w) (head ++ "/"%char :: name) = true)
    (Hfull : dirempty (fs w) (head ++ "/"%char :: name) = false)
    (Habove : no_file_above (fs w) (head ++ "/"%char :: name)) :
  let taskpath := head ++ "/"%char :: name in
  exists mainpath rest w1,
    backup_base taskpath = Ok mainpath
    /\ taskpath = mainpath ++ rest
    /\ (forall base inst params ext,
          name = variant_name base inst params ext ->
          base <> [] ->
          free_of (py "/^!.") base = true ->
          free_part (py "/^!.") inst = true ->
          free_part (py "/^!.") params = true ->
          free_part (py "/.") ext = true ->
          mainpath = head ++ "/"%char :: base)
    /\ preparePath taskpath w = (w1, Ok tt)
    /\ backups w1
       = backups w ++ [filter (fun kv => Fs.has_prefix mainpath kv.1 = true) (fs w)]
    /\ fs w1 !! taskpath = Some Dir
    /\ dirempty (fs w1) taskpath = true
    /\ preparePath taskpath w1 = (w1, Ok tt).
Proof.
  intros taskpath.
  destruct (preparePath_twice head name w Hhead Hname Hexists Hfull Habove)
    as (mainpath & rest & w1 & Hb & E & H1 & H2 & H3 & H4 & H5).
  exists mainpath, rest, w1.
  split; [exact Hb|]. split; [exact E|].
  split; [|auto].
  intros base inst params ext -> Hbase Hfb Hi Hp He.
  rewrite (variant_base_path head base inst params ext) in Hb by assumption.
  congruence.
Qed.

(** The first instance of [net], prepared twice. *)
Lemma C9_prepare_twice_witness :
  backup_base (py "results/a/clusters/net^1") = Ok (py "results/a/clusters/net")
  /\ exists w1,
       preparePath (py "results/a/clusters/net^1") world_first_run = (w1, Ok tt)
       /\ length (backups w1) = 1%nat
       /\ dirempty (fs w1) (py "results/a/clusters/net^1") = true
       /\ preparePath (py "results/a/clusters/net^1") w1 = (w1, Ok tt).
Proof.
  assert (Habove : no_file_above (fs world_first_run) (py "results/a/clusters/net^1"))
    by no_file_it.
  destruct (C9_prepare_twice (py "results/a/clusters") (py "net^1") world_first_run
              ltac:(exists "s"%char; split; [vm_compute; reflexivity | discriminate])
              ltac:(decide_it) ltac:(vm_compute; reflexivity) ltac:(vm_compute; reflexivity)
              Habove)
    as (m & rest & w1 & Hb & _ & Hv & H1 & H2 & _ & H3 & H4).
  rewrite (Hv (py "net") (Some (py "1")) None None eq_refl ltac:(discriminate)
              eq_refl eq_refl eq_refl eq_refl) in Hb.
  split; [exact Hb|].
  exists w1. split; [exact H1|]. split; [rewrite H2; reflexivity|].
  split; [exact H3 | exact H4].
Defined.

(** C9 as stated fails for a task path without directory part: the base
    path of [net^1] is [/net], nothing starts with it, so no backup is made
    and the task path is left as it was, not empty. *)
Lemma C9_counterexample :
  Fs.exists_ (fs world_bare_task) (py "net^1") = true
  /\ dirempty (fs world_bare_task) (py "net^1") = false
  /\ backup_base (py "net^1") = Ok (py "/net")
  /\ preparePath (py "net^1") world_bare_task = (world_bare_task, Ok tt)
  /\ backups world_bare_task = [].
Proof. vm_compute. auto 6. Qed.
